(** * smiles-vscode: cursor tracking, module cache and diagnostics conversion

    A shallow embedding of the editor-side logic of the extension
    ([src/lineTracker.js], [src/diagnostics.js], [src/roundtripDiagnostics.js],
    [src/refactorMolecule.js]) together with the properties that the design
    document states about it.

    Conventions.
    - JavaScript strings are sequences of 8-bit code units ([string]); the
      character classes [\s], [\w], [\d] and [.] are the restrictions of the
      ECMAScript classes to that range.
    - JavaScript numbers that the code only compares, increments or passes
      through are integers ([Z], [N] or [nat] for editor line indices).
    - [undefined] for a missing numeric field is [None]; other values that
      the code tests for truthiness are [JSVal]s.
    - A call that may throw returns [Res]: [Ok v] or [Throw err]; what
      is thrown is an [Error] object, with its message.
    - The external collaborators (DSL engine, file system, module host,
      editor) are records of functions or oracle values; every theorem
      quantifies over them.
    - The extension host is single-threaded; an asynchronous method is
      modelled as running to completion, its awaits in program order,
      before the next event is handled.
    - [fs.statSync(path).mtimeMs] is a whole number of milliseconds. *)

From Stdlib Require Import ZArith NArith List Ascii String Lia Bool Sorted.
From stdpp Require Import base gmap strings list fin_maps pretty.

Local Open Scope Z_scope.

(** ** JavaScript values and strings *)
Module JS.

(** An [Error] object as the code reads it: [err.message] and [err.stack]. *)
Record Error := mkError { message : string; stack : option string }.

Inductive Res (A : Type) : Type :=
| Ok (a : A)
| Throw (err : Error).
Arguments Ok {A} a.
Arguments Throw {A} err.

(** A function value is a method called with a string, as [toCode] is. *)
#[local] Set Warnings "-register-all".
Inductive JSVal : Type :=
| VUndefined
| VNull
| VBool (b : bool)
| VNumber (n : Z)
| VString (s : string)
| VFunction (f : string → Res JSVal).

(** ToBoolean: [undefined], [null], [false], [0] and [''] are falsy. *)
Definition truthy (v : JSVal) : bool :=
  match v with
  | VUndefined | VNull => false
  | VBool b => b
  | VNumber n => negb (n =? 0)
  | VString s => negb (String.eqb s "")
  | VFunction _ => true
  end.

(** [a || b] *)
Definition or_else (a b : JSVal) : JSVal := if truthy a then a else b.

(** [\s] *)
Definition isSpace (c : ascii) : bool :=
  match c with
  | "009" | "010" | "011" | "012" | "013" | " " | "160" => true
  | _ => false
  end%char.

(** [\d] *)
Definition isDigit (c : ascii) : bool :=
  let n := nat_of_ascii c in (48 <=? n)%nat && (n <=? 57)%nat.

(** [\w] *)
Definition isWord (c : ascii) : bool :=
  let n := nat_of_ascii c in
  ((48 <=? n)%nat && (n <=? 57)%nat) || ((65 <=? n)%nat && (n <=? 90)%nat)
  || ((97 <=? n)%nat && (n <=? 122)%nat) || (n =? 95)%nat.

(** Characters that [.] does not match. *)
Definition isLineTerminator (c : ascii) : bool :=
  match c with "010" | "013" => true | _ => false end%char.

Fixpoint trimStart (s : string) : string :=
  match s with
  | String c r => if isSpace c then trimStart r else s
  | EmptyString => EmptyString
  end.

Fixpoint trimEnd (s : string) : string :=
  match s with
  | EmptyString => EmptyString
  | String c r =>
      match trimEnd r with
      | EmptyString => if isSpace c then EmptyString else String c EmptyString
      | r' => String c r'
      end
  end.

(** [s.trim()] *)
Definition trim (s : string) : string := trimEnd (trimStart s).

(** [s.startsWith(p)] *)
Definition startsWith (s p : string) : bool := String.prefix p s.

(** [s.slice(n)] for [0 <= n]. *)
Fixpoint drop (n : nat) (s : string) : string :=
  match n, s with
  | S k, String _ r => drop k r
  | _, _ => s
  end.

(** [s.endsWith(p)] *)
Definition endsWith (s p : string) : bool :=
  (String.length p <=? String.length s)%nat
  && String.eqb (drop (String.length s - String.length p) s) p.

(** [s.includes(p)] *)
Fixpoint includes (s p : string) : bool :=
  String.prefix p s ||
  match s with
  | EmptyString => false
  | String _ r => includes r p
  end.

(** [s.split(sep)] for a one-character separator. *)
Fixpoint split (sep : ascii) (s : string) : list string :=
  match s with
  | EmptyString => [EmptyString]
  | String c r =>
      if Ascii.eqb c sep then EmptyString :: split sep r
      else match split sep r with
           | l :: ls => String c l :: ls
           | [] => [String c EmptyString]
           end
  end.

(** [s.split('\n')] *)
Definition splitLines (s : string) : list string := split "010"%char s.

(** [parts.join(sep)] *)
Fixpoint join (sep : string) (parts : list string) : string :=
  match parts with
  | [] => EmptyString
  | [p] => p
  | p :: ps => p +:+ sep +:+ join sep ps
  end.

(** The longest prefix of [s] whose characters satisfy [p], and the rest. *)
Fixpoint span (p : ascii → bool) (s : string) : string * string :=
  match s with
  | String c r =>
      if p c then let '(a, b) := span p r in (String c a, b)
      else (EmptyString, s)
  | EmptyString => (EmptyString, EmptyString)
  end.

(** [s] without the literal prefix [lit], when it has it. *)
Fixpoint stripPrefix (lit s : string) : option string :=
  match lit, s with
  | EmptyString, _ => Some s
  | String a l, String b r => if Ascii.eqb a b then stripPrefix l r else None
  | String _ _, EmptyString => None
  end.

End JS.
Export JS.

(** ** The editor's documents *)
Module Editor.

(** A cursor position: 0-based line and character. *)
Record Position := mkPosition { line : nat; character : nat }.

(** A [vscode.TextDocument]; lines are separated by a line feed. *)
Record TextDocument := mkTextDocument {
  uri : string;
  fsPath : string;
  fileName : string;
  languageId : string;
  getText : string
}.

(** The helper that both providers and the tracker define. *)
Definition isSupportedFile (document : TextDocument) : bool :=
  String.eqb (languageId document) "selfies"
  || endsWith (fileName document) ".smiles.js".

Definition nl : string := String "010"%char EmptyString.

(** [document.lineAt(n).text], which throws outside the document. *)
Definition lineAt (document : TextDocument) (n : nat) : Res string :=
  match splitLines (getText document) !! n with
  | Some l => Ok l
  | None => Throw (mkError "Illegal value for `line`" None)
  end.

Fixpoint take (n : nat) (s : string) : string :=
  match n, s with
  | S k, String c r => String c (take k r)
  | _, _ => EmptyString
  end.

(** [document.offsetAt(position)]: a position outside the text is moved
    to the nearest one inside. *)
Definition offsetAt (text : string) (pos : Position) : nat :=
  let lines := splitLines text in
  match lines !! line pos with
  | None => String.length text
  | Some l =>
      (foldr (λ l acc, S (String.length l) + acc) 0
             (List.firstn (line pos) lines)
       + Nat.min (character pos) (String.length l))%nat
  end.

(** [editBuilder.insert(pos, ins)] on the text. *)
Definition insert (text : string) (pos : Position) (ins : string) : string :=
  let off := offsetAt text pos in
  take off text +:+ ins +:+ drop off text.

Definition setText (document : TextDocument) (text : string) : TextDocument :=
  mkTextDocument (uri document) (fsPath document) (fileName document)
    (languageId document) text.

End Editor.

(** ** Diagnostics synchronizer ([src/diagnostics.js]) *)
Module Diagnostics.

Inductive DiagnosticSeverity := Error | Warning | Information | Hint.

(** [vscode.Position] and [vscode.Range], as the constructor arguments. *)
Record Position := mkPosition { line : Z; character : Z }.
Record Range := mkRange { start : Position; end_ : Position }.

Record Diagnostic := mkDiagnostic {
  range : Range;
  message : string;
  severity : DiagnosticSeverity;
  source : string;
  code : JSVal
}.

(** An entry of [result.errors] or [result.warnings]. *)
Record Reported := mkReported {
  r_line : option Z;
  r_column : option Z;
  r_endColumn : option Z;
  r_type : JSVal;
  r_severity : JSVal;
  r_message : string;
  r_code : JSVal
}.

Record ParseResult := mkParseResult {
  errors : option (list Reported);
  warnings : option (list Reported)
}.

(** [getSeverity(type)]: the [switch] compares with [===], so only strings
    can reach a [case]. *)
Definition getSeverity (type : JSVal) : DiagnosticSeverity :=
  match type with
  | VString s =>
      if String.eqb s "error" then Error
      else if String.eqb s "syntax" then Error
      else if String.eqb s "undefined" then Error
      else if String.eqb s "circular" then Error
      else if String.eqb s "redefinition" then Error
      else if String.eqb s "warning" then Warning
      else if String.eqb s "chemistry" then Warning
      else if String.eqb s "info" then Information
      else if String.eqb s "hint" then Hint
      else Error
  | _ => Error
  end.

(** The three position computations shared by the error and the warning
    loop of [updateDiagnostics]. *)
Definition toLine (r : Reported) : Z :=
  match r_line r with Some l => l - 1 | None => 0 end.
Definition toColumn (r : Reported) : Z :=
  match r_column r with Some c => c - 1 | None => 0 end.
Definition toEndColumn (r : Reported) : Z :=
  match r_endColumn r with Some e => e - 1 | None => toColumn r + 1 end.
Definition toRange (r : Reported) : Range :=
  mkRange (mkPosition (toLine r) (toColumn r))
          (mkPosition (toLine r) (toEndColumn r)).

(** Body of [result.errors.forEach]. *)
Definition errorDiagnostic (error : Reported) : Diagnostic :=
  mkDiagnostic (toRange error) (r_message error)
    (getSeverity (or_else (r_type error) (r_severity error)))
    "selfies"
    (if truthy (r_code error) then r_code error else VUndefined).

(** Body of [result.warnings.forEach]. *)
Definition warningDiagnostic (warning : Reported) : Diagnostic :=
  mkDiagnostic (toRange warning) (r_message warning) Warning "selfies"
    VUndefined.

Definition each {A B} (f : A → B) (l : option (list A)) : list B :=
  match l with Some xs => map f xs | None => [] end.

Section UpdateDiagnostics.

(** The DSL engine's [loadWithImports(text, path)]. *)
Variable loadWithImports : string → string → Res ParseResult.
(** The static lint pass run on build-format files; what it returns is
    published as it is. *)
Variable validateJavaScriptImports : string → list Diagnostic.

(** [updateDiagnostics(document)]: [None] when nothing is published,
    otherwise the set handed to [diagnosticCollection.set]. *)
Definition updateDiagnostics (document : Editor.TextDocument)
  : option (list Diagnostic) :=
  if negb (Editor.isSupportedFile document) then None
  else
    let text := Editor.getText document in
    if endsWith (Editor.fileName document) ".smiles.js"
    then Some (validateJavaScriptImports text)
    else
      match loadWithImports text (Editor.fsPath document) with
      | Ok result =>
          Some (each errorDiagnostic (errors result)
                ++ each warningDiagnostic (warnings result))
      | Throw err =>
          Some [mkDiagnostic
                  (mkRange (mkPosition 0 0) (mkPosition 0 1))
                  ("Failed to parse SELFIES file: " +:+ JS.message err)
                  Error "selfies" VUndefined]
      end.

End UpdateDiagnostics.

End Diagnostics.

(** ** Regular-expression scanning

    Every pattern of the extension is deterministic at a fixed start
    position (each greedy [\s*], [\s+], [\w+], [\d+] run is followed by a
    character outside its class, and the lazy [.*?] is followed by the
    back-reference), so a pattern is a function [matchAt] that tries it on
    the text starting at the current position and returns the length of
    [match[0]] with the captures. *)
Module Regex.

(** [re.exec] in a loop with the [g] flag: [index] is the position of
    [s] in the whole text, [skip] the number of characters up to
    [lastIndex]. A match at [index] of length [len] is recorded and the
    scan goes on at [index + len]; without a match it goes on at
    [index + 1]. *)
Fixpoint execAll {A} (matchAt : string → option (nat * A)) (s : string)
    (index skip : nat) : list (nat * A) :=
  match skip with
  | S k =>
      match s with
      | String _ r => execAll matchAt r (S index) k
      | EmptyString => []
      end
  | O =>
      match matchAt s with
      | Some (len, a) =>
          (index, a) ::
          match s with
          | String _ r => execAll matchAt r (S index) (len - 1)
          | EmptyString => []
          end
      | None =>
          match s with
          | String _ r => execAll matchAt r (S index) 0
          | EmptyString => []
          end
      end
  end.

(** [s.match(re)] without the [g] flag: the leftmost match. *)
Fixpoint execFirst {A} (matchAt : string → option A) (s : string)
    : option A :=
  match matchAt s with
  | Some a => Some a
  | None =>
      match s with
      | String _ r => execFirst matchAt r
      | EmptyString => None
      end
  end.

(** [re.test(s)] for a one-character class. *)
Fixpoint testClass (p : ascii → bool) (s : string) : bool :=
  match s with
  | String c r => p c || testClass p r
  | EmptyString => false
  end.

(** The double quote, written [Q] in the patterns quoted below. *)
Definition dquote : ascii := ascii_of_nat 34.

(** [['Q]] *)
Definition isQuote (c : ascii) : bool :=
  Ascii.eqb c "'"%char || Ascii.eqb c dquote.

(** [(.*?)\1] after the opening quote [q]: the text up to the nearest
    [q], which no line terminator may precede. *)
Fixpoint lazyBody (q : ascii) (s : string) : option string :=
  match s with
  | EmptyString => None
  | String c r =>
      if Ascii.eqb c q then Some EmptyString
      else if isLineTerminator c then None
      else option_map (String c) (lazyBody q r)
  end.

(** [s.indexOf(c)] for a one-character needle. *)
Fixpoint indexOf (s : string) (c : ascii) : Z :=
  match s with
  | EmptyString => -1
  | String d r =>
      if Ascii.eqb d c then 0
      else let i := indexOf r c in if i <? 0 then -1 else i + 1
  end.

(** [/export\s+const\s+(\w+)\s*=/] at the current position: [match[1]]. *)
Definition exportConstPattern (s : string) : option string :=
  match stripPrefix "export" s with
  | None => None
  | Some r1 =>
      let '(ws1, r2) := span isSpace r1 in
      if String.eqb ws1 "" then None
      else match stripPrefix "const" r2 with
           | None => None
           | Some r3 =>
               let '(ws2, r4) := span isSpace r3 in
               let '(w, r5) := span isWord r4 in
               let '(_, r6) := span isSpace r5 in
               if String.eqb ws2 "" || String.eqb w "" then None
               else match stripPrefix "=" r6 with
                    | Some _ => Some w
                    | None => None
                    end
           end
  end.

(** [/^(W)const\s+(\w+)\s*=/] on a line, [W] being [\s*]: [match[1]] and
    [match[2]]. *)
Definition constPattern (s : string) : option (string * string) :=
  let '(ws0, r1) := span isSpace s in
  match stripPrefix "const" r1 with
  | None => None
  | Some r2 =>
      let '(ws1, r3) := span isSpace r2 in
      let '(w, r4) := span isWord r3 in
      let '(_, r5) := span isSpace r4 in
      if String.eqb ws1 "" || String.eqb w "" then None
      else match stripPrefix "=" r5 with
           | Some _ => Some (ws0, w)
           | None => None
           end
  end.

End Regex.

(** ** Round-trip stability checker ([src/roundtripDiagnostics.js]) *)
Module RoundTrip.
Import Regex.

(** [[CNOPSFClBrI[\]()=@#\\/+-]] *)
Definition isSmilesChar (c : ascii) : bool :=
  match c with
  | "C" | "N" | "O" | "P" | "S" | "F" | "l" | "B" | "r" | "I"
  | "[" | "]" | "(" | ")" | "=" | "@" | "#" | "\" | "/" | "+" | "-" => true
  | _ => false
  end%char.

(** [[=#]] *)
Definition isBond (c : ascii) : bool :=
  match c with "=" | "#" => true | _ => false end%char.

Definition looksLikeSMILES (line : string) : bool :=
  testClass isSmilesChar line
  && (testClass isDigit line || testClass isBond line).

Record Extracted := mkExtracted {
  smiles : string;
  start : Z;
  end_ : Z;
  line : nat
}.

(** [/(['Q])(.*?)\1/] at the current position: length of [match[0]] and
    [match[2]]. *)
Definition stringLiteralPattern (s : string) : option (nat * string) :=
  match s with
  | String q r =>
      if isQuote q then
        match lazyBody q r with
        | Some body => Some (String.length body + 2, body)%nat
        | None => None
        end
      else None
  | EmptyString => None
  end.

(** [/smiles\s*:\s*(['Q])(.*?)\1/] at the current position: length of
    [match[0]], then [match[0]], [match[1]] and [match[2]]. *)
Definition smilesFieldPattern (s : string)
    : option (nat * (string * ascii * string)) :=
  match stripPrefix "smiles" s with
  | None => None
  | Some r1 =>
      let '(ws1, r2) := span isSpace r1 in
      match stripPrefix ":" r2 with
      | None => None
      | Some r3 =>
          let '(ws2, r4) := span isSpace r3 in
          match r4 with
          | String q r5 =>
              if isQuote q then
                match lazyBody q r5 with
                | Some body =>
                    let m0 := "smiles" +:+ ws1 +:+ ":" +:+ ws2
                              +:+ String q body +:+ String q EmptyString in
                    Some (String.length m0, (m0, q, body))
                | None => None
                end
              else None
          | EmptyString => None
          end
      end
  end.

(** Pattern 1: string literals. *)
Definition stringLiteralEntries (line : string) (lineNumber : nat)
    : list Extracted :=
  omap (λ '(index, potentialSMILES),
          if looksLikeSMILES potentialSMILES then
            Some (mkExtracted potentialSMILES
                    (Z.of_nat index + 1)
                    (Z.of_nat index
                     + Z.of_nat (String.length potentialSMILES + 2) - 1)
                    lineNumber)
          else None)
       (execAll stringLiteralPattern line 0 0).

(** Pattern 2: the smiles field. *)
Definition smilesFieldEntries (line : string) (lineNumber : nat)
    : list Extracted :=
  map (λ '(index, (m0, q, smiles)),
         let start := Z.of_nat index + indexOf m0 q + 1 in
         mkExtracted smiles start
           (start + Z.of_nat (String.length smiles)) lineNumber)
      (execAll smilesFieldPattern line 0 0).

(** Both loops push onto the same [smilesList]. *)
Definition extractSMILESFromLine (line : string) (lineNumber : nat)
    : list Extracted :=
  stringLiteralEntries line lineNumber ++ smilesFieldEntries line lineNumber.

End RoundTrip.

(** ** Cursor tracker and module cache ([src/lineTracker.js]) *)
Module LineTracker.
Import Regex.

(** *** Values exchanged with the collaborators *)

(** A value exported by a build-format module. *)
Inductive Export :=
| EPrim (v : JSVal)
| EObject (props : gmap string JSVal).

(** The namespace object of a loaded module. *)
Abbreviation Exports := (gmap string Export).

Definition exportTruthy (v : Export) : bool :=
  match v with
  | EPrim p => truthy p
  | EObject _ => true
  end.

(** [v.k] on a truthy value. *)
Definition getProp (v : Export) (k : string) : JSVal :=
  match v with
  | EObject props => default VUndefined (props !! k)
  | EPrim _ => VUndefined
  end.

(** An entry of [definition.tokens]. *)
Inductive Token :=
| TString (s : string)
| TRepeatCall (pattern : string) (count : Z)
| TOther (asString : string).

Record Def := mkDef {
  d_name : string;
  d_line : Z;
  d_tokens : option (list Token)
}.

(** What the tracker reads of a parse result: the [definitions] map, in
    insertion order. *)
Record ParseResult := mkParseResult {
  definitions : option (list (string * Def))
}.

(** The DSL engine (selfies-js). *)
Record Engine := mkEngine {
  loadWithImports : string → string → Res ParseResult;
  resolve : ParseResult → string → bool → Res string;
  decode : string → Res string;
  getMolecularWeight : string → Res Z;
  getFormula : string → Res string
}.

Record TextEditor := mkTextEditor {
  document : nat;
  selections0_active : Editor.Position
}.

(** What one call reads from outside the tracker. *)
Record Host := mkHost {
  engine : Engine;
  statSync_mtimeMs : string → Res N;
  requireResolve : string → Res string;
  pathToFileURL : string → string;
  Date_now : N;
  dynamicImport : string → Res Exports;
  activeTextEditor : option TextEditor
}.

(** The object passed to [_onDidChangeCurrentLine.fire]; a field that
    an object literal omits is [VUndefined]. *)
Record LineInfo := mkLineInfo {
  line : nat;
  name : JSVal;
  expression : JSVal;
  selfies : JSVal;
  smiles : JSVal;
  molecularWeight : JSVal;
  formula : JSVal;
  error : JSVal
}.

Inductive Effect :=
| Fire (info : option LineInfo)
| Edit (doc : nat) (pos : Editor.Position) (text : string)
| Save (doc : nat)
| Import (url : string)
| CacheClear
| CacheSet (key : string).

(** The tracker's fields, the editor's documents (shared with the
    tracker by reference [nat]) and the effects so far, oldest first. *)
Record Store := mkStore {
  _currentLine : option nat;
  _currentDocument : option nat;
  _parseResult : option ParseResult;
  _smilesModuleCache : gmap string Exports;
  documents : nat → Editor.TextDocument;
  effects : list Effect
}.

Definition set_currentLine (v : option nat) (s : Store) : Store :=
  mkStore v (_currentDocument s) (_parseResult s) (_smilesModuleCache s)
    (documents s) (effects s).
Definition set_currentDocument (v : option nat) (s : Store) : Store :=
  mkStore (_currentLine s) v (_parseResult s) (_smilesModuleCache s)
    (documents s) (effects s).
Definition set_parseResult (v : option ParseResult) (s : Store) : Store :=
  mkStore (_currentLine s) (_currentDocument s) v (_smilesModuleCache s)
    (documents s) (effects s).
Definition set_smilesModuleCache (v : gmap string Exports) (s : Store)
    : Store :=
  mkStore (_currentLine s) (_currentDocument s) (_parseResult s) v
    (documents s) (effects s).
Definition set_document (d : nat) (v : Editor.TextDocument) (s : Store)
    : Store :=
  mkStore (_currentLine s) (_currentDocument s) (_parseResult s)
    (_smilesModuleCache s)
    (λ i, if Nat.eqb i d then v else documents s i) (effects s).
Definition add_effect (e : Effect) (s : Store) : Store :=
  mkStore (_currentLine s) (_currentDocument s) (_parseResult s)
    (_smilesModuleCache s) (documents s) (effects s ++ [e]).

(** *** State and exceptions *)

Definition M (A : Type) : Type := Store → Res A * Store.

Definition ret {A} (a : A) : M A := λ s, (Ok a, s).
Definition bind {A B} (m : M A) (f : A → M B) : M B :=
  λ s, match m s with
       | (Ok a, s') => f a s'
       | (Throw err, s') => (Throw err, s')
       end.
Definition tryCatch {A} (m : M A) (handler : Error → M A) : M A :=
  λ s, match m s with
       | (Ok a, s') => (Ok a, s')
       | (Throw err, s') => handler err s'
       end.
Definition liftRes {A} (r : Res A) : M A := λ s, (r, s).
Definition gets {A} (f : Store → A) : M A := λ s, (Ok (f s), s).
Definition modify (f : Store → Store) : M unit := λ s, (Ok tt, f s).
Definition emit (e : Effect) : M unit := modify (add_effect e).

Notation "x <- m ;; k" := (bind m (λ x, k))
  (at level 100, m at next level, right associativity).
Notation "m ;; k" := (bind m (λ _, k))
  (at level 100, right associativity).

(** *** [_formatTokens] *)
Definition formatToken (token : Token) : string :=
  match token with
  | TString s => s
  | TRepeatCall pattern count =>
      "repeat(" +:+ pattern +:+ ", " +:+ pretty count +:+ ")"
  | TOther asString => asString
  end.

Definition _formatTokens (tokens : list Token) : string :=
  join "" (map formatToken tokens).

(** *** [_loadSmilesModule] *)

Record LoadResult := mkLoadResult {
  module : option Exports;
  load_error : JSVal
}.

(** The template string that keys the cache. *)
Definition cacheKey (filePath : string) (mtimeMs : N) : string :=
  filePath +:+ ":" +:+ pretty mtimeMs.

(** [/:(\d+):\d+/] at the current position: [match[1]]. *)
Definition lineColumnPattern (s : string) : option string :=
  match stripPrefix ":" s with
  | None => None
  | Some r1 =>
      let '(ds, r2) := span isDigit r1 in
      if String.eqb ds "" then None
      else match stripPrefix ":" r2 with
           | Some (String d _) => if isDigit d then Some ds else None
           | _ => None
           end
  end.

(** [err.stack?.match(re) || err.message?.match(re)] *)
Definition lineMatch (err : Error) : option string :=
  match stack err with
  | Some st =>
      match execFirst lineColumnPattern st with
      | Some l => Some l
      | None => execFirst lineColumnPattern (message err)
      end
  | None => execFirst lineColumnPattern (message err)
  end.

(** *** [_findConstAtLine] *)

Record ConstInfo := mkConstInfo {
  c_name : string;
  needsExport : bool;
  constPosition : option nat
}.

Definition _findConstAtLine (text : string) (lineNumber : nat)
    : option ConstInfo :=
  let lines := splitLines text in
  match lines !! lineNumber with
  | None => None
  | Some line =>
      if String.eqb line "" then None
      else
        (* Match: export const NAME = ... *)
        match execFirst exportConstPattern line with
        | Some exportMatch1 => Some (mkConstInfo exportMatch1 false None)
        | None =>
            (* Match: const NAME = ... (without export) *)
            match constPattern line with
            | Some (constMatch1, constMatch2) =>
                let leadingWhitespace := String.length constMatch1 in
                Some (mkConstInfo constMatch2 true (Some leadingWhitespace))
            | None => None
            end
        end
  end.

Definition asString (v : JSVal) : string :=
  match v with VString s => s | _ => "" end.

Record SelectionChangeEvent := mkSelectionChangeEvent {
  textEditor : option TextEditor;
  ev_selections0_active : Editor.Position
}.

(** Try to extract the line number from the error stack or message. *)
Definition errorMessage (err : Error) : string :=
  match lineMatch err with
  | Some l => "Line " +:+ l +:+ ": " +:+ message err
  | None => message err
  end.

(** The address that [_loadSmilesModule] imports. *)
Definition importUrl (host : Host) (filePath : string) : string :=
  pathToFileURL host filePath +:+ "?t=" +:+ pretty (Date_now host).

Section Tracker.

Variable host : Host.

Definition _loadSmilesModule (filePath : string) : M LoadResult :=
  (* Check cache first *)
  mtimeMs <- liftRes (statSync_mtimeMs host filePath) ;;
  let cacheKey := cacheKey filePath mtimeMs in
  cache <- gets _smilesModuleCache ;;
  match cache !! cacheKey with
  | Some cached => ret (mkLoadResult (Some cached) VNull)
  | None =>
      tryCatch
        ((* Clear require cache to get fresh module *)
         _ <- liftRes (requireResolve host filePath) ;;
         (* Use dynamic import for ES modules *)
         let url := importUrl host filePath in
         emit (Import url) ;;
         module <- liftRes (dynamicImport host url) ;;
         (* Cache the result *)
         modify (set_smilesModuleCache ∅) ;; emit CacheClear ;;
         cache <- gets _smilesModuleCache ;;
         modify (set_smilesModuleCache (<[cacheKey := module]> cache)) ;;
         emit (CacheSet cacheKey) ;;
         ret (mkLoadResult (Some module) VNull))
        (λ err,
           (* Clear cache on error *)
           modify (set_smilesModuleCache ∅) ;; emit CacheClear ;;
           ret (mkLoadResult None (VString (errorMessage err))))
  end.

Definition fire (info : option LineInfo) : M unit := emit (Fire info).

(** The event of the build-format branch once the module load has
    settled. *)
Definition exportLine (currentLine : nat) (exportName lineText : string)
    (loaded : LoadResult) : option LineInfo :=
  let loadError := load_error loaded in
  if truthy loadError then
    Some (mkLineInfo currentLine (VString exportName) (VString lineText)
            VUndefined VUndefined VUndefined VUndefined loadError)
  else
    match module loaded with
    | None => None
    | Some module =>
        match module !! exportName with
        | None => None
        | Some fragment =>
            if negb (exportTruthy fragment) then None
            (* Check if it has the .smiles property *)
            else if negb (truthy (getProp fragment "smiles")) then None
            else
              Some (mkLineInfo currentLine
                      (VString exportName) (VString lineText)
                      VNull
                      (getProp fragment "smiles")
                      (getProp fragment "molecularWeight")
                      (getProp fragment "formula")
                      VNull)
        end
    end.

(** The build-format half of [_updateLineInfo], from the comment test
    on. *)
Definition updateSmilesJS (docRef currentLine : nat) (lineText : string)
    : M unit :=
  doc <- gets (λ s, documents s docRef) ;;
  (* Skip empty lines and comments *)
  if String.eqb lineText "" || startsWith lineText "//"
     || startsWith lineText "/*"
  then fire None
  else
    (* Find the const declaration at this line *)
    let text := Editor.getText doc in
    match _findConstAtLine text currentLine with
    | None => fire None
    | Some constInfo =>
        let exportName := c_name constInfo in
        (* If export is missing, add it automatically *)
        (if needsExport constInfo then
           match activeTextEditor host with
           | Some editor =>
               if Nat.eqb (document editor) docRef then
                 let insertPos :=
                   Editor.mkPosition currentLine
                     (default 0%nat (constPosition constInfo)) in
                 modify (set_document docRef
                           (Editor.setText doc
                              (Editor.insert text insertPos "export "))) ;;
                 emit (Edit docRef insertPos "export ") ;;
                 emit (Save docRef)
               else ret tt
           | None => ret tt
           end
         else ret tt) ;;
        (* Load the module and get the export *)
        loaded <- _loadSmilesModule (Editor.fileName doc) ;;
        fire (exportLine currentLine exportName lineText loaded)
    end.

(** The event of the DSL branch for the definition found on the
    line: resolve, decode, then the molecular properties. *)
Definition resolvedLine (parseResult : ParseResult) (currentLine : nat)
    (definition : Def) : LineInfo :=
  let expression :=
    match d_tokens definition with
    | Some tokens => _formatTokens tokens
    | None => ""
    end in
  (* Resolve the definition to get the full SELFIES string *)
  let resolved :=
    resolve (engine host) parseResult (d_name definition) false in
  let selfies :=
    match resolved with Ok v => VString v | Throw _ => VNull end in
  let error :=
    match resolved with
    | Ok _ => VNull
    | Throw err => VString (message err)
    end in
  if negb (truthy selfies) then
    mkLineInfo currentLine
      (VString (d_name definition)) (VString expression)
      VUndefined VUndefined VUndefined VUndefined
      (or_else error (VString "Could not resolve definition"))
  else
    (* Decode to SMILES *)
    let decoded := decode (engine host) (asString selfies) in
    let smiles :=
      match decoded with Ok v => VString v | Throw _ => VNull end in
    let error :=
      match decoded with
      | Ok _ => error
      | Throw err => VString (message err)
      end in
    (* Get molecular properties *)
    let '(molecularWeight, formula) :=
      if truthy selfies && negb (truthy error) then
        match getMolecularWeight (engine host) (asString selfies) with
        | Throw _ => (VNull, VNull)
        | Ok w =>
            match getFormula (engine host) (asString selfies) with
            | Throw _ => (VNumber w, VNull)
            | Ok f => (VNumber w, VString f)
            end
        end
      else (VNull, VNull) in
    mkLineInfo currentLine
      (VString (d_name definition)) (VString expression)
      selfies smiles molecularWeight formula error.

(** The DSL half of [_updateLineInfo], from the parse on. *)
Definition updateSelfies (docRef currentLine : nat) (lineText : string)
    : M unit :=
  doc <- gets (λ s, documents s docRef) ;;
  (* Parse the document if not already parsed *)
  cached <- gets _parseResult ;;
  parseResult <-
    match cached with
    | Some parseResult => ret parseResult
    | None =>
        parseResult <-
          liftRes (loadWithImports (engine host) (Editor.getText doc)
                     (Editor.fsPath doc)) ;;
        modify (set_parseResult (Some parseResult)) ;;
        ret parseResult
    end ;;
  (* Skip empty lines and comments *)
  if String.eqb lineText "" || startsWith lineText "#" then fire None
  else
    (* Find the definition on this line *)
    let definitionsArray :=
      match definitions parseResult with
      | Some defs => map snd defs
      | None => []
      end in
    match List.find (λ def, d_line def =? Z.of_nat currentLine + 1)
                    definitionsArray with
    | None => fire None
    | Some definition =>
        fire (Some (resolvedLine parseResult currentLine definition))
    end.

Definition _updateLineInfo : M unit :=
  currentDocument <- gets _currentDocument ;;
  currentLine <- gets _currentLine ;;
  match currentDocument, currentLine with
  | Some docRef, Some currentLine =>
      doc <- gets (λ s, documents s docRef) ;;
      let isSmilesJS := endsWith (Editor.fileName doc) ".smiles.js" in
      tryCatch
        (lineText <- liftRes (Editor.lineAt doc currentLine) ;;
         let lineText := trim lineText in
         if isSmilesJS then updateSmilesJS docRef currentLine lineText
         else updateSelfies docRef currentLine lineText)
        (λ err,
           fire (Some (mkLineInfo currentLine VUndefined VUndefined
                         VUndefined VUndefined VUndefined VUndefined
                         (VString (message err)))))
  | _, _ => ret tt
  end.

(** *** Event handlers *)

Definition _handleSelectionChange (event : SelectionChangeEvent)
    : M unit :=
  match textEditor event with
  | None => ret tt
  | Some editor =>
      doc <- gets (λ s, documents s (document editor)) ;;
      if negb (Editor.isSupportedFile doc) then ret tt
      else
        let position := ev_selections0_active event in
        let lineNumber := Editor.line position in
        currentLine <- gets _currentLine ;;
        if negb (bool_decide (currentLine = Some lineNumber)) then
          modify (set_currentLine (Some lineNumber)) ;;
          _updateLineInfo
        else ret tt
  end.

Definition _handleDocumentChange (docRef : nat) : M unit :=
  doc <- gets (λ s, documents s docRef) ;;
  if negb (Editor.isSupportedFile doc) then ret tt
  else
    (* Reparse the document *)
    modify (set_parseResult None) ;;
    _updateLineInfo.

(** The listener on [onDidChangeTextDocument]. *)
Definition onDidChangeTextDocument (eventDocument : nat) : M unit :=
  currentDocument <- gets _currentDocument ;;
  documents <- gets documents ;;
  match currentDocument with
  | None => ret tt
  | Some cur =>
      let currentUri := Editor.uri (documents cur) in
      if negb (String.eqb currentUri "")
         && String.eqb (Editor.uri (documents eventDocument)) currentUri
      then _handleDocumentChange eventDocument
      else ret tt
  end.

(** The listener on [onDidChangeActiveTextEditor]. *)
Definition onDidChangeActiveTextEditor (editor : option TextEditor)
    : M unit :=
  match editor with
  | None => ret tt
  | Some editor =>
      doc <- gets (λ s, documents s (document editor)) ;;
      if Editor.isSupportedFile doc then
        (* Check if document changed before updating *)
        currentDocument <- gets _currentDocument ;;
        let documentChanged :=
          negb (bool_decide (currentDocument = Some (document editor))) in
        (if documentChanged then
           modify (set_parseResult None) ;;
           modify (set_currentDocument (Some (document editor)))
         else ret tt) ;;
        (* Always update on editor change, even if line number is the
           same *)
        let position := selections0_active editor in
        modify (set_currentLine (Some (Editor.line position))) ;;
        _updateLineInfo
      else ret tt
  end.

(** The end of the constructor: initialize with the current editor. *)
Definition initialize : M unit :=
  match activeTextEditor host with
  | None => ret tt
  | Some editor =>
      doc <- gets (λ s, documents s (document editor)) ;;
      if Editor.isSupportedFile doc then
        modify (set_currentDocument (Some (document editor))) ;;
        _handleSelectionChange
          (mkSelectionChangeEvent (Some editor) (selections0_active editor))
      else ret tt
  end.

End Tracker.

(** The fields as the constructor sets them. *)
Definition newTracker (documents : nat → Editor.TextDocument) : Store :=
  mkStore None None None ∅ documents [].

End LineTracker.

(** ** Refactor generator ([src/refactorMolecule.js]) *)
Module Refactor.
Import Regex.
Import LineTracker (Export, EPrim, EObject, Exports, exportTruthy, getProp).

Record ExportInfo := mkExportInfo {
  e_name : string;
  needsExport : bool;
  constPosition : option nat
}.

Definition findExportAtLine (text : string) (lineNumber : nat)
    : option ExportInfo :=
  let lines := splitLines text in
  match lines !! lineNumber with
  | None => None
  | Some line =>
      if String.eqb line "" then None
      else
        (* Match: export const NAME = ... *)
        match execFirst exportConstPattern line with
        | Some exportMatch1 => Some (mkExportInfo exportMatch1 false None)
        | None =>
            (* Match: const NAME = ... (without export) *)
            match constPattern line with
            | Some (constMatch1, constMatch2) =>
                let leadingWhitespace := String.length constMatch1 in
                Some (mkExportInfo constMatch2 true (Some leadingWhitespace))
            | None => None
            end
        end
  end.

Definition extractUsedConstructors (code : string) : list string :=
  let constructors := ["Ring"; "Linear"; "FusedRing"; "Molecule"] in
  List.filter (λ c, includes code (c +:+ "(")) constructors.

(** The loop of [findImportInsertPosition]; returning is the [break]. *)
Fixpoint lastImport (lines : list string) (i : nat) (lastImportLine : Z)
    : Z :=
  match lines with
  | [] => lastImportLine
  | l :: rest =>
      let line := trim l in
      if startsWith line "import " then lastImport rest (S i) (Z.of_nat i)
      else if negb (String.eqb line "") && negb (startsWith line "//")
              && negb (startsWith line "/*") && (0 <=? lastImportLine)
      then lastImportLine
      else lastImport rest (S i) lastImportLine
  end.

Definition findImportInsertPosition (text : string) : nat :=
  let lines := splitLines text in
  Z.to_nat (lastImport lines 0 (-1) + 1).

(** [/import\s*\{([^}]+)\}\s*from\s*['Q]smiles-js['Q]/] at the current
    position: length of [match[0]] and [match[1]]. *)
Definition importPattern (s : string) : option (nat * string) :=
  match stripPrefix "import" s with
  | None => None
  | Some r1 =>
      match stripPrefix "{" (span isSpace r1).2 with
      | None => None
      | Some r2 =>
          let '(names, r3) := span (λ c, negb (Ascii.eqb c "}"%char)) r2 in
          if String.eqb names "" then None
          else
            match stripPrefix "}" r3 with
            | None => None
            | Some r4 =>
                match stripPrefix "from" (span isSpace r4).2 with
                | None => None
                | Some r5 =>
                    match (span isSpace r5).2 with
                    | String q1 r6 =>
                        match stripPrefix "smiles-js" r6 with
                        | Some (String q2 r7) =>
                            if isQuote q1 && isQuote q2 then
                              Some ((String.length s - String.length r7)%nat,
                                    names)
                            else None
                        | _ => None
                        end
                    | EmptyString => None
                    end
                end
            end
      end
  end.

Definition getExistingImports (text : string) : gset string :=
  foldl (λ existing '(_, match1),
           let imports := map trim (split ","%char match1) in
           foldl (λ existing imp, existing ∪ {[imp]}) existing imports)
        ∅ (execAll importPattern text 0 0).

Definition generateImportStatement (needed : list string)
    (existing : gset string) : option string :=
  let missing := List.filter (λ c, negb (bool_decide (c ∈ existing))) needed in
  if (length missing =? 0)%nat then None
  else Some ("import { " +:+ join ", " missing +:+ " } from 'smiles-js';"
             +:+ Editor.nl).



Record TextEditor := mkTextEditor {
  document : Editor.TextDocument;
  selection_active : Editor.Position
}.

Inductive Effect :=
| ShowErrorMessage (msg : string)
| ShowInformationMessage (msg : string)
| Edit (inserts : list (Editor.Position * string))
| Save.










End Refactor.

(** ** Regular expressions that backtrack *)

Module Backtrack.

(** The patterns of this module are written in continuation style: a
    piece of a pattern takes the matcher [k] of what follows it and the
    text at the current position. A greedy quantifier tries [k] after the
    longest run first, then after shorter ones, as the ECMAScript matcher
    does. *)

(** [.] *)
Definition isDot (c : ascii) : bool := negb (isLineTerminator c).

(** [[a-z]] *)
Definition isLower (c : ascii) : bool :=
  let n := nat_of_ascii c in (97 <=? n)%nat && (n <=? 122)%nat.

(** A literal. *)
Definition lit {A} (l : string) (k : string → option A) (s : string)
    : option A :=
  match stripPrefix l s with
  | Some r => k r
  | None => None
  end.

(** One character of the class [p]. *)
Definition chr {A} (p : ascii → bool) (k : string → option A) (s : string)
    : option A :=
  match s with
  | String c r => if p c then k r else None
  | EmptyString => None
  end.

(** [p*] *)
Fixpoint starG {A} (p : ascii → bool) (k : string → option A) (s : string)
    : option A :=
  match s with
  | String c r =>
      if p c then
        match starG p k r with
        | Some a => Some a
        | None => k s
        end
      else k s
  | EmptyString => k s
  end.

(** [p+] *)
Definition plusG {A} (p : ascii → bool) (k : string → option A) (s : string)
    : option A :=
  match s with
  | String c r => if p c then starG p k r else None
  | EmptyString => None
  end.

(** [p*] in a capture group: the continuation also gets the captured
    text. *)
Fixpoint starC {A} (p : ascii → bool) (k : string → string → option A)
    (s : string) : option A :=
  match s with
  | String c r =>
      if p c then
        match starC p (λ taken, k (String c taken)) r with
        | Some a => Some a
        | None => k EmptyString s
        end
      else k EmptyString s
  | EmptyString => k EmptyString s
  end.

(** [p+] in a capture group. *)
Definition plusC {A} (p : ascii → bool) (k : string → string → option A)
    (s : string) : option A :=
  match s with
  | String c r => if p c then starC p (λ taken, k (String c taken)) r else None
  | EmptyString => None
  end.

(** [match.index] of [s.match(re)] without the [g] flag: the position of
    the leftmost match, counted from [index]. *)
Fixpoint matchIndex {A} (matchAt : string → option A) (s : string)
    (index : nat) : option nat :=
  match matchAt s with
  | Some _ => Some index
  | None =>
      match s with
      | String _ r => matchIndex matchAt r (S index)
      | EmptyString => None
      end
  end.

End Backtrack.

(** ** [src/diagnostics.js]: the lint pass of build-format files *)

Module Lint.
Import Regex Backtrack Diagnostics.

(** [/import\s+.*\s+from\s+['Q](.+)['Q]/] at the current position:
    [match[1]]. *)
Definition importFromPattern : string → option string :=
  lit "import"
    (plusG isSpace
       (starG isDot
          (plusG isSpace
             (lit "from"
                (plusG isSpace
                   (chr isQuote
                      (plusC isDot
                         (λ importPath,
                            chr isQuote (λ _, Some importPath))))))))).

(** [/Ring\(['Q][a-z]['Q],\s*\d+\)/] at the current position. *)
Definition oldRingPattern : string → option unit :=
  lit "Ring("
    (chr isQuote
       (chr isLower
          (chr isQuote
             (lit ","
                (starG isSpace
                   (plusG isDigit (lit ")" (λ _, Some tt)))))))).

(** [vscode.DiagnosticRelatedInformation], with the uri of its location. *)
Record RelatedInformation := mkRelatedInformation {
  ri_uri : string;
  ri_range : Range;
  ri_message : string
}.

(** A diagnostic of the lint pass: the fields that every diagnostic has,
    and [relatedInformation] when it is set. *)
Record LintDiagnostic := mkLintDiagnostic {
  diagnostic : Diagnostic;
  relatedInformation : option RelatedInformation
}.

(** The import checks of the loop body, for line [i]. *)
Definition importChecks (i : nat) (line : string) : list LintDiagnostic :=
  match execFirst importFromPattern line with
  | None => []
  | Some importPath =>
      (* Check for old API usage *)
      (if includes importPath "/fragment" then
         let range :=
           mkRange (mkPosition (Z.of_nat i) 0)
                   (mkPosition (Z.of_nat i)
                      (Z.of_nat (String.length line))) in
         [mkLintDiagnostic
            (mkDiagnostic range
               ("Deprecated import path: '" +:+ importPath
                +:+ "'. Use './index.js' or 'smiles-js' instead. "
                +:+ "The Fragment API has been updated.")
               Error "smiles-js" (VString "deprecated-import"))
            (Some (mkRelatedInformation "" range
                     ("Replace with: import { parse, Ring, Linear, "
                      +:+ "Fragment } from '../src/index.js';")))]
       else [])
      ++
      (* Check for attachAt usage (old API) *)
      (if includes line ".attachAt(" then
         match matchIndex (stripPrefix ".attachAt(") line 0 with
         | Some col =>
             [mkLintDiagnostic
                (mkDiagnostic
                   (mkRange (mkPosition (Z.of_nat i) (Z.of_nat col))
                            (mkPosition (Z.of_nat i) (Z.of_nat col + 9)))
                   ("Method .attachAt() has been replaced with "
                    +:+ ".attach() in the new API")
                   Error "smiles-js" (VString "deprecated-method"))
                None]
         | None => []
         end
       else [])
  end.

(** The check for the old Ring constructor, for line [i]. *)
Definition ringCheck (i : nat) (line : string) : list LintDiagnostic :=
  match execFirst oldRingPattern line with
  | None => []
  | Some _ =>
      match matchIndex (stripPrefix "Ring(") line 0 with
      | Some col =>
          [mkLintDiagnostic
             (mkDiagnostic
                (mkRange (mkPosition (Z.of_nat i) (Z.of_nat col))
                         (mkPosition (Z.of_nat i)
                            (Z.of_nat (String.length line))))
                ("Old Ring API: Use Ring({ atoms: 'c', size: 6 }) "
                 +:+ "instead of Ring('c', 6)")
                Error "smiles-js" (VString "deprecated-api"))
             None]
      | None => []
      end
  end.

(** The [for] loop over the lines, from line [i] on. *)
Fixpoint lintLines (lines : list string) (i : nat) : list LintDiagnostic :=
  match lines with
  | [] => []
  | line :: rest =>
      importChecks i line ++ ringCheck i line ++ lintLines rest (S i)
  end.

Definition validateJavaScriptImports (text : string) : list LintDiagnostic :=
  let lines := splitLines text in
  lintLines lines 0.

(** What [updateDiagnostics] publishes for a document, with the lint pass
    above as its [validateJavaScriptImports]. *)
Definition published (loadWithImports : string → string → Res ParseResult)
    (document : Editor.TextDocument) : option (list Diagnostic) :=
  updateDiagnostics loadWithImports
    (λ text, map diagnostic (validateJavaScriptImports text)) document.

End Lint.

(** ** [src/roundtripDiagnostics.js]: diagnostics and quick fixes *)

Module RoundTripDiagnostics.
Import Regex Backtrack RoundTrip Diagnostics.

(** The result of [validateRoundTrip] of smiles-js: [perfect] and
    [stabilizes] as the code tests them, [firstRoundTrip] a string. *)
Record RoundTripResult := mkRoundTripResult {
  perfect : bool;
  stabilizes : bool;
  firstRoundTrip : string
}.

Inductive DiagnosticTag := Unnecessary | Deprecated.

Record RoundTripDiagnostic := mkRoundTripDiagnostic {
  diagnostic : Diagnostic;
  tags : list DiagnosticTag;
  relatedInformation : option Lint.RelatedInformation
}.

(** [s] between double quotes. *)
Definition inQuotes (s : string) : string :=
  String dquote s +:+ String dquote EmptyString.

Section CreateRoundTripDiagnostics.

(** [validateRoundTrip] of smiles-js. *)
Variable validateRoundTrip : string → Res RoundTripResult.

(** The body of [smilesList.forEach]. *)
Definition checkEntry (uri : string) (smilesInfo : Extracted)
    : list RoundTripDiagnostic :=
  let smiles := RoundTrip.smiles smilesInfo in
  let lineNum := Z.of_nat (RoundTrip.line smilesInfo) in
  match validateRoundTrip smiles with
  | Throw _ =>
      (* If parsing fails, don't add round-trip diagnostic *)
      []
  | Ok result =>
      if negb (perfect result) then
        let range :=
          mkRange (mkPosition lineNum (RoundTrip.start smilesInfo))
                  (mkPosition lineNum (RoundTrip.end_ smilesInfo)) in
        if stabilizes result then
          (* Warning: SMILES stabilizes on second parse *)
          [mkRoundTripDiagnostic
             (mkDiagnostic range
                ("SMILES round-trip: Stabilizes to "
                 +:+ inQuotes (firstRoundTrip result) +:+ " ("
                 +:+ pretty (Z.of_nat (String.length smiles)
                             - Z.of_nat (String.length
                                           (firstRoundTrip result)))
                 +:+ " char difference)")
                Warning "smiles-js" (VString "smiles-stabilizes"))
             [Unnecessary]
             (Some (Lint.mkRelatedInformation uri range
                      ("Use normalized form: " +:+ firstRoundTrip result)))]
        else
          (* Error: SMILES doesn't stabilize *)
          [mkRoundTripDiagnostic
             (mkDiagnostic range
                ("SMILES round-trip: Unstable after 2 parses. "
                 +:+ "Please file a bug report.")
                Error "smiles-js" (VString "smiles-unstable"))
             [] None]
      else []
  end.

(** The [for] loop over the lines, from line [lineNumber] on. *)
Fixpoint checkLines (uri : string) (lines : list string) (lineNumber : nat)
    : list RoundTripDiagnostic :=
  match lines with
  | [] => []
  | line :: rest =>
      (* Extract SMILES strings from this line *)
      let smilesList := extractSMILESFromLine line lineNumber in
      concat (map (checkEntry uri) smilesList)
      ++ checkLines uri rest (S lineNumber)
  end.

Definition createRoundTripDiagnostics (document : Editor.TextDocument)
    : list RoundTripDiagnostic :=
  (* Only check .smiles.js files and .selfies files *)
  let isSmilesJS := endsWith (Editor.fileName document) ".smiles.js" in
  let isSelfies := String.eqb (Editor.languageId document) "selfies" in
  if negb isSmilesJS && negb isSelfies then []
  else
    let text := Editor.getText document in
    let lines := splitLines text in
    checkLines (Editor.uri document) lines 0.

End CreateRoundTripDiagnostics.

(** [/Stabilizes to Q([^Q]+)Q/] at the current position: [match[1]]. *)
Definition stabilizesPattern : string → option string :=
  lit ("Stabilizes to " +:+ String dquote EmptyString)
    (plusC (λ c, negb (Ascii.eqb c dquote))
       (λ normalized, chr (λ c, Ascii.eqb c dquote) (λ _, Some normalized))).

(** A quick fix: its title, the one replacement of its workspace edit,
    and the diagnostic it belongs to. *)
Record CodeAction := mkCodeAction {
  title : string;
  edit_uri : string;
  edit_range : Range;
  edit_newText : string;
  fixes : list Diagnostic
}.

(** The body of [context.diagnostics.forEach]. *)
Definition quickFix (uri : string) (diagnostic : Diagnostic)
    : list CodeAction :=
  if String.eqb (source diagnostic) "smiles-js"
     && match code diagnostic with
        | VString c => String.eqb c "smiles-stabilizes"
        | _ => false
        end
  then
    (* Extract the normalized SMILES from the diagnostic message *)
    match execFirst stabilizesPattern (message diagnostic) with
    | Some normalized =>
        [mkCodeAction ("Replace with normalized SMILES: " +:+ normalized)
           uri (range diagnostic) normalized [diagnostic]]
    | None => []
    end
  else [].

(** [provideCodeActions(document, range, context)], given
    [context.diagnostics]. *)
Definition provideCodeActions (document : Editor.TextDocument)
    (diagnostics : list Diagnostic) : list CodeAction :=
  concat (map (quickFix (Editor.uri document)) diagnostics).

End RoundTripDiagnostics.

(** ** [src/rdkitRenderer.js] *)

Module Renderer.

(** A molecule object of RDKit. [mol_id] tells the objects apart;
    [mol.delete()] does not throw. *)
Record Mol := mkMol {
  mol_id : nat;
  is_valid : Res bool;
  get_svg_with_highlights : string → Res string
}.

(** The RDKit module: [get_mol] returns a molecule or [null]. *)
Record RDKit := mkRDKit {
  get_mol : string → Res (option Mol)
}.

Inductive Effect :=
| InitModule
| GetMol (smiles : string)
| Delete (mol : nat).

(** The module variable [RDKitModule] and what has been done so far,
    oldest first. *)
Record State := mkState {
  RDKitModule : option RDKit;
  effects : list Effect
}.

Definition M (A : Type) : Type := State → Res A * State.

Definition ret {A} (a : A) : M A := λ s, (Ok a, s).

Definition bind {A B} (m : M A) (k : A → M B) : M B :=
  λ s, match m s with
       | (Ok a, s') => k a s'
       | (Throw err, s') => (Throw err, s')
       end.

Definition throw {A} (err : Error) : M A := λ s, (Throw err, s).

Definition emit (e : Effect) : M unit :=
  λ s, (Ok tt, mkState (RDKitModule s) (effects s ++ [e])).

Definition liftRes {A} (r : Res A) : M A := λ s, (r, s).

(** [try { body } catch (err) { handler } finally { final }], for a
    [finally] block that completes normally. *)
Definition tryCatchFinally {A} (body : M A) (handler : Error → M A)
    (final : M unit) : M A :=
  λ s, let '(r, s1) :=
         match body s with
         | (Ok a, s1) => (Ok a, s1)
         | (Throw err, s1) => handler err s1
         end in
       (r, (final s1).2).

(** The rendering options; a field that is [undefined] is [None]. *)
Record Options := mkOptions {
  o_width : option Z;
  o_height : option Z;
  o_addStereoAnnotation : option bool
}.

(** A property name of a JSON text. *)
Definition key (s : string) : string :=
  String Regex.dquote s +:+ String Regex.dquote EmptyString.

(** [JSON.stringify({ width, height, addStereoAnnotation })] *)
Definition stringify (width height : Z) (addStereoAnnotation : bool)
    : string :=
  "{" +:+ key "width" +:+ ":" +:+ pretty width +:+ ","
  +:+ key "height" +:+ ":" +:+ pretty height +:+ ","
  +:+ key "addStereoAnnotation" +:+ ":"
  +:+ (if addStereoAnnotation then "true" else "false") +:+ "}".

Section Renderer.

(** [initRDKitModule()] of the RDKit package. *)
Variable initRDKitModule : Res RDKit.

Definition initRDKit : M RDKit :=
  λ s, match RDKitModule s with
       | Some rdkit => (Ok rdkit, s)
       | None =>
           match initRDKitModule with
           | Ok rdkit =>
               (Ok rdkit, mkState (Some rdkit) (effects s ++ [InitModule]))
           | Throw err =>
               (Throw err, mkState None (effects s ++ [InitModule]))
           end
       end.

(** The [finally] block of both functions, for the value of [mol] that
    the [try] block has left. *)
Definition cleanUp (mol : option Mol) : M unit :=
  match mol with
  | Some mol => emit (Delete (mol_id mol))
  | None => ret tt
  end.

(** The variable [mol] when the [try] block is left: assigned when
    [get_mol] has returned. *)
Definition molAfter (rdkit : RDKit) (smiles : string) : option Mol :=
  match get_mol rdkit smiles with
  | Ok mol => mol
  | Throw _ => None
  end.

Definition generateSVG (smiles : string) (options : Options) : M string :=
  bind initRDKit (λ rdkit,
    let width := default 500 (o_width options) in
    let height := default 300 (o_height options) in
    let addStereoAnnotation :=
      default true (o_addStereoAnnotation options) in
    tryCatchFinally
      ((* Create molecule from SMILES *)
       bind (emit (GetMol smiles)) (λ _,
       bind (liftRes (get_mol rdkit smiles)) (λ mol,
       match mol with
       | None =>
           throw (mkError ("Invalid molecule for SMILES: " +:+ smiles) None)
       | Some mol =>
           bind (liftRes (is_valid mol)) (λ valid,
           if valid then
             (* Generate SVG *)
             liftRes (get_svg_with_highlights mol
                        (stringify width height addStereoAnnotation))
           else
             throw (mkError ("Invalid molecule for SMILES: " +:+ smiles)
                      None))
       end)))
      (λ err,
         throw (mkError ("Failed to generate SVG for " +:+ key smiles
                         +:+ ": " +:+ message err) None))
      (* Clean up molecule object *)
      (cleanUp (molAfter rdkit smiles))).

(** [isValidSMILES(smiles)]: [mol && mol.is_valid()] is [null] without a
    molecule. *)
Definition isValidSMILES (smiles : string) : M JSVal :=
  bind initRDKit (λ rdkit,
    tryCatchFinally
      (bind (emit (GetMol smiles)) (λ _,
       bind (liftRes (get_mol rdkit smiles)) (λ mol,
       match mol with
       | None => ret VNull
       | Some mol =>
           bind (liftRes (is_valid mol)) (λ valid, ret (VBool valid))
       end)))
      (λ _, ret (VBool false))
      (cleanUp (molAfter rdkit smiles))).

End Renderer.

End Renderer.
(** * Specification vocabulary and sample inputs *)

Module DiagnosticsSpec.
Import Diagnostics.







Definition sampleDocument : Editor.TextDocument :=
  Editor.mkTextDocument "file:///m.selfies" "/m.selfies" "/m.selfies"
    "selfies" "[a] = [C]".

Definition sampleResult : ParseResult :=
  mkParseResult
    (Some [mkReported (Some 3) (Some 1) None (VString "redefinition")
             VUndefined "Duplicate definition of 'a'" VUndefined])
    (Some [mkReported (Some 2) (Some 5) (Some 9) (VString "info")
             VUndefined "note" VUndefined;
           mkReported (Some 1) (Some 7) None VUndefined VUndefined
             "Unusual valence" VUndefined]).


End DiagnosticsSpec.

Module RoundTripSpec.
Import RoundTrip.






End RoundTripSpec.

Module CacheSpec.
Import LineTracker.

(** The store after a load: a new cache and further effects. *)
Definition after (s : Store) (cache : gmap string Exports)
    (further : list Effect) : Store :=
  mkStore (_currentLine s) (_currentDocument s) (_parseResult s) cache
    (documents s) (effects s ++ further).

(** Some whole-cache clear comes before some import in the effects. *)
Definition evicts_before_import (effects : list Effect) : Prop :=
  ∃ i j url,
    effects !! i = Some CacheClear ∧ effects !! j = Some (Import url)
    ∧ (i < j)%nat.

(** A load request: the world it runs in and the path it asks for. *)
Definition Request : Type := Host * string.

(** Loads one after the other, each running to completion. *)
Fixpoint runLoads (requests : list Request) (s : Store) : Store :=
  match requests with
  | [] => s
  | (host, filePath) :: rest =>
      runLoads rest (_loadSmilesModule host filePath s).2
  end.

(** In the world [host] the file has modification time [mtimeMs] and
    importing it gives [module]. *)
Definition captured (host : Host) (filePath : string) (mtimeMs : N)
    (module : Exports) : Prop :=
  statSync_mtimeMs host filePath = Ok mtimeMs
  ∧ dynamicImport host (importUrl host filePath) = Ok module.

(** Every cached entry was captured by a request of [requests], under
    the key of the modification time the file had then. *)
Definition entries_captured (requests : list Request)
    (cache : gmap string Exports) : Prop :=
  ∀ key module, cache !! key = Some module →
    ∃ host filePath mtimeMs,
      In (host, filePath) requests
      ∧ key = cacheKey filePath mtimeMs
      ∧ captured host filePath mtimeMs module.

(** The invariant of the module cache along a run of loads. *)
Definition cache_inv (requests : list Request) (s : Store) : Prop :=
  (size (_smilesModuleCache s) ≤ 1)%nat
  ∧ entries_captured requests (_smilesModuleCache s).

Definition noColon (s : string) : bool :=
  negb (Regex.testClass (λ c, Ascii.eqb c ":"%char) s).

Definition sampleEngine : Engine :=
  mkEngine
    (λ _ _,
       Ok (mkParseResult
             (Some [("methyl", mkDef "methyl" 5 (Some [TString "[C]"]));
                    ("ethyl", mkDef "ethyl" 6
                                (Some [TString "[C]"; TRepeatCall "[C]" 1]));
                    ("propyl", mkDef "propyl" 7 None);
                    ("hydroxyl", mkDef "hydroxyl" 10 (Some [TString "[O]"]));
                    ("amino", mkDef "amino" 11 (Some [TString "[N]"]))])))
    (λ _ name _,
       if String.eqb name "propyl"
       then Throw (mkError "Undefined reference" None)
       else Ok ("[" +:+ name +:+ "]"))
    (λ s, if String.eqb s "[ethyl]"
          then Throw (mkError "Cannot decode" None) else Ok "C")
    (λ s, if String.eqb s "[amino]"
          then Throw (mkError "Unknown atom" None) else Ok 16)
    (λ _, Ok "CH4").

Definition water : Exports :=
  {[ "water" := EObject {[ "smiles" := VString "O";
                           "formula" := VString "H2O" ]} ;
     "blank" := EObject {[ "smiles" := VString "" ]} ;
     "limit" := EPrim (VNumber 3) ]}.

Definition sampleHost (mtimeMs : N) (outcome : Res Exports) : Host :=
  mkHost sampleEngine (λ _, Ok mtimeMs) (λ p, Ok p) (λ p, "file://" +:+ p)
    42 (λ _, outcome) (Some (mkTextEditor 0 (Editor.mkPosition 1 0))).

Definition sampleDocuments (i : nat) : Editor.TextDocument :=
  match i with
  | 0%nat =>
      Editor.mkTextDocument "file:///m.smiles.js" "/m.smiles.js"
        "/m.smiles.js" "javascript"
        ("// molecules" +:+ Editor.nl
         +:+ "export const water = Fragment('O')" +:+ Editor.nl
         +:+ "export const blank = Fragment('')" +:+ Editor.nl
         +:+ "const limit = 3")
  | _ =>
      Editor.mkTextDocument "file:///f.selfies" "/f.selfies" "/f.selfies"
        "selfies"
        ("# fragments" +:+ Editor.nl +:+ Editor.nl +:+ Editor.nl
         +:+ Editor.nl
         +:+ "[methyl] = [C]" +:+ Editor.nl
         +:+ "[ethyl] = [C]repeat([C], 1)" +:+ Editor.nl
         +:+ "[propyl] = [missing]" +:+ Editor.nl
         +:+ "# groups" +:+ Editor.nl +:+ Editor.nl
         +:+ "[hydroxyl] = [O]" +:+ Editor.nl
         +:+ "[amino] = [N]")
  end.

(** A tracker that has loaded [/old.smiles.js] before. *)
Definition warmStore : Store :=
  mkStore None None None {[ cacheKey "/old.smiles.js" 7 := water ]}
    sampleDocuments [].

End CacheSpec.

Module TrackerSpec.
Import LineTracker CacheSpec.

(** The events fired so far, oldest first. *)
Definition fired (s : Store) : list (option LineInfo) :=
  omap (λ e, match e with Fire info => Some info | _ => None end)
       (effects s).

(** The parse result a resolve works with: the cached one, or a fresh
    parse of the document. *)
Definition parseOf (host : Host) (s : Store) (doc : Editor.TextDocument)
    : Res ParseResult :=
  match _parseResult s with
  | Some parseResult => Ok parseResult
  | None =>
      loadWithImports (engine host) (Editor.getText doc) (Editor.fsPath doc)
  end.

(** The definitions of a parse result, in the order of the map. *)
Definition definitionValues (parseResult : ParseResult) : list Def :=
  match definitions parseResult with
  | Some defs => map snd defs
  | None => []
  end.

(** A line that is neither blank nor a [#] comment. *)
Definition isCodeLine (raw : string) : bool :=
  negb (String.eqb (trim raw) "" || startsWith (trim raw) "#").

(** A line of a build-format file that is neither blank nor a comment. *)
Definition isStatementLine (raw : string) : bool :=
  negb (String.eqb (trim raw) "" || startsWith (trim raw) "//"
        || startsWith (trim raw) "/*").

(** The tracker is attached to the DSL document [d] with the cursor on
    line [L], whose text is [raw]; [parseResult] is its parse. *)
Record SelfiesCursor (host : Host) (s : Store) (d L : nat) (raw : string)
    (parseResult : ParseResult) : Prop := {
  sc_document : _currentDocument s = Some d;
  sc_line : _currentLine s = Some L;
  sc_kind : endsWith (Editor.fileName (documents s d)) ".smiles.js" = false;
  sc_text : Editor.lineAt (documents s d) L = Ok raw;
  sc_parse : parseOf host s (documents s d) = Ok parseResult
}.

(** The tracker is attached to the build-format document [d] with the
    cursor on line [L], whose text is [raw]. *)
Record SmilesJSCursor (s : Store) (d L : nat) (raw : string) : Prop := {
  jc_document : _currentDocument s = Some d;
  jc_line : _currentLine s = Some L;
  jc_kind : endsWith (Editor.fileName (documents s d)) ".smiles.js" = true;
  jc_text : Editor.lineAt (documents s d) L = Ok raw
}.

(** The expression string of a definition. *)
Definition expressionOf (definition : Def) : JSVal :=
  VString match d_tokens definition with
          | Some tokens => _formatTokens tokens
          | None => ""
          end.

(** A stage of the DSL pipeline that is reached for [definition] and
    throws [err]. *)
Definition stage_throws (host : Host) (parseResult : ParseResult)
    (definition : Def) (err : Error) : Prop :=
  let e := engine host in
  resolve e parseResult (d_name definition) false = Throw err
  ∨ ∃ v, resolve e parseResult (d_name definition) false = Ok v
         ∧ v ≠ ""
         ∧ (decode e v = Throw err
            ∨ ∃ derived, decode e v = Ok derived
                ∧ (getMolecularWeight e v = Throw err
                   ∨ ∃ w, getMolecularWeight e v = Ok w
                          ∧ getFormula e v = Throw err)).

(** The stated error handling: the message of a throwing stage is in
    the error field. *)
Definition carries_stage_error (host : Host) (parseResult : ParseResult)
    (definition : Def) (info : LineInfo) : Prop :=
  ∀ err, stage_throws host parseResult definition err →
         error info = VString (message err).

(** The store once the missing export marker of the declaration on
    line [L] of document [d] has been inserted and the document saved. *)
Definition afterAutoExport (host : Host) (s : Store) (d L : nat)
    (constInfo : ConstInfo) : Store :=
  if needsExport constInfo then
    match activeTextEditor host with
    | Some editor =>
        if Nat.eqb (document editor) d then
          let insertPos :=
            Editor.mkPosition L (default 0%nat (constPosition constInfo)) in
          let doc := documents s d in
          add_effect (Save d)
            (add_effect (Edit d insertPos "export ")
               (set_document d
                  (Editor.setText doc
                     (Editor.insert (Editor.getText doc) insertPos
                        "export ")) s))
        else s
    | None => s
    end
  else s.

(** The event fired when the body of [_updateLineInfo] throws. *)
Definition errorLine (L : nat) (err : Error) : LineInfo :=
  mkLineInfo L VUndefined VUndefined VUndefined VUndefined VUndefined
    VUndefined (VString (message err)).

(** One event more has been fired in [s'] than in [s]. *)
Definition resolved (s s' : Store) : Prop :=
  ∃ info, fired s' = fired s ++ [info].

(** A computation that fires nothing. *)
Definition quiet {A} (m : M A) : Prop :=
  ∀ s, fired (m s).2 = fired s.

(** A computation that fires exactly one event, or throws having fired
    nothing. *)
Definition once (m : M unit) : Prop :=
  ∀ s, match m s with
       | (Ok _, s') => resolved s s'
       | (Throw _, s') => fired s' = fired s
       end.

(** A store attached to document [d] at line [L]. *)
Definition attachedStore (d L : nat) : Store :=
  mkStore (Some L) (Some d) None ∅ sampleDocuments [].

Definition amino : Def := mkDef "amino" 11 (Some [TString "[N]"]).




Definition sampleParse : ParseResult :=
  mkParseResult
    (Some [("methyl", mkDef "methyl" 5 (Some [TString "[C]"]));
           ("ethyl", mkDef "ethyl" 6
                       (Some [TString "[C]"; TRepeatCall "[C]" 1]));
           ("propyl", mkDef "propyl" 7 None);
           ("hydroxyl", mkDef "hydroxyl" 10 (Some [TString "[O]"]));
           ("amino", mkDef "amino" 11 (Some [TString "[N]"]))]).

(** Unfolds the monad operations, leaving the store operations as they
    are. *)
Ltac step :=
  cbv beta iota zeta delta
    [bind tryCatch liftRes gets modify emit ret fire].

End TrackerSpec.

Module RefactorSpec.
Import Refactor.


(** Where the export marker of a declaration goes. *)
Definition markerPosition (lineNumber : nat) (exportInfo : ExportInfo)
    : Editor.Position :=
  Editor.mkPosition lineNumber (default 0%nat (constPosition exportInfo)).






Definition sampleText : string :=
  "import { Fragment } from 'smiles-js';" +:+ Editor.nl
  +:+ "const water = Fragment('O')".


End RefactorSpec.

(** * Further vocabulary *)

Module StringSpec.

(** Every character of [s] satisfies [p]. *)
Fixpoint allChars (p : ascii → bool) (s : string) : bool :=
  match s with
  | EmptyString => true
  | String c r => p c && allChars p r
  end.

(** [s] has no line feed. *)
Definition oneLine (s : string) : bool :=
  allChars (λ c, negb (Ascii.eqb c "010"%char)) s.

End StringSpec.

Module TrackerMoreSpec.
Import LineTracker CacheSpec TrackerSpec.

(** The cursor state of the tracker. *)
Definition cursor (s : Store) : option nat * option nat :=
  (_currentDocument s, _currentLine s).

(** A computation that leaves the cursor state as it is. *)
Definition keeps {A} (m : M A) : Prop :=
  ∀ s, cursor (m s).2 = cursor s.

(** A computation that leaves the cached parse as it is. *)
Definition keepsParse {A} (m : M A) : Prop :=
  ∀ s, _parseResult (m s).2 = _parseResult s.

(** The event of a DSL resolve on line [L] with text [raw], given the
    parse it works with. *)
Definition selfiesEvent (host : Host) (parseResult : ParseResult) (L : nat)
    (raw : string) : option LineInfo :=
  if isCodeLine raw then
    match List.find (λ def, d_line def =? Z.of_nat L + 1)
                    (definitionValues parseResult) with
    | Some definition => Some (resolvedLine host parseResult L definition)
    | None => None
    end
  else None.

(** A parse that differs from the sample one: the name on line 5. *)
Definition editedParse : ParseResult :=
  mkParseResult
    (Some [("methane", mkDef "methane" 5 (Some [TString "[C]"]))]).

(** The sample host with another parse result and another import. *)
Definition hostWith (parseResult : ParseResult) (mtimeMs : N)
    (outcome : Res Exports) : Host :=
  mkHost
    (mkEngine (λ _ _, Ok parseResult) (resolve sampleEngine)
       (decode sampleEngine) (getMolecularWeight sampleEngine)
       (getFormula sampleEngine))
    (λ _, Ok mtimeMs) (λ p, Ok p) (λ p, "file://" +:+ p) 42 (λ _, outcome)
    (Some (mkTextEditor 0 (Editor.mkPosition 1 0))).

(** A tracker attached to the sample DSL document with a cached parse. *)
Definition parsedStore (L : nat) : Store :=
  mkStore (Some L) (Some 1%nat) (Some sampleParse) ∅ sampleDocuments [].

(** [t] begins with a colon, the digits [ds], a colon and a digit. *)
Definition lineColumn (t ds : string) : Prop :=
  ∃ d post,
    t = ":" +:+ ds +:+ ":" +:+ String d post
    ∧ ds ≠ "" ∧ StringSpec.allChars isDigit ds = true ∧ isDigit d = true.

(** No place of [text] begins with a line and a column. *)
Definition noLineColumn (text : string) : Prop :=
  ∀ j ds, ¬ lineColumn (drop j text) ds.

(** The first place of [text] that begins with a line and a column has
    the line [ds]. *)
Definition firstLineColumn (text ds : string) : Prop :=
  ∃ pre t,
    text = pre +:+ t ∧ lineColumn t ds
    ∧ ∀ j ds', (j < String.length pre)%nat → ¬ lineColumn (drop j text) ds'.

(** The line that an exception tells: the first one of its stack, or
    else, the stack telling none, the first one of its message. *)
Inductive located (err : Error) : option string → Prop :=
| in_stack st ds :
    stack err = Some st → firstLineColumn st ds → located err (Some ds)
| in_message ds :
    noLineColumn (default "" (stack err)) →
    firstLineColumn (message err) ds → located err (Some ds)
| nowhere :
    noLineColumn (default "" (stack err)) →
    noLineColumn (message err) → located err None.

End TrackerMoreSpec.


Module RefactorMoreSpec.
Import Refactor.

(** A line that [findImportInsertPosition] takes for an import. *)
Definition isImportLine (l : string) : bool := startsWith (trim l) "import ".

(** A line that is neither an import, nor blank, nor a comment: the scan
    of [findImportInsertPosition] stops at the first one after an
    import. *)
Definition isOtherCode (l : string) : bool :=
  negb (isImportLine l) && negb (String.eqb (trim l) "")
  && negb (startsWith (trim l) "//") && negb (startsWith (trim l) "/*").

(** A name made of word characters. *)
Definition wordName (c : string) : bool :=
  StringSpec.allChars isWord c && negb (String.eqb c "").


End RefactorMoreSpec.

Module LintSpec.
Import Regex Diagnostics.

(** The range of [d] lies within one piece of [text] as split at the
    line feeds. *)
Definition withinPiece (text : string) (d : Diagnostic) : Prop :=
  ∃ (i : nat) (l : string),
    splitLines text !! i = Some l
    ∧ line (start (range d)) = Z.of_nat i
    ∧ line (end_ (range d)) = Z.of_nat i
    ∧ 0 ≤ character (start (range d)) ≤ character (end_ (range d))
    ∧ character (end_ (range d)) ≤ Z.of_nat (String.length l).

(** [s] holds no quote character. *)
Definition noQuote (s : string) : bool :=
  StringSpec.allChars (λ c, negb (isQuote c)) s.

(** The number of quote characters of [s]. *)
Fixpoint quotes (s : string) : nat :=
  match s with
  | String c r => ((if isQuote c then 1 else 0) + quotes r)%nat
  | EmptyString => 0%nat
  end.

End LintSpec.

Module RoundTripMoreSpec.
Import Regex Diagnostics RoundTripDiagnostics.

(** [s] holds no double quote. *)
Definition noDquote (s : string) : bool :=
  StringSpec.allChars (λ c, negb (Ascii.eqb c dquote)) s.

(** The literal of [e] stands in the line [l] between two quotes, and
    the columns of [e] are those of its text. *)
Definition marks (l : string) (e : RoundTrip.Extracted) : Prop :=
  ∃ pre q post,
    l = pre +:+ String q (RoundTrip.smiles e +:+ String q post)
    ∧ isQuote q = true
    ∧ RoundTrip.start e = Z.of_nat (String.length pre) + 1
    ∧ RoundTrip.end_ e
      = RoundTrip.start e + Z.of_nat (String.length (RoundTrip.smiles e)).

(** A validator for the samples: the Kekule form of benzene stabilizes to
    the aromatic form, [C1CC] cannot be parsed, [C=C#C] never settles,
    everything else is perfect. *)
Definition sampleValidate (smiles : string) : Res RoundTripResult :=
  if String.eqb smiles "C1=CC=CC=C1"
  then Ok (mkRoundTripResult false true "c1ccccc1")
  else if String.eqb smiles "C1CC"
  then Throw (mkError "Unclosed ring" None)
  else if String.eqb smiles "C=C#C"
  then Ok (mkRoundTripResult false false "C=C#C")
  else Ok (mkRoundTripResult true true smiles).

Definition sampleRoundTripDocument : Editor.TextDocument :=
  Editor.mkTextDocument "file:///m.smiles.js" "/m.smiles.js" "/m.smiles.js"
    "javascript"
    ("const a = f('C=C', 'C1CC')" +:+ Editor.nl
     +:+ "const b = 'C1=CC=CC=C1'").

(** The diagnostic of the sample document. *)
Definition sampleDiagnostic : RoundTripDiagnostic :=
  let range := mkRange (mkPosition 1 11) (mkPosition 1 22) in
  mkRoundTripDiagnostic
    (mkDiagnostic range
       ("SMILES round-trip: Stabilizes to " +:+ inQuotes "c1ccccc1"
        +:+ " (3 char difference)")
       Warning "smiles-js" (VString "smiles-stabilizes"))
    [Unnecessary]
    (Some (Lint.mkRelatedInformation "file:///m.smiles.js" range
             "Use normalized form: c1ccccc1")).

End RoundTripMoreSpec.

Module RendererSpec.
Import Renderer.

(** What a call for [smiles] adds to the effects: the molecule is asked
    for, and deleted when there is one. *)
Definition lifeCycle (rdkit : RDKit) (smiles : string) : list Effect :=
  GetMol smiles ::
  match get_mol rdkit smiles with
  | Ok (Some mol) => [Delete (mol_id mol)]
  | _ => []
  end.

(** [smiles] gives a molecule that says it is valid. *)
Definition validMolecule (rdkit : RDKit) (smiles : string) (mol : Mol)
    : Prop :=
  get_mol rdkit smiles = Ok (Some mol) ∧ is_valid mol = Ok true.

(** The message of the exception that the [try] block of [generateSVG]
    throws. *)
Definition failure (rdkit : RDKit) (smiles : string) (json : string)
    : option string :=
  match get_mol rdkit smiles with
  | Throw err => Some (message err)
  | Ok None => Some ("Invalid molecule for SMILES: " +:+ smiles)
  | Ok (Some mol) =>
      match is_valid mol with
      | Throw err => Some (message err)
      | Ok false => Some ("Invalid molecule for SMILES: " +:+ smiles)
      | Ok true =>
          match get_svg_with_highlights mol json with
          | Throw err => Some (message err)
          | Ok _ => None
          end
      end
  end.

Definition sampleRDKit : RDKit :=
  mkRDKit (λ smiles,
    if String.eqb smiles "C"
    then Ok (Some (mkMol 1 (Ok true) (λ json, Ok ("<svg>" +:+ json))))
    else if String.eqb smiles "C(" then Ok None
    else if String.eqb smiles "[X]"
    then Ok (Some (mkMol 2 (Ok false) (λ _, Ok "")))
    else Throw (mkError "parse error" None)).

Ltac run :=
  cbv beta iota zeta delta
    [bind tryCatchFinally liftRes emit ret throw cleanUp molAfter fst snd].

End RendererSpec.
(** * Properties *)

(** ** Diagnostics conversion *)
Module DiagnosticsProps.
Import Diagnostics DiagnosticsSpec.








(** The duplicate-definition scenario: line 3, column 1 is published at
    (2,0)-(2,1). *)
Example published_sample :
  updateDiagnostics (λ _ _, Ok sampleResult) (λ _, []) sampleDocument
  = Some [mkDiagnostic (mkRange (mkPosition 2 0) (mkPosition 2 1))
            "Duplicate definition of 'a'" Error "selfies" VUndefined;
          mkDiagnostic (mkRange (mkPosition 1 4) (mkPosition 1 8))
            "note" Warning "selfies" VUndefined;
          mkDiagnostic (mkRange (mkPosition 0 6) (mkPosition 0 7))
            "Unusual valence" Warning "selfies" VUndefined].
Proof. reflexivity. Qed.




End DiagnosticsProps.

(** ** Round-trip extraction *)
Module RoundTripProps.
Import Regex RoundTrip RoundTripSpec.

Example extract_literal :
  extractSMILESFromLine "const b = Fragment('C1=CC=CC=C1');" 3
  = [mkExtracted "C1=CC=CC=C1" 20 31 3].
Proof. vm_compute. reflexivity. Qed.


(** *** The matches of a global scan are spaced by their widths *)
Section ExecAll.
Context {A : Type} (matchAt : string → option (nat * A)) (width : A → nat).
Hypothesis width_le : ∀ s len a, matchAt s = Some (len, a) → (width a ≤ len)%nat.




Lemma execAll_skip_all s : ∀ index skip,
  matchAt "" = None → (String.length s ≤ skip)%nat →
  execAll matchAt s index skip = [].
Proof.
  intros index skip Hnil. revert index skip.
  induction s as [|c r IH]; intros index skip Hlen; simpl.
  - destruct skip; [by rewrite Hnil|done].
  - simpl in Hlen. destruct skip as [|k]; [lia|]. apply IH. lia.
Qed.
End ExecAll.








Lemma length_append a b :
  String.length (a +:+ b) = (String.length a + String.length b)%nat.
Proof. induction a as [|c a IH]; simpl; [done|]. by rewrite IH. Qed.





End RoundTripProps.

(** ** Module cache *)
Module CacheProps.
Import LineTracker CacheSpec TrackerSpec.

(** A miss imports first and clears the cache afterwards, so the stated
    order (evict, then load) does not hold. *)
Lemma eviction_order_counterexample :
  let host := sampleHost 9 (Ok water) in
  let s' := (_loadSmilesModule host "/m.smiles.js" warmStore).2 in
  effects s'
  = [Import "file:///m.smiles.js?t=42"; CacheClear;
     CacheSet "/m.smiles.js:9"]
  ∧ ¬ evicts_before_import (effects s').
Proof.
  split; [vm_compute; reflexivity|].
  intros (i & j & url & Hi & Hj & Hlt). vm_compute in Hi, Hj.
  destruct i as [|[|[|i]]]; try discriminate Hi.
  destruct j as [|[|[|j]]]; try discriminate Hj. lia.
Qed.

(** What a hit does: nothing but answer. *)
Lemma load_hit host filePath s mtimeMs module :
  statSync_mtimeMs host filePath = Ok mtimeMs →
  _smilesModuleCache s !! cacheKey filePath mtimeMs = Some module →
  _loadSmilesModule host filePath s
  = (Ok (mkLoadResult (Some module) VNull), s).
Proof. intros Hstat Hhit. unfold _loadSmilesModule; step. rewrite Hstat. by rewrite Hhit. Qed.

(** A failing [statSync] leaves the store as it is. *)
Lemma load_stat_throws host filePath s err :
  statSync_mtimeMs host filePath = Throw err →
  _loadSmilesModule host filePath s = (Throw err, s).
Proof. intros Hstat. unfold _loadSmilesModule; step. by rewrite Hstat. Qed.

(** What a miss does, by the outcome of the import. *)
Lemma load_miss host filePath s mtimeMs :
  statSync_mtimeMs host filePath = Ok mtimeMs →
  _smilesModuleCache s !! cacheKey filePath mtimeMs = None →
  let key := cacheKey filePath mtimeMs in
  let url := importUrl host filePath in
  _loadSmilesModule host filePath s
  = match requireResolve host filePath with
    | Throw err =>
        (Ok (mkLoadResult None (VString (errorMessage err))),
         after s ∅ [CacheClear])
    | Ok _ =>
        match dynamicImport host url with
        | Ok module =>
            (Ok (mkLoadResult (Some module) VNull),
             after s {[key := module]} [Import url; CacheClear; CacheSet key])
        | Throw err =>
            (Ok (mkLoadResult None (VString (errorMessage err))),
             after s ∅ [Import url; CacheClear])
        end
    end.
Proof.
  intros Hstat Hmiss key url. unfold _loadSmilesModule; step. rewrite Hstat, Hmiss.
  destruct (requireResolve host filePath) as [resolved|err]; cbv beta iota.
  - fold url. destruct (dynamicImport host url) as [module|err]; cbv beta iota.
    + unfold after, add_effect, set_smilesModuleCache; simpl.
      by rewrite insert_empty, <- !app_assoc.
    + unfold after, add_effect, set_smilesModuleCache; simpl.
      by rewrite <- !app_assoc.
  - done.
Qed.

(** C7, amended. On every miss the fresh, cache-busting import comes
    first and is made at most once; only when it has settled is the whole
    cache cleared, and on success the new entry is then installed as the
    only one. When the import (or the resolution of the path before it)
    fails, the cache is left empty and the caller gets no module and the
    error message; the import is not tried again. *)
Theorem miss_imports_then_clears host filePath s mtimeMs :
  statSync_mtimeMs host filePath = Ok mtimeMs →
  _smilesModuleCache s !! cacheKey filePath mtimeMs = None →
  let key := cacheKey filePath mtimeMs in
  let url := importUrl host filePath in
  let out := _loadSmilesModule host filePath s in
  ∃ loaded imports installs,
    out.1 = Ok loaded
    ∧ effects out.2 = effects s ++ imports ++ CacheClear :: installs
    ∧ (imports = [] ∨ imports = [Import url])
    ∧ match module loaded with
      | Some exports =>
          imports = [Import url] ∧ dynamicImport host url = Ok exports
          ∧ installs = [CacheSet key]
          ∧ _smilesModuleCache out.2 = {[key := exports]}
          ∧ load_error loaded = VNull
      | None =>
          installs = [] ∧ _smilesModuleCache out.2 = ∅
          ∧ ∃ err,
              load_error loaded = VString (errorMessage err)
              ∧ (requireResolve host filePath = Throw err
                 ∨ dynamicImport host url = Throw err)
      end.
Proof.
  intros Hstat Hmiss key url out. subst out.
  rewrite (load_miss _ _ _ _ Hstat Hmiss). fold key url.
  destruct (requireResolve host filePath) as [resolved|err] eqn:Hres.
  - destruct (dynamicImport host url) as [exports|err] eqn:Himp.
    + exists (mkLoadResult (Some exports) VNull), [Import url],
        [CacheSet key].
      repeat split; auto.
    + exists (mkLoadResult None (VString (errorMessage err))),
        [Import url], [].
      repeat split; auto. exists err. auto.
  - exists (mkLoadResult None (VString (errorMessage err))), [], [].
    repeat split; auto. exists err. auto.
Qed.

Lemma miss_imports_then_clears_witness :
  let host := sampleHost 9 (Ok water) in
  let out := _loadSmilesModule host "/m.smiles.js" warmStore in
  ∃ loaded imports installs,
    out.1 = Ok loaded
    ∧ effects out.2 = effects warmStore ++ imports ++ CacheClear :: installs
    ∧ (imports = [] ∨ imports = [Import "file:///m.smiles.js?t=42"])
    ∧ match module loaded with
      | Some exports =>
          imports = [Import "file:///m.smiles.js?t=42"]
          ∧ dynamicImport host "file:///m.smiles.js?t=42" = Ok exports
          ∧ installs = [CacheSet "/m.smiles.js:9"]
          ∧ _smilesModuleCache out.2 = {[ "/m.smiles.js:9" := exports ]}
          ∧ load_error loaded = VNull
      | None =>
          installs = [] ∧ _smilesModuleCache out.2 = ∅
          ∧ ∃ err,
              load_error loaded = VString (errorMessage err)
              ∧ (requireResolve host "/m.smiles.js" = Throw err
                 ∨ dynamicImport host "file:///m.smiles.js?t=42" = Throw err)
      end.
Proof.
  apply (miss_imports_then_clears (sampleHost 9 (Ok water)) "/m.smiles.js"
           warmStore 9); reflexivity.
Defined.

(** *** The cache key determines the path and the modification time *)

Lemma noColon_pretty_go x : ∀ s,
  noColon s = true → noColon (pretty_N_go x s) = true.
Proof.
  induction (N.lt_wf_0 x) as [x _ IH]; intros s Hs.
  destruct (decide (x = 0)%N) as [->|Hx]; [by rewrite pretty_N_go_0|].
  rewrite pretty_N_go_step by lia. apply IH; [apply N.div_lt; lia|].
  unfold noColon in *; simpl. apply negb_true_iff, orb_false_intro.
  - unfold pretty_N_char. by repeat case_match.
  - by apply negb_true_iff.
Qed.

Lemma noColon_pretty (t : N) : noColon (pretty t) = true.
Proof.
  unfold pretty, pretty_N. case_decide; [done|].
  by apply noColon_pretty_go.
Qed.

Section Append.
Local Arguments String.append !_ _ / : simpl nomatch.

Lemma colon_inside r x : noColon (r +:+ String ":"%char x) = false.
Proof.
  unfold noColon. apply negb_false_iff.
  induction r as [|c r IH]; simpl; [done|]. rewrite IH. apply orb_true_r.
Qed.

Lemma append_colon_inj p : ∀ p' d d',
  noColon d = true → noColon d' = true →
  p +:+ ":" +:+ d = p' +:+ ":" +:+ d' → p = p' ∧ d = d'.
Proof.
  induction p as [|c p IH]; intros [|c' p'] d d' Hd Hd'; simpl.
  - by intros [= ->].
  - intros [= <- ->]. by rewrite colon_inside in Hd.
  - intros [= -> <-]. by rewrite colon_inside in Hd'.
  - intros [= -> H]. by destruct (IH _ _ _ Hd Hd' H) as [-> ->].
Qed.
End Append.

Lemma cacheKey_inj p t p' t' :
  cacheKey p t = cacheKey p' t' → p = p' ∧ t = t'.
Proof.
  unfold cacheKey. intros H.
  apply append_colon_inj in H as [-> H]; auto using noColon_pretty.
  split; [done|]. by apply (inj pretty).
Qed.

(** *** The invariant along a run *)

Lemma entries_captured_mono requests more cache :
  entries_captured requests cache →
  entries_captured (requests ++ more) cache.
Proof.
  intros H key module Hk.
  destruct (H key module Hk) as (h & p & t & Hin & ? & ?).
  exists h, p, t. split; [apply in_or_app; by left|done].
Qed.

Lemma load_preserves requests host filePath s :
  cache_inv requests s →
  cache_inv (requests ++ [(host, filePath)])
            (_loadSmilesModule host filePath s).2.
Proof.
  intros [Hsize Hcap].
  destruct (statSync_mtimeMs host filePath) as [t|err] eqn:Hstat.
  2:{ rewrite (load_stat_throws _ _ _ _ Hstat); simpl.
      split; [done|by apply entries_captured_mono]. }
  destruct (_smilesModuleCache s !! cacheKey filePath t) as [m|] eqn:Hk.
  { rewrite (load_hit _ _ _ _ _ Hstat Hk); simpl.
    split; [done|by apply entries_captured_mono]. }
  rewrite (load_miss _ _ _ _ Hstat Hk).
  destruct (requireResolve host filePath) as [resolved|err];
    [destruct (dynamicImport host (importUrl host filePath)) as [m|err]
       eqn:Himp|];
    unfold cache_inv, after; cbn [snd _smilesModuleCache].
  - split; [by rewrite map_size_singleton|].
    intros key module [<- <-]%lookup_singleton_Some.
    exists host, filePath, t. split; [apply in_or_app; right; by left|].
    done.
  - split; [by rewrite map_size_empty; lia|]. intros ? ?.
    by rewrite lookup_empty.
  - split; [by rewrite map_size_empty; lia|]. intros ? ?.
    by rewrite lookup_empty.
Qed.

Lemma runLoads_inv requests : ∀ before s,
  cache_inv before s → cache_inv (before ++ requests) (runLoads requests s).
Proof.
  induction requests as [|[host filePath] rest IH]; intros before s Hinv;
    simpl.
  - by rewrite app_nil_r.
  - change ((host, filePath) :: rest) with ([(host, filePath)] ++ rest).
    rewrite app_assoc. apply IH. by apply load_preserves.
Qed.

Lemma newTracker_inv documents : cache_inv [] (newTracker documents).
Proof.
  split; simpl; [by rewrite map_size_empty; lia|].
  intros ? ?. by rewrite lookup_empty.
Qed.

(** C1. Whatever loads a tracker has run since its construction, when
    a further load returns exports, they were captured by a load of the
    same path (this one or an earlier one) made when the file had the
    modification time it has now: no entry cached under another
    modification time is served. After the load, whether it was a hit, a
    successful miss or a failed one, the cache holds at most one entry. *)
Theorem cache_serves_current_mtime requests documents host filePath res s' :
  _loadSmilesModule host filePath (runLoads requests (newTracker documents))
  = (res, s') →
  (size (_smilesModuleCache s') ≤ 1)%nat
  ∧ ∀ r exports,
      res = Ok r → module r = Some exports →
      ∃ mtimeMs capturedIn,
        statSync_mtimeMs host filePath = Ok mtimeMs
        ∧ In (capturedIn, filePath) (requests ++ [(host, filePath)])
        ∧ captured capturedIn filePath mtimeMs exports.
Proof.
  intros Hload.
  pose proof (runLoads_inv requests [] _ (newTracker_inv documents)) as Hinv.
  simpl in Hinv.
  pose proof (load_preserves _ host filePath _ Hinv) as [Hsize _].
  rewrite Hload in Hsize. split; [exact Hsize|].
  intros r exports -> Hm. destruct Hinv as [_ Hcap].
  destruct (statSync_mtimeMs host filePath) as [t|err] eqn:Hstat.
  2:{ by rewrite (load_stat_throws _ _ _ _ Hstat) in Hload. }
  exists t.
  destruct (_smilesModuleCache (runLoads requests (newTracker documents))
              !! cacheKey filePath t) as [m|] eqn:Hk.
  - rewrite (load_hit _ _ _ _ _ Hstat Hk) in Hload.
    injection Hload as <- <-. simpl in Hm. injection Hm as ->.
    destruct (Hcap _ _ Hk) as (h & p & t' & Hin & Hkey & Hc).
    apply cacheKey_inj in Hkey as [<- <-].
    exists h. split; [done|]. split; [apply in_or_app; by left|done].
  - rewrite (load_miss _ _ _ _ Hstat Hk) in Hload.
    exists host. split; [done|]. split; [apply in_or_app; right; by left|].
    destruct (requireResolve host filePath) as [resolved|err];
      [|by injection Hload as <- <-].
    destruct (dynamicImport host (importUrl host filePath)) as [m|err]
      eqn:Himp; injection Hload as <- <-; [|done].
    simpl in Hm. injection Hm as ->. done.
Qed.

Lemma cache_serves_current_mtime_witness :
  let requests := [(sampleHost 9 (Ok water), "/m.smiles.js")] in
  let host := sampleHost 9 (Throw (mkError "SyntaxError" None)) in
  let out :=
    _loadSmilesModule host "/m.smiles.js"
      (runLoads requests (newTracker sampleDocuments)) in
  out.1 = Ok (mkLoadResult (Some water) VNull)
  ∧ (size (_smilesModuleCache out.2) ≤ 1)%nat
  ∧ ∀ r exports,
      out.1 = Ok r → module r = Some exports →
      ∃ mtimeMs capturedIn,
        statSync_mtimeMs host "/m.smiles.js" = Ok mtimeMs
        ∧ In (capturedIn, "/m.smiles.js")
             (requests ++ [(host, "/m.smiles.js")])
        ∧ captured capturedIn "/m.smiles.js" mtimeMs exports.
Proof.
  intros requests host out. split; [vm_compute; reflexivity|].
  apply (cache_serves_current_mtime requests sampleDocuments host
           "/m.smiles.js" out.1 out.2).
  apply surjective_pairing.
Defined.

End CacheProps.

(** ** Cursor tracker *)
Module TrackerProps.
Import LineTracker CacheSpec TrackerSpec CacheProps.

Lemma fired_add_fire info s :
  fired (add_effect (Fire info) s) = fired s ++ [info].
Proof. unfold fired, add_effect; simpl. by rewrite omap_app. Qed.

Lemma fired_add_other e s :
  (∀ info, e ≠ Fire info) → fired (add_effect e s) = fired s.
Proof.
  intros He. unfold fired, add_effect; simpl. rewrite omap_app; simpl.
  destruct e; try by rewrite app_nil_r. by destruct (He info).
Qed.

(** The event of a DSL resolve, from the trimmed line text on. *)
Lemma updateSelfies_fires host s d L raw parseResult :
  SelfiesCursor host s d L raw parseResult →
  _updateLineInfo host s
  = (Ok tt,
     add_effect
       (Fire (if isCodeLine raw then
                match List.find (λ def, d_line def =? Z.of_nat L + 1)
                                (definitionValues parseResult) with
                | Some definition =>
                    Some (resolvedLine host parseResult L definition)
                | None => None
                end
              else None))
       (set_parseResult (Some parseResult) s)).
Proof.
  intros [Hd Hl Hk Ht Hp]. unfold _updateLineInfo, updateSelfies. step.
  rewrite Hd, Hl, Hk, Ht. step. unfold parseOf in Hp.
  unfold isCodeLine, definitionValues.
  destruct (_parseResult s) as [cached|] eqn:Hc.
  - injection Hp as ->.
    replace (set_parseResult (Some parseResult) s) with s
      by (destruct s; simpl in *; by subst).
    destruct (String.eqb (trim raw) "" || startsWith (trim raw) "#"); simpl;
      [done|].
    by destruct (List.find _ _).
  - rewrite Hp. step.
    destruct (String.eqb (trim raw) "" || startsWith (trim raw) "#"); simpl;
      [done|].
    by destruct (List.find _ _).
Qed.





Lemma sample_cursor L raw :
  Editor.lineAt (sampleDocuments 1) L = Ok raw →
  SelfiesCursor (sampleHost 9 (Ok water)) (attachedStore 1 L) 1 L raw
    sampleParse.
Proof. intros H. by split. Qed.


(** The property lookup swallows its exception: with the cursor on a
    definition whose weight lookup throws, the fired line has no error,
    so the stated error handling fails. *)
Lemma swallowed_property_failure_counterexample :
  let host := sampleHost 9 (Ok water) in
  let info := resolvedLine host sampleParse 10 amino in
  fired (_updateLineInfo host (attachedStore 1 10)).2 = [Some info]
  ∧ stage_throws host sampleParse amino (mkError "Unknown atom" None)
  ∧ error info = VNull
  ∧ ¬ carries_stage_error host sampleParse amino info.
Proof.
  intros host info.
  assert (stage_throws host sampleParse amino (mkError "Unknown atom" None))
    as Hthrows.
  { right. exists "[amino]". split; [reflexivity|]. split; [done|].
    right. exists "C". split; [reflexivity|]. by left. }
  split; [vm_compute; reflexivity|]. split; [exact Hthrows|].
  split; [reflexivity|].
  intros H. specialize (H _ Hthrows). vm_compute in H. discriminate H.
Qed.

Lemma resolvedLine_fields host parseResult L definition :
  let e := engine host in
  let info := resolvedLine host parseResult L definition in
  let resolved := resolve e parseResult (d_name definition) false in
  (line info = L ∧ name info = VString (d_name definition)
   ∧ expression info = expressionOf definition)
  ∧ (∀ err, resolved = Throw err → message err ≠ "" →
       error info = VString (message err))
  ∧ (∀ v err, resolved = Ok v → v ≠ "" → decode e v = Throw err →
       error info = VString (message err) ∧ selfies info = VString v
       ∧ smiles info = VNull)
  ∧ (∀ v derived err, resolved = Ok v → v ≠ "" → decode e v = Ok derived →
       getMolecularWeight e v = Throw err →
       error info = VNull ∧ selfies info = VString v
       ∧ smiles info = VString derived ∧ molecularWeight info = VNull
       ∧ formula info = VNull)
  ∧ (∀ v derived w err, resolved = Ok v → v ≠ "" → decode e v = Ok derived →
       getMolecularWeight e v = Ok w → getFormula e v = Throw err →
       error info = VNull ∧ selfies info = VString v
       ∧ smiles info = VString derived ∧ molecularWeight info = VNumber w
       ∧ formula info = VNull).
Proof.
  intros e info resolved. subst info resolved e. unfold resolvedLine.
  assert (∀ v, v ≠ "" → negb (String.eqb v "") = true) as Hne.
  { intros v Hv. apply negb_true_iff, String.eqb_neq, Hv. }
  split; [|split; [|split; [|split]]].
  - unfold expressionOf. by repeat case_match.
  - intros err -> Hmsg. simpl. unfold or_else; simpl. by rewrite Hne.
  - intros v err -> Hv Hdec. simpl. rewrite (Hne v Hv); simpl.
    rewrite Hdec; simpl. by repeat case_match.
  - intros v derived err -> Hv Hdec Hw. simpl. rewrite (Hne v Hv); simpl.
    by rewrite Hdec, Hw.
  - intros v derived w err -> Hv Hdec Hw Hf. simpl. rewrite (Hne v Hv); simpl.
    by rewrite Hdec, Hw, Hf.
Qed.

(** C4, amended. With the cursor on the line of a definition, the
    fired line always keeps the editor line, the name and the expression
    string. When the resolver throws (with a non-empty message) the error
    field is that message. When the resolver succeeds and the decoder
    throws, the error field is the decoder's message and the resolved
    notation is kept. When a molecular-property lookup throws, the
    exception is dropped: the error field stays null, and the notation,
    the derived notation and a weight already looked up are kept. *)
Theorem partial_failure_semantics host s d L raw parseResult definition :
  SelfiesCursor host s d L raw parseResult →
  isCodeLine raw = true →
  List.find (λ def, d_line def =? Z.of_nat L + 1)
            (definitionValues parseResult) = Some definition →
  let e := engine host in
  let resolved := resolve e parseResult (d_name definition) false in
  ∃ info,
    fired (_updateLineInfo host s).2 = fired s ++ [Some info]
    ∧ (line info = L ∧ name info = VString (d_name definition)
       ∧ expression info = expressionOf definition)
    ∧ (∀ err, resolved = Throw err → message err ≠ "" →
         error info = VString (message err))
    ∧ (∀ v err, resolved = Ok v → v ≠ "" → decode e v = Throw err →
         error info = VString (message err) ∧ selfies info = VString v
         ∧ smiles info = VNull)
    ∧ (∀ v derived err,
         resolved = Ok v → v ≠ "" → decode e v = Ok derived →
         getMolecularWeight e v = Throw err →
         error info = VNull ∧ selfies info = VString v
         ∧ smiles info = VString derived ∧ molecularWeight info = VNull
         ∧ formula info = VNull)
    ∧ (∀ v derived w err,
         resolved = Ok v → v ≠ "" → decode e v = Ok derived →
         getMolecularWeight e v = Ok w → getFormula e v = Throw err →
         error info = VNull ∧ selfies info = VString v
         ∧ smiles info = VString derived ∧ molecularWeight info = VNumber w
         ∧ formula info = VNull).
Proof.
  intros Hc Hcode Hfind e resolved.
  exists (resolvedLine host parseResult L definition). split.
  - rewrite (updateSelfies_fires _ _ _ _ _ _ Hc). cbn [snd].
    by rewrite fired_add_fire, Hcode, Hfind.
  - apply resolvedLine_fields.
Qed.

Lemma partial_failure_semantics_witness :
  ∃ info,
    fired (_updateLineInfo (sampleHost 9 (Ok water)) (attachedStore 1 5)).2
    = [Some info]
    ∧ expression info = VString "[C]repeat([C], 1)"
    ∧ selfies info = VString "[ethyl]"
    ∧ error info = VString "Cannot decode".
Proof.
  destruct (partial_failure_semantics (sampleHost 9 (Ok water))
              (attachedStore 1 5) 1 5 "[ethyl] = [C]repeat([C], 1)"
              sampleParse
              (mkDef "ethyl" 6 (Some [TString "[C]"; TRepeatCall "[C]" 1]))
              (sample_cursor 5 _ eq_refl) eq_refl eq_refl)
    as (info & Hf & (_ & _ & He) & _ & Hd & _).
  destruct (Hd "[ethyl]" (mkError "Cannot decode" None) eq_refl
              ltac:(discriminate) eq_refl) as (Herr & Hs & _).
  exists info. auto.
Defined.

(** *** The build-format branch *)

Lemma after_nil s : after s (_smilesModuleCache s) [] = s.
Proof. destruct s; unfold after; simpl. by rewrite app_nil_r. Qed.

Lemma fired_after s cache further :
  (∀ e, In e further → ∀ info, e ≠ Fire info) →
  fired (after s cache further) = fired s.
Proof.
  intros Hq. unfold fired, after; simpl. rewrite omap_app.
  assert (omap (λ e, match e with Fire info => Some info | _ => None end)
            further = []) as ->; [|by rewrite app_nil_r].
  induction further as [|e l IH]; [done|].
  assert (∀ e', In e' l → ∀ info, e' ≠ Fire info) as Hl
    by (intros; apply Hq; by right).
  destruct e; simpl; try exact (IH Hl).
  by destruct (Hq (Fire info) (or_introl eq_refl) info).
Qed.

(** A load reads and writes the cache only, and fires nothing. *)
Lemma load_shape host filePath s :
  ∃ r cache further,
    (∀ s1, _smilesModuleCache s1 = _smilesModuleCache s →
           _loadSmilesModule host filePath s1 = (r, after s1 cache further))
    ∧ (∀ e, In e further → ∀ info, e ≠ Fire info).
Proof.
  destruct (statSync_mtimeMs host filePath) as [t|err] eqn:Hstat.
  2:{ exists (Throw err), (_smilesModuleCache s), []. split; [|by intros ? []].
      intros s1 <-. by rewrite after_nil, (load_stat_throws _ _ _ _ Hstat). }
  destruct (_smilesModuleCache s !! cacheKey filePath t) as [m|] eqn:Hk.
  { exists (Ok (mkLoadResult (Some m) VNull)), (_smilesModuleCache s), [].
    split; [|by intros ? []]. intros s1 Hs1. rewrite <- Hs1 in Hk |- *.
    by rewrite after_nil, (load_hit _ _ _ _ _ Hstat Hk). }
  pose proof (λ s1 H, load_miss host filePath s1 t Hstat H)
    as Hmiss. cbv zeta in Hmiss.
  destruct (requireResolve host filePath) as [resolved|err];
    [destruct (dynamicImport host (importUrl host filePath)) as [m|err]|];
    eexists _, _, _; (split; [intros s1 Hs1; apply Hmiss; by rewrite Hs1|]);
    intros e Hin info ->; simpl in Hin;
    repeat (destruct Hin as [Hin|Hin]; [discriminate Hin|]); destruct Hin.
Qed.

Lemma afterAutoExport_cache host s d L constInfo :
  _smilesModuleCache (afterAutoExport host s d L constInfo)
  = _smilesModuleCache s.
Proof. unfold afterAutoExport. by repeat case_match. Qed.

Lemma afterAutoExport_fired host s d L constInfo :
  fired (afterAutoExport host s d L constInfo) = fired s.
Proof.
  unfold afterAutoExport. repeat case_match; try done.
  by rewrite !fired_add_other.
Qed.

(** The event of a build-format resolve on a declaration line. *)
Lemma updateSmilesJS_fires host s d L raw constInfo :
  SmilesJSCursor s d L raw →
  isStatementLine raw = true →
  _findConstAtLine (Editor.getText (documents s d)) L = Some constInfo →
  _updateLineInfo host s
  = match _loadSmilesModule host (Editor.fileName (documents s d))
            (afterAutoExport host s d L constInfo) with
    | (Ok loaded, s2) =>
        (Ok tt,
         add_effect
           (Fire (exportLine L (c_name constInfo) (trim raw) loaded)) s2)
    | (Throw err, s2) =>
        (Ok tt, add_effect (Fire (Some (errorLine L err))) s2)
    end.
Proof.
  intros [Hd Hl Hk Ht] Hstmt Hfind.
  unfold _updateLineInfo, updateSmilesJS. step.
  rewrite Hd, Hl, Hk, Ht. step.
  apply negb_true_iff in Hstmt. rewrite Hstmt, Hfind. step.
  unfold afterAutoExport.
  destruct (needsExport constInfo);
    [destruct (activeTextEditor host) as [editor|];
     [destruct (Nat.eqb (document editor) d)|]|];
    step; by destruct (_loadSmilesModule _ _ _) as [[loaded|err] s2].
Qed.

Lemma falsy_cases (v : JSVal) :
  v = VUndefined ∨ v = VNull ∨ v = VString "" → truthy v = false.
Proof. by intros [->|[->| ->]]. Qed.

(** C10. With the cursor on a declaration line of a build-format
    document, when the module load succeeds and the declared name is
    exported with a value whose smiles property is falsy (absent, null or
    the empty string among others), the tracker fires null: neither a
    resolved line nor an error. *)
Theorem falsy_notation_fires_null host s d L raw constInfo exports value :
  SmilesJSCursor s d L raw →
  isStatementLine raw = true →
  _findConstAtLine (Editor.getText (documents s d)) L = Some constInfo →
  (_loadSmilesModule host (Editor.fileName (documents s d)) s).1
  = Ok (mkLoadResult (Some exports) VNull) →
  exports !! c_name constInfo = Some value →
  truthy (getProp value "smiles") = false →
  fired (_updateLineInfo host s).2 = fired s ++ [None].
Proof.
  intros Hc Hstmt Hfind Hload Hvalue Hfalsy.
  rewrite (updateSmilesJS_fires _ _ _ _ _ _ Hc Hstmt Hfind).
  destruct (load_shape host (Editor.fileName (documents s d)) s)
    as (r & cache & further & Hshape & Hquiet).
  rewrite (Hshape s eq_refl) in Hload. simpl in Hload. subst r.
  rewrite (Hshape _ (afterAutoExport_cache _ _ _ _ _)). cbn [snd].
  rewrite fired_add_fire, fired_after, afterAutoExport_fired by done.
  unfold exportLine; simpl. rewrite Hvalue, Hfalsy.
  by destruct (exportTruthy value).
Qed.

Lemma falsy_notation_fires_null_witness :
  fired (_updateLineInfo (sampleHost 9 (Ok water)) (attachedStore 0 2)).2
  = [None].
Proof.
  apply (falsy_notation_fires_null (sampleHost 9 (Ok water))
           (attachedStore 0 2) 0 2 "export const blank = Fragment('')"
           (mkConstInfo "blank" false None) water
           (EObject {[ "smiles" := VString "" ]}));
    [by split|reflexivity..].
Defined.

(** *** Every resolve fires exactly one event *)

Lemma resolved_fire s s' info :
  fired s' = fired s → resolved s (add_effect (Fire info) s').
Proof. intros H. exists info. by rewrite fired_add_fire, H. Qed.

Lemma quiet_ret {A} (a : A) : quiet (ret a).
Proof. by intros s. Qed.

Lemma quiet_gets {A} (f : Store → A) : quiet (gets f).
Proof. by intros s. Qed.

Lemma quiet_liftRes {A} (r : Res A) : quiet (liftRes r).
Proof. by intros s. Qed.

Lemma quiet_modify f : (∀ s, fired (f s) = fired s) → quiet (modify f).
Proof. intros Hf s. apply Hf. Qed.

Lemma quiet_emit e : (∀ info, e ≠ Fire info) → quiet (emit e).
Proof. intros He s. by apply fired_add_other. Qed.

Lemma quiet_bind {A B} (m : M A) (k : A → M B) :
  quiet m → (∀ a, quiet (k a)) → quiet (bind m k).
Proof.
  intros Hm Hk s. unfold bind. specialize (Hm s).
  destruct (m s) as [[a|err] s1]; simpl in *; [|done].
  by rewrite Hk.
Qed.

Lemma quiet_load host filePath : quiet (_loadSmilesModule host filePath).
Proof.
  intros s. destruct (load_shape host filePath s)
    as (r & cache & further & Hshape & Hq).
  rewrite (Hshape s eq_refl). by apply fired_after.
Qed.

Lemma once_fire info : once (fire info).
Proof. intros s. by apply resolved_fire. Qed.

Lemma once_bind {A} (m : M A) (k : A → M unit) :
  quiet m → (∀ a, once (k a)) → once (bind m k).
Proof.
  intros Hm Hk s. unfold bind. specialize (Hm s).
  destruct (m s) as [[a|err] s1]; simpl in *; [|done].
  specialize (Hk a s1). destruct (k a s1) as [[u|err] s'].
  - destruct Hk as [info Hk]. exists info. by rewrite Hk, Hm.
  - by rewrite Hk.
Qed.

Lemma updateSmilesJS_once host d L lineText :
  once (updateSmilesJS host d L lineText).
Proof.
  unfold updateSmilesJS. apply once_bind; [apply quiet_gets|]. intros doc.
  destruct (String.eqb lineText "" || startsWith lineText "//"
            || startsWith lineText "/*"); [apply once_fire|].
  destruct (_findConstAtLine _ L) as [constInfo|]; [|apply once_fire].
  apply once_bind.
  - destruct (needsExport constInfo); [|apply quiet_ret].
    destruct (activeTextEditor host) as [editor|]; [|apply quiet_ret].
    destruct (Nat.eqb (document editor) d); [|apply quiet_ret].
    repeat (apply quiet_bind; [|intros _]);
      [by apply quiet_modify|by apply quiet_emit..].
  - intros _. apply once_bind; [apply quiet_load|]. intros loaded.
    apply once_fire.
Qed.

Lemma updateSelfies_once host d L lineText :
  once (updateSelfies host d L lineText).
Proof.
  unfold updateSelfies. apply once_bind; [apply quiet_gets|]. intros doc.
  apply once_bind; [apply quiet_gets|]. intros cached.
  apply once_bind.
  - destruct cached; [apply quiet_ret|].
    apply quiet_bind; [apply quiet_liftRes|]. intros parsed.
    apply quiet_bind; [by apply quiet_modify|]. intros _. apply quiet_ret.
  - intros parseResult.
    destruct (String.eqb lineText "" || startsWith lineText "#");
      [apply once_fire|].
    destruct (List.find _ _); apply once_fire.
Qed.

Lemma updateLineInfo_once host s d L :
  _currentDocument s = Some d → _currentLine s = Some L →
  ∃ s', _updateLineInfo host s = (Ok tt, s') ∧ resolved s s'.
Proof.
  intros Hd Hl. unfold _updateLineInfo. step. rewrite Hd, Hl. step.
  destruct (Editor.lineAt (documents s d) L) as [raw|err];
    [|eexists; split; [done|by apply resolved_fire]].
  destruct (endsWith (Editor.fileName (documents s d)) ".smiles.js").
  - pose proof (updateSmilesJS_once host d L (trim raw) s) as H.
    destruct (updateSmilesJS host d L (trim raw) s) as [[[]|err] s'];
      eexists; (split; [done|]); [done|by apply resolved_fire].
  - pose proof (updateSelfies_once host d L (trim raw) s) as H.
    destruct (updateSelfies host d L (trim raw) s) as [[[]|err] s'];
      eexists; (split; [done|]); [done|by apply resolved_fire].
Qed.




End TrackerProps.

(** ** Refactor command *)
Module RefactorProps.
Import Refactor RefactorSpec.






End RefactorProps.
(** ** Strings, lines and insertion *)
Module StringFacts.
Import StringSpec.

Section Strings.
Local Arguments String.append !_ _ / : simpl nomatch.

Lemma append_nil_r s : s +:+ "" = s.
Proof. induction s as [|c s IH]; simpl; [done|]. by rewrite IH. Qed.

Lemma append_assoc a b c : (a +:+ b) +:+ c = a +:+ b +:+ c.
Proof. induction a as [|x a IH]; simpl; [done|]. by rewrite IH. Qed.

Lemma take_append a b : Editor.take (String.length a) (a +:+ b) = a.
Proof. induction a as [|x a IH]; simpl; [by destruct b|]. by rewrite IH. Qed.

Lemma drop_append a b : drop (String.length a) (a +:+ b) = b.
Proof. induction a as [|x a IH]; simpl; [by destruct b|]. done. Qed.

Lemma take_drop n s : Editor.take n s +:+ drop n s = s.
Proof.
  revert s. induction n as [|n IH]; intros [|c s]; simpl; try done.
  by rewrite IH.
Qed.

Lemma span_append p s a b : span p s = (a, b) → s = a +:+ b.
Proof.
  revert a b. induction s as [|c s IH]; simpl; intros a b.
  - by intros [= <- <-].
  - destruct (p c); [|by intros [= <- <-]].
    destruct (span p s) as [a' b']. intros [= <- <-]. simpl.
    by rewrite (IH a' b').
Qed.

Lemma span_all p s a b : span p s = (a, b) → allChars p a = true.
Proof.
  revert a b. induction s as [|c s IH]; simpl; intros a b.
  - by intros [= <- <-].
  - destruct (p c) eqn:Hc; [|by intros [= <- <-]].
    destruct (span p s) as [a' b']. intros [= <- <-]. simpl.
    rewrite Hc. by apply (IH a' b').
Qed.

Lemma span_rest p s a b :
  span p s = (a, b) →
  match b with String c _ => p c = false | EmptyString => True end.
Proof.
  revert a b. induction s as [|c s IH]; simpl; intros a b.
  - by intros [= <- <-].
  - destruct (p c) eqn:Hc; [|by intros [= <- <-]].
    destruct (span p s) as [a' b']. intros [= <- <-]. by apply (IH a' b').
Qed.

Lemma span_stop p a b :
  allChars p a = true →
  match b with String c _ => p c = false | EmptyString => True end →
  span p (a +:+ b) = (a, b).
Proof.
  intros Ha Hb. induction a as [|c a IH]; simpl in *.
  - destruct b as [|c b]; [done|]. simpl. by rewrite Hb.
  - apply andb_prop in Ha as [Hc Ha]. by rewrite Hc, (IH Ha).
Qed.

Lemma stripPrefix_append lit s r : stripPrefix lit s = Some r → s = lit +:+ r.
Proof.
  revert s. induction lit as [|a lit IH]; intros s; simpl.
  - by intros [= ->].
  - destruct s as [|b s]; [done|].
    destruct (Ascii.eqb_spec a b) as [->|]; [|done].
    intros H. by rewrite (IH _ H).
Qed.

Lemma stripPrefix_here lit r : stripPrefix lit (lit +:+ r) = Some r.
Proof.
  induction lit as [|a lit IH]; simpl; [done|]. by rewrite Ascii.eqb_refl.
Qed.

(** *** Lines *)

Lemma split_first sep s : ∃ l ls, split sep s = l :: ls.
Proof.
  induction s as [|c s (l & ls & IH)]; simpl; [by eexists _, _|].
  destruct (Ascii.eqb c sep); [by eexists _, _|].
  rewrite IH. by eexists _, _.
Qed.

Lemma split_plain sep a :
  allChars (λ c, negb (Ascii.eqb c sep)) a = true → split sep a = [a].
Proof.
  induction a as [|c a IH]; simpl; [done|].
  intros [Hc Ha]%andb_prop. apply negb_true_iff in Hc.
  by rewrite Hc, (IH Ha).
Qed.

Lemma split_append_plain sep a s l ls :
  allChars (λ c, negb (Ascii.eqb c sep)) a = true →
  split sep s = l :: ls →
  split sep (a +:+ s) = (a +:+ l) :: ls.
Proof.
  intros Ha Hs. induction a as [|c a IH]; simpl in *; [done|].
  apply andb_prop in Ha as [Hc Ha]. apply negb_true_iff in Hc.
  by rewrite Hc, (IH Ha).
Qed.

(** Inserting text without a line feed changes one line only: the one
    of the position, at the character of the position (or at its end). *)
Lemma splitLines_insert text : ∀ L p line ins,
  splitLines text !! L = Some line →
  oneLine ins = true →
  let at_ := Nat.min p (String.length line) in
  splitLines (Editor.insert text (Editor.mkPosition L p) ins) !! L
  = Some (Editor.take at_ line +:+ ins +:+ drop at_ line).
Proof.
  unfold splitLines, Editor.insert, Editor.offsetAt, oneLine, splitLines.
  induction text as [|c r IH]; intros L p line ins Hl Hins; simpl in *.
  - destruct L; [|done]. injection Hl as <-. simpl. rewrite !Nat.min_0_r. simpl.
    by rewrite append_nil_r, split_plain.
  - destruct (Ascii.eqb c "010") eqn:Hc.
    + apply Ascii.eqb_eq in Hc as ->. destruct L as [|L]; simpl in *.
      * injection Hl as <-. simpl. rewrite !Nat.min_0_r. simpl.
        destruct (split_first "010" r) as (l & ls & Hr).
        erewrite split_append_plain; [done|done|]. simpl. by rewrite Hr.
      * specialize (IH L p line ins Hl Hins). rewrite Hl in IH |- *.
        simpl. done.
    + destruct (split_first "010" r) as (l0 & ls & Hr).
      rewrite Hr in Hl |- *. destruct L as [|L]; simpl in *.
      * injection Hl as <-.
        specialize (IH 0%nat (pred p) l0 ins). rewrite Hr in IH.
        specialize (IH eq_refl Hins). simpl in IH.
        destruct p as [|p]; simpl in *.
        -- erewrite split_append_plain; [done|done|]. simpl.
           by rewrite Hc, Hr.
        -- rewrite Hc.
           destruct (split "010" _) as [|l1 ls1]; [done|].
           simpl in *. by injection IH as ->.
      * specialize (IH (S L) p line ins). rewrite Hr in IH. simpl in IH.
        specialize (IH Hl Hins). rewrite Hl in IH |- *. simpl in *.
        rewrite Hc. destruct (split "010" _) as [|l1 ls1]; [done|].
        done.
Qed.

End Strings.

End StringFacts.

(** ** More on the cursor tracker *)
Module TrackerMore.
Import StringSpec StringFacts LineTracker Regex CacheSpec TrackerSpec.
Import CacheProps TrackerProps TrackerMoreSpec.

Section AutoExport.
Local Arguments String.append !_ _ / : simpl nomatch.

Lemma execFirst_skip {A} (matchAt : string → option A) ws s :
  (∀ c r, isSpace c = true → matchAt (String c r) = None) →
  allChars isSpace ws = true →
  execFirst matchAt (ws +:+ s) = execFirst matchAt s.
Proof.
  intros Hm. induction ws as [|c ws IH]; simpl; [done|].
  intros [Hc Hws]%andb_prop. by rewrite (Hm _ _ Hc), IH.
Qed.

Lemma exportConstPattern_space c r :
  isSpace c = true → exportConstPattern (String c r) = None.
Proof.
  intros Hc. unfold exportConstPattern.
  change (stripPrefix "export" (String c r))
    with (if Ascii.eqb "e" c then stripPrefix "xport" r else None).
  destruct (Ascii.eqb "e" c) eqn:E; [|done].
  apply Ascii.eqb_eq in E as <-. discriminate Hc.
Qed.

Lemma execFirst_here {A} (matchAt : string → option A) s a :
  matchAt s = Some a → execFirst matchAt s = Some a.
Proof. intros H. destruct s; simpl; by rewrite H. Qed.

Lemma append_cons_ne a c b : String.eqb (a +:+ String c b) "" = false.
Proof. by destruct a. Qed.

(** The marker inserted where [_findConstAtLine] says is found by the
    next scan of the line. *)
Lemma marker_recognised text L info :
  _findConstAtLine text L = Some info →
  needsExport info = true →
  _findConstAtLine
    (Editor.insert text
       (Editor.mkPosition L (default 0%nat (constPosition info))) "export ")
    L
  = Some (mkConstInfo (c_name info) false None).
Proof.
  unfold _findConstAtLine.
  destruct (splitLines text !! L) as [line|] eqn:Hline; [|done].
  destruct (String.eqb line ""); [done|].
  destruct (execFirst exportConstPattern line); [by intros [= <-]|].
  destruct (constPattern line) as [[ws w]|] eqn:Hc; [|done].
  intros [= <-] _. simpl.
  unfold constPattern in Hc.
  destruct (span isSpace line) as [ws0 r1] eqn:Hsp.
  destruct (stripPrefix "const" r1) as [r2|] eqn:Hst; [|done].
  destruct (span isSpace r2) as [ws1 r3] eqn:Hs1.
  destruct (span isWord r3) as [w' r4] eqn:Hw.
  destruct (span isSpace r4) as [ws2 r5] eqn:Hs2.
  destruct (String.eqb ws1 "" || String.eqb w' "") eqn:Hne; [done|].
  destruct (stripPrefix "=" r5) as [r6|] eqn:Heq; [|done].
  injection Hc as <- <-.
  pose proof (span_append _ _ _ _ Hsp) as ->.
  pose proof (span_all _ _ _ _ Hsp) as Hws.
  pose proof (stripPrefix_append _ _ _ Hst) as ->.
  pose proof (splitLines_insert _ L (String.length ws0) _ "export " Hline
                eq_refl) as Hins. cbv zeta in Hins.
  rewrite RoundTripProps.length_append, Nat.min_l in Hins by lia.
  rewrite take_append, drop_append in Hins. rewrite Hins. clear Hins.
  cbn [String.append]. rewrite append_cons_ne.
  rewrite execFirst_skip by auto using exportConstPattern_space.
  assert (exportConstPattern ("export" +:+ " " +:+ "const" +:+ r2) = Some w')
    as Hexp.
  { unfold exportConstPattern. rewrite stripPrefix_here.
    assert (span isSpace (" " +:+ "const" +:+ r2) = (" ", "const" +:+ r2))
      as -> by exact (span_stop isSpace " " (String "c" ("onst" +:+ r2))
                        eq_refl eq_refl).
    change (String.eqb " " "") with false. cbv iota.
    by rewrite stripPrefix_here, Hs1, Hw, Hs2, Hne, Heq. }
  erewrite execFirst_here; [done|exact Hexp].
Qed.

(** X1. When [_findConstAtLine] finds a declaration without export
    marker, inserting the marker where it says gives a text in which the
    same line is found as an exported declaration of the same name: the
    automatic insertion is recognised by the next resolve and is not
    repeated. *)
Theorem auto_export_recognised text L info :
  _findConstAtLine text L = Some info →
  needsExport info = true →
  _findConstAtLine
    (Editor.insert text
       (Editor.mkPosition L (default 0%nat (constPosition info))) "export ")
    L
  = Some (mkConstInfo (c_name info) false None).
Proof. apply marker_recognised. Qed.

Lemma auto_export_recognised_witness :
  _findConstAtLine
    (Editor.insert "  const water = Fragment('O')" (Editor.mkPosition 0 2)
       "export ") 0
  = Some (mkConstInfo "water" false None).
Proof.
  apply (auto_export_recognised "  const water = Fragment('O')" 0
           (mkConstInfo "water" true (Some 2%nat))); reflexivity.
Defined.

End AutoExport.

(** *** The cursor, the parse cache and the module cache *)

Lemma keeps_ret {A} (a : A) : keeps (ret a).
Proof. by intros s. Qed.
Lemma keeps_gets {A} (f : Store → A) : keeps (gets f).
Proof. by intros s. Qed.
Lemma keeps_liftRes {A} (r : Res A) : keeps (liftRes r).
Proof. by intros s. Qed.
Lemma keeps_modify f : (∀ s, cursor (f s) = cursor s) → keeps (modify f).
Proof. intros Hf s. apply Hf. Qed.
Lemma keeps_emit e : keeps (emit e).
Proof. by intros s. Qed.
Lemma keeps_bind {A B} (m : M A) (k : A → M B) :
  keeps m → (∀ a, keeps (k a)) → keeps (bind m k).
Proof.
  intros Hm Hk s. unfold bind. specialize (Hm s).
  destruct (m s) as [[a|err] s1]; simpl in *; [|done].
  by rewrite Hk.
Qed.
Lemma keeps_tryCatch {A} (m : M A) (h : Error → M A) :
  keeps m → (∀ err, keeps (h err)) → keeps (tryCatch m h).
Proof.
  intros Hm Hh s. unfold tryCatch. specialize (Hm s).
  destruct (m s) as [[a|err] s1]; simpl in *; [done|].
  by rewrite Hh.
Qed.
Lemma keeps_load host filePath : keeps (_loadSmilesModule host filePath).
Proof.
  intros s. destruct (load_shape host filePath s)
    as (r & cache & further & Hshape & _).
  by rewrite (Hshape s eq_refl).
Qed.

Lemma keeps_updateLineInfo host : keeps (_updateLineInfo host).
Proof.
  unfold _updateLineInfo.
  apply keeps_bind; [apply keeps_gets|]. intros cd.
  apply keeps_bind; [apply keeps_gets|]. intros cl.
  destruct cd as [d|]; [|apply keeps_ret].
  destruct cl as [L|]; [|apply keeps_ret].
  apply keeps_bind; [apply keeps_gets|]. intros doc.
  apply keeps_tryCatch; [|intros err; apply keeps_emit].
  apply keeps_bind; [apply keeps_liftRes|]. intros raw.
  destruct (endsWith _ _).
  - unfold updateSmilesJS.
    apply keeps_bind; [apply keeps_gets|]. intros doc'.
    destruct (_ || _); [apply keeps_emit|].
    destruct (_findConstAtLine _ _) as [constInfo|]; [|apply keeps_emit].
    apply keeps_bind.
    + destruct (needsExport constInfo); [|apply keeps_ret].
      destruct (activeTextEditor host) as [editor|]; [|apply keeps_ret].
      destruct (Nat.eqb _ _); [|apply keeps_ret].
      repeat (apply keeps_bind; [|intros _]);
        [by apply keeps_modify|apply keeps_emit..].
    + intros _. apply keeps_bind; [apply keeps_load|]. intros loaded.
      apply keeps_emit.
  - unfold updateSelfies.
    apply keeps_bind; [apply keeps_gets|]. intros doc'.
    apply keeps_bind; [apply keeps_gets|]. intros cached.
    apply keeps_bind.
    + destruct cached; [apply keeps_ret|].
      apply keeps_bind; [apply keeps_liftRes|]. intros parsed.
      apply keeps_bind; [by apply keeps_modify|]. intros _. apply keeps_ret.
    + intros parseResult. destruct (_ || _); [apply keeps_emit|].
      destruct (List.find _ _); apply keeps_emit.
Qed.

Lemma keepsParse_ret {A} (a : A) : keepsParse (ret a).
Proof. by intros s. Qed.
Lemma keepsParse_gets {A} (f : Store → A) : keepsParse (gets f).
Proof. by intros s. Qed.
Lemma keepsParse_liftRes {A} (r : Res A) : keepsParse (liftRes r).
Proof. by intros s. Qed.
Lemma keepsParse_modify f :
  (∀ s, _parseResult (f s) = _parseResult s) → keepsParse (modify f).
Proof. intros Hf s. apply Hf. Qed.
Lemma keepsParse_emit e : keepsParse (emit e).
Proof. by intros s. Qed.
Lemma keepsParse_bind {A B} (m : M A) (k : A → M B) :
  keepsParse m → (∀ a, keepsParse (k a)) → keepsParse (bind m k).
Proof.
  intros Hm Hk s. unfold bind. specialize (Hm s).
  destruct (m s) as [[a|err] s1]; simpl in *; [|done].
  by rewrite Hk.
Qed.
Lemma keepsParse_load host filePath :
  keepsParse (_loadSmilesModule host filePath).
Proof.
  intros s. destruct (load_shape host filePath s)
    as (r & cache & further & Hshape & _).
  by rewrite (Hshape s eq_refl).
Qed.

Lemma keepsParse_updateSmilesJS host d L raw :
  keepsParse (updateSmilesJS host d L raw).
Proof.
  unfold updateSmilesJS.
  apply keepsParse_bind; [apply keepsParse_gets|]. intros doc'.
  destruct (_ || _); [apply keepsParse_emit|].
  destruct (_findConstAtLine _ _) as [constInfo|]; [|apply keepsParse_emit].
  apply keepsParse_bind.
  - destruct (needsExport constInfo); [|apply keepsParse_ret].
    destruct (activeTextEditor host) as [editor|]; [|apply keepsParse_ret].
    destruct (Nat.eqb _ _); [|apply keepsParse_ret].
    repeat (apply keepsParse_bind; [|intros _]);
      [by apply keepsParse_modify|apply keepsParse_emit..].
  - intros _. apply keepsParse_bind; [apply keepsParse_load|]. intros loaded.
    apply keepsParse_emit.
Qed.

(** X2. A resolve never moves the cursor and never drops a cached
    parse: after [_updateLineInfo], however it ends, the current
    document and the current line are as before, and a parse result that
    was cached is still the cached one. Without a current document or a
    current line the whole store is as before. *)
Theorem resolve_keeps_cursor_and_parse host s :
  let s' := (_updateLineInfo host s).2 in
  cursor s' = cursor s
  ∧ (∀ parseResult,
       _parseResult s = Some parseResult →
       _parseResult s' = Some parseResult)
  ∧ (_currentDocument s = None ∨ _currentLine s = None → s' = s).
Proof.
  intros s'. subst s'. split; [apply keeps_updateLineInfo|]. split.
  - intros parseResult Hp. unfold _updateLineInfo. step.
    destruct (_currentDocument s) as [d|]; [|done].
    destruct (_currentLine s) as [L|]; [|done]. step.
    destruct (Editor.lineAt (documents s d) L) as [raw|err]; step; [|done].
    destruct (endsWith _ _).
    + pose proof (keepsParse_updateSmilesJS host d L (trim raw) s) as Hk.
      destruct (updateSmilesJS host d L (trim raw) s) as [[[]|err] s1];
        cbn [snd _parseResult add_effect] in *; by rewrite Hk.
    + unfold updateSelfies. step. rewrite Hp. step.
      destruct (_ || _); [done|]. by destruct (List.find _ _).
  - unfold _updateLineInfo. step. intros [-> | Hl]; [done|].
    destruct (_currentDocument s); [|done]. by rewrite Hl.
Qed.

Lemma resolve_keeps_cursor_and_parse_witness :
  let s := parsedStore 4 in
  let s' := (_updateLineInfo (hostWith editedParse 9 (Ok water)) s).2 in
  _parseResult s' = Some sampleParse
  ∧ (_updateLineInfo (sampleHost 9 (Ok water)) (newTracker sampleDocuments)).2
    = newTracker sampleDocuments.
Proof.
  intros s s'. split.
  - by apply (resolve_keeps_cursor_and_parse
                (hostWith editedParse 9 (Ok water)) (parsedStore 4)).
  - apply (resolve_keeps_cursor_and_parse (sampleHost 9 (Ok water))
             (newTracker sampleDocuments)).
    by left.
Defined.

Lemma updateSelfies_event host s d L raw parseResult :
  SelfiesCursor host s d L raw parseResult →
  _updateLineInfo host s
  = (Ok tt,
     add_effect (Fire (selfiesEvent host parseResult L raw))
       (set_parseResult (Some parseResult) s)).
Proof. apply updateSelfies_fires. Qed.

(** X3. A change of the attached DSL document drops the cached parse:
    the document is parsed again, the new parse is stored and the fired
    event is computed from it. A change of a document with another uri
    leaves the tracker as it is. *)
Theorem document_change_reparses host s d other L raw fresh :
  _currentDocument s = Some d →
  _currentLine s = Some L →
  Editor.isSupportedFile (documents s d) = true →
  endsWith (Editor.fileName (documents s d)) ".smiles.js" = false →
  Editor.uri (documents s d) ≠ "" →
  Editor.uri (documents s other) ≠ Editor.uri (documents s d) →
  Editor.lineAt (documents s d) L = Ok raw →
  loadWithImports (engine host) (Editor.getText (documents s d))
    (Editor.fsPath (documents s d)) = Ok fresh →
  let s' := (onDidChangeTextDocument host d s).2 in
  _parseResult s' = Some fresh
  ∧ fired s' = fired s ++ [selfiesEvent host fresh L raw]
  ∧ (onDidChangeTextDocument host other s).2 = s.
Proof.
  intros Hd Hl Hsup Hk Huri Hother Ht Hp s'. subst s'.
  unfold onDidChangeTextDocument, _handleDocumentChange. step.
  rewrite Hd. apply String.eqb_neq in Huri, Hother.
  rewrite Huri, Hother, String.eqb_refl. cbn [negb andb snd]. step.
  rewrite Hsup. cbn [negb]. step.
  rewrite (updateSelfies_event host (set_parseResult None s) d L raw fresh)
    by (by split).
  cbn [snd]. by rewrite fired_add_fire.
Qed.

(** X4. On an editor switch to a supported DSL document the cursor
    moves to that document and the line of its first selection. The
    cached parse is used again when the tracker was already attached to
    this document, and replaced by a fresh parse when the document is
    another one. *)
Theorem editor_switch_parse_cache host s editor raw cached fresh :
  let d := document editor in
  let L := Editor.line (selections0_active editor) in
  Editor.isSupportedFile (documents s d) = true →
  endsWith (Editor.fileName (documents s d)) ".smiles.js" = false →
  Editor.lineAt (documents s d) L = Ok raw →
  _parseResult s = Some cached →
  loadWithImports (engine host) (Editor.getText (documents s d))
    (Editor.fsPath (documents s d)) = Ok fresh →
  let s' := (onDidChangeActiveTextEditor host (Some editor) s).2 in
  let used :=
    if bool_decide (_currentDocument s = Some d) then cached else fresh in
  cursor s' = (Some d, Some L)
  ∧ _parseResult s' = Some used
  ∧ fired s' = fired s ++ [selfiesEvent host used L raw].
Proof.
  intros d L Hsup Hk Ht Hc Hp s' used. subst s' used.
  unfold onDidChangeActiveTextEditor. step. fold d. rewrite Hsup.
  destruct (bool_decide (_currentDocument s = Some d)) eqn:Hb;
    cbn [negb]; step.
  - apply bool_decide_eq_true_1 in Hb. fold L.
    rewrite (updateSelfies_event host (set_currentLine (Some L) s) d L raw
               cached)
      by (split; try done; unfold parseOf;
          cbn [_parseResult set_currentLine]; by rewrite Hc).
    cbn [snd]. rewrite fired_add_fire. unfold cursor; simpl. by rewrite Hb.
  - fold L.
    rewrite (updateSelfies_event host
               (set_currentLine (Some L)
                  (set_currentDocument (Some d) (set_parseResult None s)))
               d L raw fresh) by (by split).
    cbn [snd]. by rewrite fired_add_fire.
Qed.

(** X5. At the end of the constructor, with an active editor on a
    supported document the tracker is attached to the document and the
    line of the editor's cursor and has fired exactly one event; with
    no active editor, or one on an unsupported document, the tracker
    stays as constructed: detached and silent. *)
Theorem constructor_attaches host documents :
  let s := (initialize host (newTracker documents)).2 in
  match activeTextEditor host with
  | Some editor =>
      if Editor.isSupportedFile (documents (document editor)) then
        cursor s
        = (Some (document editor),
           Some (Editor.line (selections0_active editor)))
        ∧ length (fired s) = 1%nat
      else s = newTracker documents
  | None => s = newTracker documents
  end.
Proof.
  intros s. subst s. unfold initialize.
  destruct (activeTextEditor host) as [editor|]; [|done]. step.
  cbn [LineTracker.documents newTracker].
  destruct (Editor.isSupportedFile (documents (document editor))) eqn:Hsup;
    [|done].
  step. unfold _handleSelectionChange. cbn [textEditor]. step.
  cbn [LineTracker.documents set_currentDocument newTracker].
  rewrite Hsup. cbn [negb]. step.
  cbn [_currentLine set_currentDocument newTracker bool_decide].
  cbn [ev_selections0_active]. rewrite bool_decide_eq_false_2 by done.
  cbn [negb]. cbv beta.
  set (s0 := set_currentLine _ _).
  pose proof (keeps_updateLineInfo host s0) as Hc.
  destruct (updateLineInfo_once host s0 _ _ eq_refl eq_refl)
    as (s' & Hs' & [info Hr]).
  rewrite Hs' in Hc |- *. cbn [snd] in *.
  split; [by rewrite Hc|]. by rewrite Hr.
Qed.

(** X6. A resolve on a DSL document only reads: it edits and saves no
    document, leaves the Module Cache as it is, and its only effect is
    the one fired event. *)
Theorem selfies_resolve_is_read_only host s d L :
  _currentDocument s = Some d →
  _currentLine s = Some L →
  endsWith (Editor.fileName (documents s d)) ".smiles.js" = false →
  let s' := (_updateLineInfo host s).2 in
  documents s' = documents s
  ∧ _smilesModuleCache s' = _smilesModuleCache s
  ∧ ∃ info, effects s' = effects s ++ [Fire info].
Proof.
  intros Hd Hl Hk s'. subst s'. unfold _updateLineInfo, updateSelfies. step.
  rewrite Hd, Hl, Hk. step.
  destruct (Editor.lineAt (documents s d) L) as [raw|err]; step;
    [|by eauto].
  destruct (_parseResult s) as [cached|];
    [|destruct (loadWithImports _ _ _) as [parsed|err]]; step;
    try (by eauto);
    destruct (_ || _); try (by eauto);
    destruct (List.find _ _); by eauto.
Qed.

(** X7. On a declaration line of a build-format document, a cache miss
    whose import throws empties the Module Cache and fires the line's
    name and trimmed text with the load's error message in the error
    field and no notation; an empty message fires null. *)
Theorem load_failure_fires_error host s d L raw constInfo mtimeMs resolved err :
  SmilesJSCursor s d L raw →
  isStatementLine raw = true →
  _findConstAtLine (Editor.getText (documents s d)) L = Some constInfo →
  let filePath := Editor.fileName (documents s d) in
  statSync_mtimeMs host filePath = Ok mtimeMs →
  _smilesModuleCache s !! cacheKey filePath mtimeMs = None →
  requireResolve host filePath = Ok resolved →
  dynamicImport host (importUrl host filePath) = Throw err →
  let s' := (_updateLineInfo host s).2 in
  _smilesModuleCache s' = ∅
  ∧ fired s'
    = fired s
      ++ [if String.eqb (errorMessage err) "" then None
          else Some (mkLineInfo L (VString (c_name constInfo))
                       (VString (trim raw)) VUndefined VUndefined VUndefined
                       VUndefined (VString (errorMessage err)))].
Proof.
  intros Hc Hstmt Hfind filePath Hstat Hmiss Hres Himp s'. subst s'.
  rewrite (updateSmilesJS_fires _ _ _ _ _ _ Hc Hstmt Hfind). fold filePath.
  rewrite (load_miss host filePath _ mtimeMs Hstat)
    by (by rewrite afterAutoExport_cache).
  rewrite Hres, Himp. cbn [snd]. split; [done|].
  rewrite fired_add_fire, fired_after, afterAutoExport_fired.
  2:{ intros e Hin info ->. simpl in Hin.
      repeat (destruct Hin as [Hin|Hin]; [discriminate Hin|]). destruct Hin. }
  unfold exportLine. cbn [load_error module truthy].
  by destruct (String.eqb (errorMessage err) "").
Qed.

Lemma at_most_one_entry (c : gmap string Exports) k1 m k2 :
  (size c ≤ 1)%nat → c !! k1 = Some m → k2 ≠ k1 → c !! k2 = None.
Proof.
  intros Hsize Hk1 Hne.
  assert (delete k1 c = ∅) as Hempty.
  { apply map_size_empty_iff. rewrite map_size_delete_Some by eauto. lia. }
  rewrite <- (lookup_delete_ne c k1 k2) by done. by rewrite Hempty.
Qed.

Lemma load_outcomes host filePath s :
  let out := _loadSmilesModule host filePath s in
  (∃ err, out = (Throw err, s))
  ∨ (∃ mtimeMs exports,
       statSync_mtimeMs host filePath = Ok mtimeMs
       ∧ out.1 = Ok (mkLoadResult (Some exports) VNull)
       ∧ _smilesModuleCache out.2 !! cacheKey filePath mtimeMs = Some exports
       ∧ (_smilesModuleCache out.2 = _smilesModuleCache s
          ∨ _smilesModuleCache out.2
            = {[cacheKey filePath mtimeMs := exports]}))
  ∨ (∃ msg, out.1 = Ok (mkLoadResult None (VString msg))
            ∧ _smilesModuleCache out.2 = ∅).
Proof.
  intros out. subst out.
  destruct (statSync_mtimeMs host filePath) as [t|err] eqn:Hstat.
  2:{ left. exists err. by apply load_stat_throws. }
  destruct (_smilesModuleCache s !! cacheKey filePath t) as [m|] eqn:Hk.
  { right; left. exists t, m. rewrite (load_hit _ _ _ _ _ Hstat Hk).
    cbn [fst snd]. auto. }
  rewrite (load_miss _ _ _ _ Hstat Hk).
  destruct (requireResolve host filePath) as [resolved|err];
    [destruct (dynamicImport host (importUrl host filePath)) as [m|err]|].
  - right; left. exists t, m. cbn [fst snd after _smilesModuleCache].
    rewrite lookup_singleton_eq. auto.
  - right; right. by eexists.
  - right; right. by eexists.
Qed.

(** X8. The Module Cache remembers one load. After a successful load
    of [p1] at modification time [t1], a load of [p2] at [t2] is served
    from the cache, with the same exports and no effect, when the path
    and the time are the same, and imports the file otherwise. *)
Theorem single_slot_cache host1 host2 p1 p2 s0 exports t1 t2 resolved :
  (size (_smilesModuleCache s0) ≤ 1)%nat →
  statSync_mtimeMs host1 p1 = Ok t1 →
  (_loadSmilesModule host1 p1 s0).1 = Ok (mkLoadResult (Some exports) VNull) →
  statSync_mtimeMs host2 p2 = Ok t2 →
  requireResolve host2 p2 = Ok resolved →
  let s1 := (_loadSmilesModule host1 p1 s0).2 in
  let out := _loadSmilesModule host2 p2 s1 in
  if bool_decide (p2 = p1 ∧ t2 = t1)
  then out = (Ok (mkLoadResult (Some exports) VNull), s1)
  else ∃ tail,
         effects out.2 = effects s1 ++ Import (importUrl host2 p2) :: tail.
Proof.
  intros Hsize Hstat1 Hload Hstat2 Hres s1 out. subst out s1.
  destruct (load_outcomes host1 p1 s0)
    as [[err H]|[(t & m & Ht & Hr & Hk & Hc)|(msg & Hr & _)]];
    [by rewrite H in Hload| |by rewrite Hr in Hload].
  rewrite Hstat1 in Ht. injection Ht as <-.
  rewrite Hr in Hload. injection Hload as ->.
  set (s1 := (_loadSmilesModule host1 p1 s0).2) in *.
  assert ((size (_smilesModuleCache s1) ≤ 1)%nat) as Hsize1.
  { destruct Hc as [-> | ->]; [done|]. by rewrite map_size_singleton. }
  case_bool_decide as Hsame.
  - destruct Hsame as [-> ->]. exact (load_hit _ _ _ _ _ Hstat2 Hk).
  - assert (_smilesModuleCache s1 !! cacheKey p2 t2 = None) as Hmiss.
    { apply (at_most_one_entry _ _ _ _ Hsize1 Hk).
      intros Heq. apply cacheKey_inj in Heq. tauto. }
    rewrite (load_miss _ _ _ _ Hstat2 Hmiss), Hres.
    destruct (dynamicImport host2 (importUrl host2 p2)); by eexists.
Qed.

(** X9. A failed load is not cached: it leaves the Module Cache empty,
    so the next load of any file imports it. *)
Theorem failed_load_clean_retry host1 host2 p1 p2 s0 msg t2 resolved :
  (_loadSmilesModule host1 p1 s0).1 = Ok (mkLoadResult None msg) →
  statSync_mtimeMs host2 p2 = Ok t2 →
  requireResolve host2 p2 = Ok resolved →
  let s1 := (_loadSmilesModule host1 p1 s0).2 in
  let out := _loadSmilesModule host2 p2 s1 in
  _smilesModuleCache s1 = ∅
  ∧ ∃ tail,
      effects out.2 = effects s1 ++ Import (importUrl host2 p2) :: tail.
Proof.
  intros Hload Hstat2 Hres s1 out. subst out s1.
  destruct (load_outcomes host1 p1 s0)
    as [[err H]|[(t & m & Ht & Hr & Hk & Hc)|(msg' & Hr & Hempty)]];
    [by rewrite H in Hload|by rewrite Hr in Hload|].
  split; [done|].
  rewrite (load_miss _ _ _ _ Hstat2) by (by rewrite Hempty).
  rewrite Hres.
  destruct (dynamicImport host2 (importUrl host2 p2)); by eexists.
Qed.

Section Messages.
Local Arguments String.append !_ _ / : simpl nomatch.

Lemma execFirst_Some {A} (matchAt : string → option A) s a :
  execFirst matchAt s = Some a → ∃ n, matchAt (drop n s) = Some a.
Proof.
  induction s as [|c s IH]; simpl.
  - destruct (matchAt "") eqn:H; [|done]. intros [= ->]. by exists 0%nat.
  - destruct (matchAt (String c s)) eqn:H.
    + intros [= ->]. by exists 0%nat.
    + intros [n Hn]%IH. by exists (S n).
Qed.

Lemma lineColumnPattern_needs_colon s :
  noColon s = true → execFirst lineColumnPattern s = None.
Proof.
  unfold noColon. induction s as [|c s IH]; simpl; [done|].
  intros [Hc Hs]%negb_true_iff%orb_false_elim.
  unfold lineColumnPattern at 1.
  change (stripPrefix ":" (String c s))
    with (if Ascii.eqb ":" c then Some s else None).
  rewrite Ascii.eqb_sym, Hc. apply IH. by rewrite Hs.
Qed.

Lemma lineColumnPattern_iff t ds :
  lineColumnPattern t = Some ds ↔ lineColumn t ds.
Proof.
  unfold lineColumnPattern, lineColumn. split.
  - destruct (stripPrefix ":" t) as [r1|] eqn:H1; [|done].
    destruct (span isDigit r1) as [ds' r2] eqn:Hsp.
    destruct (String.eqb_spec ds' ""); [done|].
    destruct (stripPrefix ":" r2) as [[|d r3]|] eqn:H2; try done.
    destruct (isDigit d) eqn:Hd; [|done]. intros [= <-].
    exists d, r3.
    pose proof (span_all _ _ _ _ Hsp).
    apply stripPrefix_append in H1, H2. apply span_append in Hsp.
    by rewrite H1, Hsp, H2.
  - intros (d & post & -> & Hne & Hds & Hd).
    change (stripPrefix ":" (":" +:+ ds +:+ ":" +:+ String d post))
      with (Some (ds +:+ String ":"%char (String d post))).
    cbv beta iota.
    rewrite (span_stop isDigit ds (String ":"%char (String d post)) Hds)
      by done.
    destruct (String.eqb_spec ds ""); [done|].
    cbn [stripPrefix Ascii.eqb Bool.eqb]. by rewrite Hd.
Qed.

Lemma execFirst_first {A} (matchAt : string → option A) n : ∀ s a,
  (∀ j, (j < n)%nat → matchAt (drop j s) = None) →
  matchAt (drop n s) = Some a → execFirst matchAt s = Some a.
Proof.
  induction n as [|n IH]; intros s a Hbefore Hn.
  - destruct s; cbn [drop execFirst] in *; by rewrite Hn.
  - destruct s as [|c r]; cbn [drop] in Hn.
    + cbn [execFirst]. by rewrite Hn.
    + cbn [execFirst].
      rewrite (Hbefore 0%nat ltac:(lia) : matchAt (String c r) = None).
      apply IH; [|done]. intros j Hj. apply (Hbefore (S j)). lia.
Qed.

Lemma execFirst_nowhere {A} (matchAt : string → option A) s :
  (∀ j, matchAt (drop j s) = None) → execFirst matchAt s = None.
Proof.
  induction s as [|c r IH]; intros Hnone; cbn [execFirst].
  - by rewrite (Hnone 0%nat : matchAt "" = None).
  - rewrite (Hnone 0%nat : matchAt (String c r) = None).
    apply IH. intros j. apply (Hnone (S j)).
Qed.

Lemma firstLineColumn_match text ds :
  firstLineColumn text ds → execFirst lineColumnPattern text = Some ds.
Proof.
  intros (pre & t & -> & Ht & Hbefore).
  apply (execFirst_first _ (String.length pre)).
  - intros j Hj.
    destruct (lineColumnPattern (drop j (pre +:+ t))) as [ds'|] eqn:H;
      [|done].
    apply lineColumnPattern_iff in H. by destruct (Hbefore j ds' Hj).
  - rewrite drop_append. by apply lineColumnPattern_iff.
Qed.

Lemma noLineColumn_match text :
  noLineColumn text → execFirst lineColumnPattern text = None.
Proof.
  intros Hnone. apply execFirst_nowhere. intros j.
  destruct (lineColumnPattern (drop j text)) as [ds'|] eqn:H; [|done].
  apply lineColumnPattern_iff in H. by destruct (Hnone j ds').
Qed.

(** X10. The error message of a failed load carries the line that the
    exception tells: when the stack holds a colon, digits, a colon and a
    digit, the digits of the first such place are the line; when the
    stack holds no such place (or is missing) and the message does, the
    line is taken from the message; the error message is then [Line ],
    the digits, a colon, a space and the exception's message. When
    neither holds such a place, it is the exception's message. *)
Theorem errorMessage_shape err line :
  located err line →
  errorMessage err
  = match line with
    | Some ds => "Line " +:+ ds +:+ ": " +:+ message err
    | None => message err
    end.
Proof.
  unfold errorMessage, lineMatch.
  intros [st ds Hst Hfirst|ds Hstack Hfirst|Hstack Hmessage].
  - by rewrite Hst, (firstLineColumn_match _ _ Hfirst).
  - rewrite (firstLineColumn_match _ _ Hfirst).
    destruct (stack err) as [st|]; [|done]. simpl in Hstack.
    by rewrite (noLineColumn_match _ Hstack).
  - rewrite (noLineColumn_match _ Hmessage).
    destruct (stack err) as [st|]; [|done]. simpl in Hstack.
    by rewrite (noLineColumn_match _ Hstack).
Qed.

Lemma errorMessage_shape_witness :
  errorMessage
    (mkError "Unexpected token" (Some "file:///m.smiles.js:12:3"))
  = "Line 12: Unexpected token".
Proof.
  apply (errorMessage_shape
           (mkError "Unexpected token" (Some "file:///m.smiles.js:12:3"))
           (Some "12")).
  apply (in_stack _ "file:///m.smiles.js:12:3"); [reflexivity|].
  exists "file:///m.smiles.js", ":12:3".
  split; [reflexivity|]. split.
  - exists "3"%char, "". by repeat split.
  - intros j ds' Hj H. apply lineColumnPattern_iff in H.
    do 19 (destruct j as [|j]; [discriminate H|]).
    simpl in Hj. lia.
Defined.

(** X11. An exception whose message and stack hold no colon is
    reported with its message unchanged. *)
Theorem errorMessage_plain err :
  noColon (message err) = true →
  noColon (default "" (stack err)) = true →
  errorMessage err = message err.
Proof.
  intros Hmsg Hst. unfold errorMessage, lineMatch.
  destruct (stack err) as [st|]; simpl in Hst.
  - by rewrite (lineColumnPattern_needs_colon st Hst),
      (lineColumnPattern_needs_colon _ Hmsg).
  - by rewrite (lineColumnPattern_needs_colon _ Hmsg).
Qed.

Lemma errorMessage_plain_witness :
  errorMessage (mkError "Unexpected token" (Some "SyntaxError"))
  = "Unexpected token".
Proof.
  apply (errorMessage_plain (mkError "Unexpected token" (Some "SyntaxError")));
    reflexivity.
Defined.

Lemma join_empty_cons p ps : join "" (p :: ps) = p +:+ join "" ps.
Proof. destruct ps; simpl; [by rewrite append_nil_r|done]. Qed.

(** X12. [_formatTokens] is a concatenation: it distributes over the
    append of token lists, and plain string tokens are glued together
    with no separator. *)
Theorem formatTokens_concatenates tokens more strings :
  _formatTokens (tokens ++ more)
  = _formatTokens tokens +:+ _formatTokens more
  ∧ _formatTokens (map TString strings) = foldr String.append "" strings.
Proof.
  unfold _formatTokens. split.
  - induction tokens as [|t ts IH]; [done|].
    cbn [map app]. by rewrite !join_empty_cons, IH, append_assoc.
  - induction strings as [|x xs IH]; [done|].
    cbn [map foldr]. by rewrite join_empty_cons, IH.
Qed.

End Messages.

Lemma document_change_reparses_witness :
  let host := hostWith editedParse 9 (Ok water) in
  let s' := (onDidChangeTextDocument host 1 (parsedStore 4)).2 in
  _parseResult s' = Some editedParse
  ∧ fired s' = [selfiesEvent host editedParse 4 "[methyl] = [C]"]
  ∧ (onDidChangeTextDocument host 0 (parsedStore 4)).2 = parsedStore 4.
Proof.
  apply (document_change_reparses (hostWith editedParse 9 (Ok water))
           (parsedStore 4) 1 0 4 "[methyl] = [C]" editedParse);
    try reflexivity; vm_compute; discriminate.
Defined.

Lemma editor_switch_parse_cache_witness :
  let host := hostWith editedParse 9 (Ok water) in
  let s' :=
    (onDidChangeActiveTextEditor host
       (Some (mkTextEditor 1 (Editor.mkPosition 5 0))) (parsedStore 4)).2 in
  cursor s' = (Some 1%nat, Some 5%nat)
  ∧ _parseResult s' = Some sampleParse
  ∧ fired s'
    = [selfiesEvent host sampleParse 5 "[ethyl] = [C]repeat([C], 1)"].
Proof.
  apply (editor_switch_parse_cache (hostWith editedParse 9 (Ok water))
           (parsedStore 4) (mkTextEditor 1 (Editor.mkPosition 5 0))
           "[ethyl] = [C]repeat([C], 1)" sampleParse editedParse);
    reflexivity.
Defined.

Lemma selfies_resolve_is_read_only_witness :
  let s := attachedStore 1 4 in
  let s' := (_updateLineInfo (sampleHost 9 (Ok water)) s).2 in
  documents s' = documents s
  ∧ _smilesModuleCache s' = _smilesModuleCache s
  ∧ ∃ info, effects s' = effects s ++ [Fire info].
Proof.
  apply (selfies_resolve_is_read_only (sampleHost 9 (Ok water))
           (attachedStore 1 4) 1 4); reflexivity.
Defined.

Lemma load_failure_fires_error_witness :
  let host := sampleHost 9 (Throw (mkError "water is not defined" None)) in
  let s' := (_updateLineInfo host (attachedStore 0 1)).2 in
  _smilesModuleCache s' = ∅
  ∧ fired s'
    = [Some (mkLineInfo 1 (VString "water")
               (VString "export const water = Fragment('O')") VUndefined
               VUndefined VUndefined VUndefined
               (VString "water is not defined"))].
Proof.
  apply (load_failure_fires_error
           (sampleHost 9 (Throw (mkError "water is not defined" None)))
           (attachedStore 0 1) 0 1 "export const water = Fragment('O')"
           (mkConstInfo "water" false None) 9 "/m.smiles.js"
           (mkError "water is not defined" None));
    [by split|reflexivity..].
Defined.

Lemma single_slot_cache_witness :
  let host := sampleHost 9 (Ok water) in
  let s1 := (_loadSmilesModule host "/m.smiles.js" warmStore).2 in
  _loadSmilesModule host "/m.smiles.js" s1
  = (Ok (mkLoadResult (Some water) VNull), s1).
Proof.
  apply (single_slot_cache (sampleHost 9 (Ok water)) (sampleHost 9 (Ok water))
           "/m.smiles.js" "/m.smiles.js" warmStore water 9 9 "/m.smiles.js");
    [vm_compute; lia|reflexivity..].
Defined.

Lemma failed_load_clean_retry_witness :
  let host1 := sampleHost 9 (Throw (mkError "boom" None)) in
  let host2 := sampleHost 9 (Ok water) in
  let s1 := (_loadSmilesModule host1 "/m.smiles.js" warmStore).2 in
  let out := _loadSmilesModule host2 "/m.smiles.js" s1 in
  _smilesModuleCache s1 = ∅
  ∧ ∃ tail,
      effects out.2
      = effects s1 ++ Import (importUrl host2 "/m.smiles.js") :: tail.
Proof.
  apply (failed_load_clean_retry
           (sampleHost 9 (Throw (mkError "boom" None)))
           (sampleHost 9 (Ok water)) "/m.smiles.js" "/m.smiles.js" warmStore
           (VString "boom") 9 "/m.smiles.js"); reflexivity.
Defined.

End TrackerMore.
(** ** More on the refactor command *)
Module RefactorMore.
Import StringSpec StringFacts Regex Refactor RefactorSpec RefactorMoreSpec.

Section Command.
Local Arguments String.append !_ _ / : simpl nomatch.

Lemma prefix_includes a : ∀ b s,
  String.prefix (a +:+ b) s = true → includes s b = true.
Proof.
  induction a as [|c a IH]; intros b s; cbn [String.append].
  - intros H. destruct s; cbn [includes]; by rewrite H.
  - destruct s as [|d s]; [done|]. cbn [String.prefix includes].
    destruct (Ascii.ascii_dec c d); [|done].
    intros H. rewrite (IH _ _ H). apply orb_true_r.
Qed.

Lemma includes_suffix a b s :
  includes s (a +:+ b) = true → includes s b = true.
Proof.
  induction s as [|d s IH]; cbn [includes].
  - rewrite orb_false_r. apply (prefix_includes a b "").
  - intros [H|H]%orb_prop.
    + exact (prefix_includes a b (String d s) H).
    + rewrite (IH H). apply orb_true_r.
Qed.

Lemma List_filter_sublist {A} (f : A → bool) l : sublist (List.filter f l) l.
Proof.
  induction l as [|x l IH]; simpl; [constructor|].
  destruct (f x); by constructor.
Qed.

Lemma prefix_text p : ∀ s,
  String.prefix p s = true ↔ ∃ post, s = p +:+ post.
Proof.
  induction p as [|c p IH]; intros s.
  - split; [intros _; by exists s|by destruct s].
  - destruct s as [|d s]; cbn [String.prefix String.append].
    + split; [done|by intros [post H]].
    + destruct (Ascii.ascii_dec c d) as [->|Hcd].
      * rewrite IH. split; intros [post H]; exists post; congruence.
      * split; [done|]. intros [post H]. congruence.
Qed.

Lemma includes_text s p :
  includes s p = true ↔ ∃ pre post, s = pre +:+ p +:+ post.
Proof.
  induction s as [|c s IH]; cbn [includes].
  - rewrite orb_false_r, prefix_text. split.
    + intros [post H]. by exists "", post.
    + intros (pre & post & H). destruct pre; [by exists post|done].
  - rewrite orb_true_iff, prefix_text, IH. split.
    + intros [[post H]|(pre & post & H)].
      * by exists "", post.
      * exists (String c pre), post. cbn [String.append]. by rewrite H.
    + intros ([|d pre] & post & H); cbn [String.append] in H.
      * left. by exists post.
      * right. exists pre, post. congruence.
Qed.

(** X13. [extractUsedConstructors] reports a constructor exactly when
    it is one of Ring, Linear, FusedRing and Molecule and the code holds
    its name followed by an opening parenthesis; they come in this fixed
    order, each at most once. Since the text [FusedRing(] contains
    [Ring(], code that uses FusedRing is always reported as using Ring
    too. *)
Theorem used_constructors code :
  sublist (extractUsedConstructors code)
    ["Ring"; "Linear"; "FusedRing"; "Molecule"]
  ∧ (∀ c, c ∈ extractUsedConstructors code
          ↔ c ∈ ["Ring"; "Linear"; "FusedRing"; "Molecule"]
            ∧ ∃ pre post, code = pre +:+ (c +:+ "(") +:+ post)
  ∧ ("FusedRing" ∈ extractUsedConstructors code →
     "Ring" ∈ extractUsedConstructors code).
Proof.
  unfold extractUsedConstructors. split; [apply List_filter_sublist|].
  split.
  - intros c. by rewrite !list_elem_of_In, filter_In, includes_text.
  - rewrite !list_elem_of_In, !filter_In. intros [_ H]. split.
    + by left.
    + by apply (includes_suffix "Fused").
Qed.

Lemma used_constructors_witness :
  "Ring" ∈ extractUsedConstructors "const x = FusedRing(a, b);".
Proof.
  destruct (used_constructors "const x = FusedRing(a, b);") as (_ & _ & H).
  apply H. apply list_elem_of_In. vm_compute. auto.
Defined.

Lemma missing_nil_iff (needed : list string) (existing : gset string) :
  List.filter (λ c, negb (bool_decide (c ∈ existing))) needed = []
  ↔ ∀ c, c ∈ needed → c ∈ existing.
Proof.
  induction needed as [|c l IH]; simpl.
  - split; [intros _ c H; by apply elem_of_nil in H|done].
  - case_bool_decide as Hc; simpl.
    + rewrite IH. split.
      * intros H x [->|Hx]%elem_of_cons; auto.
      * intros H x Hx. apply H. by right.
    + split; [done|]. intros H. destruct Hc. apply H. by left.
Qed.

Lemma generateImportStatement_None needed existing :
  generateImportStatement needed existing = None
  ↔ ∀ c, c ∈ needed → c ∈ existing.
Proof.
  rewrite <- missing_nil_iff. unfold generateImportStatement.
  destruct (List.filter _ needed); simpl; split; done.
Qed.

(** X14. [generateImportStatement] gives no statement exactly when
    every needed constructor is already imported. *)
Theorem import_statement_when_missing needed existing :
  generateImportStatement needed existing = None
  ↔ ∀ c, c ∈ needed → c ∈ existing.
Proof. apply generateImportStatement_None. Qed.

Lemma lastImport_no_import pre : ∀ rest i,
  Forall (λ l, isImportLine l = false) pre →
  lastImport (pre ++ rest) i (-1)
  = lastImport rest (i + length pre)%nat (-1).
Proof.
  induction pre as [|l pre IH]; intros rest i Hpre; cbn [app lastImport].
  - by rewrite Nat.add_0_r.
  - inversion_clear Hpre as [|?? Hl Hrest]. unfold isImportLine in Hl.
    rewrite Hl. cbn [Z.leb Z.compare Z.opp andb]. rewrite andb_false_r.
    rewrite (IH _ _ Hrest). f_equal. simpl. lia.
Qed.

Lemma lastImport_no_code mid : ∀ rest i last,
  Forall (λ l, isOtherCode l = false) mid →
  ∃ last', lastImport (mid ++ rest) i last
           = lastImport rest (i + length mid)%nat last'.
Proof.
  induction mid as [|l mid IH]; intros rest i last Hmid; cbn [app lastImport].
  - exists last. by rewrite Nat.add_0_r.
  - inversion_clear Hmid as [|?? Hl Hrest]. unfold isOtherCode, isImportLine in Hl.
    destruct (startsWith (trim l) "import ").
    + destruct (IH rest (S i) (Z.of_nat i) Hrest) as [last' ->].
      exists last'. f_equal. simpl. lia.
    + cbn [negb andb] in Hl. rewrite Hl. cbn [andb].
      destruct (IH rest (S i) last Hrest) as [last' ->].
      exists last'. f_equal. simpl. lia.
Qed.

Lemma lastImport_gap gap : ∀ rest i last,
  Forall (λ l, isImportLine l = false ∧ isOtherCode l = false) gap →
  lastImport (gap ++ rest) i last
  = lastImport rest (i + length gap)%nat last.
Proof.
  induction gap as [|l gap IH]; intros rest i last Hgap; cbn [app lastImport].
  - by rewrite Nat.add_0_r.
  - inversion_clear Hgap as [|?? [Hi Hl] Hrest].
    unfold isOtherCode in Hl. rewrite Hi in Hl. unfold isImportLine in Hi.
    rewrite Hi. cbn [negb andb] in Hl. rewrite Hl. cbn [andb].
    rewrite (IH _ _ _ Hrest). f_equal. simpl. lia.
Qed.

(** X15. [findImportInsertPosition] is the line after the last import
    of the first import block: when the lines are some lines without
    import, then lines none of which is other code, then an import, then
    blank or comment lines, and then the end of the text or a line of
    other code, the position is the line after that import, whatever
    follows. *)
Theorem import_position_after_block text pre mid imp gap tail :
  splitLines text = pre ++ mid ++ imp :: gap ++ tail →
  Forall (λ l, isImportLine l = false) pre →
  Forall (λ l, isOtherCode l = false) mid →
  isImportLine imp = true →
  Forall (λ l, isImportLine l = false ∧ isOtherCode l = false) gap →
  match tail with l :: _ => isOtherCode l = true | [] => True end →
  findImportInsertPosition text = (length pre + length mid + 1)%nat.
Proof.
  intros Hlines Hpre Hmid Himp Hgap Htail. unfold findImportInsertPosition.
  cbv zeta. rewrite Hlines, (lastImport_no_import _ _ _ Hpre).
  destruct (lastImport_no_code mid (imp :: gap ++ tail) (0 + length pre) (-1)
              Hmid) as [last' ->].
  cbn [lastImport]. unfold isImportLine in Himp. rewrite Himp.
  rewrite (lastImport_gap _ _ _ _ Hgap).
  destruct tail as [|l tail]; cbn [lastImport]; [lia|].
  unfold isOtherCode, isImportLine in Htail.
  destruct (startsWith (trim l) "import "); [done|].
  cbn [negb andb] in Htail. rewrite Htail. cbn [andb].
  destruct (Z.leb_spec 0 (Z.of_nat (0 + length pre + length mid))); lia.
Qed.

(** X16. Without an import line, [findImportInsertPosition] is the
    first line. *)
Theorem import_position_without_imports text :
  Forall (λ l, isImportLine l = false) (splitLines text) →
  findImportInsertPosition text = 0%nat.
Proof.
  intros H. unfold findImportInsertPosition. cbv zeta.
  rewrite <- (app_nil_r (splitLines text)).
  by rewrite (lastImport_no_import _ _ _ H).
Qed.

Lemma import_position_after_block_witness :
  findImportInsertPosition
    ("// header" +:+ Editor.nl +:+ "import a from 'a';" +:+ Editor.nl
     +:+ Editor.nl +:+ "import b from 'b';" +:+ Editor.nl
     +:+ "// note" +:+ Editor.nl +:+ "const x = 1" +:+ Editor.nl
     +:+ "import c from 'c';")
  = 4%nat.
Proof.
  apply (import_position_after_block _ ["// header"]
           ["import a from 'a';"; ""] "import b from 'b';" ["// note"]
           ["const x = 1"; "import c from 'c';"]);
    [reflexivity|by repeat constructor..|reflexivity| |reflexivity].
  by repeat constructor.
Defined.

Lemma import_position_without_imports_witness :
  findImportInsertPosition ("const x = 1" +:+ Editor.nl +:+ "// done")
  = 0%nat.
Proof.
  apply (import_position_without_imports
           ("const x = 1" +:+ Editor.nl +:+ "// done")).
  by repeat constructor.
Defined.

(** *** The generated import statement is read back *)

Lemma allChars_append p a b :
  allChars p (a +:+ b) = allChars p a && allChars p b.
Proof.
  induction a as [|c a IH]; cbn [String.append allChars]; [done|].
  by rewrite IH, andb_assoc.
Qed.

Lemma allChars_impl (p q : ascii → bool) s :
  (∀ c, p c = true → q c = true) → allChars p s = true → allChars q s = true.
Proof.
  intros Hpq. induction s as [|c s IH]; simpl; [done|].
  intros [Hc Hs]%andb_prop. by rewrite (Hpq _ Hc), IH.
Qed.

Lemma allChars_join p sep names :
  allChars p sep = true →
  Forall (λ c, allChars p c = true) names →
  allChars p (join sep names) = true.
Proof.
  intros Hsep. induction 1 as [|c l Hc Hl IH]; [done|].
  destruct l as [|c' l]; [done|].
  change (join sep (c :: c' :: l)) with (c +:+ sep +:+ join sep (c' :: l)).
  by rewrite !allChars_append, Hc, Hsep, IH.
Qed.

Lemma trimEnd_append n w :
  allChars (λ c, negb (isSpace c)) n = true →
  trimEnd (n +:+ w) = n +:+ trimEnd w.
Proof.
  induction n as [|c n IH]; cbn [String.append allChars trimEnd]; [done|].
  intros [Hc Hn]%andb_prop. apply negb_true_iff in Hc.
  rewrite (IH Hn), Hc. by destruct (n +:+ trimEnd w).
Qed.

Lemma trimStart_here n :
  match n with String c _ => isSpace c = false | EmptyString => True end →
  trimStart n = n.
Proof. destruct n as [|c n]; cbn [trimStart]; [done|]. by intros ->. Qed.

Lemma isWord_not_space c : isWord c = true → negb (isSpace c) = true.
Proof. by destruct c as [[] [] [] [] [] [] [] []]. Qed.

Lemma isWord_not_comma c :
  isWord c = true → negb (Ascii.eqb c ","%char) = true.
Proof. by destruct c as [[] [] [] [] [] [] [] []]. Qed.

Lemma isWord_not_brace c :
  isWord c = true → negb (Ascii.eqb c "}"%char) = true.
Proof. by destruct c as [[] [] [] [] [] [] [] []]. Qed.

Lemma trim_padded n w :
  wordName n = true → trimEnd w = "" → trim (" " +:+ n +:+ w) = n.
Proof.
  intros [Hn Hne]%andb_prop Hw. unfold trim.
  change (trimStart (" " +:+ n +:+ w)) with (trimStart (n +:+ w)).
  rewrite trimStart_here.
  - rewrite trimEnd_append, Hw, append_nil_r; [done|].
    by apply (allChars_impl isWord); [apply isWord_not_space|].
  - destruct n as [|c n]; [done|]. cbn [String.append].
    cbn [allChars] in Hn. apply andb_prop in Hn as [Hc _].
    by apply negb_true_iff, isWord_not_space.
Qed.

Lemma read_names names :
  names ≠ [] →
  Forall (λ c, wordName c = true) names →
  map trim (split ","%char (" " +:+ join ", " names +:+ " ")) = names.
Proof.
  intros Hne Hnames. induction Hnames as [|c l Hc Hl IH]; [done|].
  assert (allChars (λ x, negb (Ascii.eqb x ","%char)) c = true) as Hcomma.
  { apply andb_prop in Hc as [Hc _].
    by apply (allChars_impl isWord); [apply isWord_not_comma|]. }
  destruct l as [|c' l].
  - cbn [join]. rewrite split_plain.
    + cbn [map]. by rewrite trim_padded.
    + change (" " +:+ c +:+ " ") with (String " "%char (c +:+ " ")).
      cbn [allChars]. by rewrite allChars_append, Hcomma.
  - change (join ", " (c :: c' :: l))
      with (c +:+ ", " +:+ join ", " (c' :: l)).
    replace (" " +:+ (c +:+ ", " +:+ join ", " (c' :: l)) +:+ " ")
      with ((" " +:+ c)
            +:+ String ","%char (" " +:+ join ", " (c' :: l) +:+ " "))
      by (cbn [String.append]; by rewrite !append_assoc).
    destruct (split_first ","%char (" " +:+ join ", " (c' :: l) +:+ " "))
      as (x & xs & Hx).
    rewrite (split_append_plain _ _ _ "" (x :: xs)).
    + rewrite map_cons, <- Hx, IH by done. f_equal.
      rewrite append_assoc. exact (trim_padded c "" Hc eq_refl).
    + change (" " +:+ c) with (String " "%char c).
      cbn [allChars]. by rewrite Hcomma.
    + cbn [split]. by rewrite Hx.
Qed.

Lemma length_drop n : ∀ s,
  String.length (drop n s) = (String.length s - n)%nat.
Proof. induction n as [|n IH]; intros [|c s]; simpl; auto with lia. Qed.

Lemma importPattern_long s x :
  importPattern s = Some x → (6 ≤ String.length s)%nat.
Proof.
  unfold importPattern.
  destruct (stripPrefix "import" s) as [r1|] eqn:H; [|done]. intros _.
  apply stripPrefix_append in H. rewrite H, RoundTripProps.length_append. simpl. lia.
Qed.

Lemma execAll_none {A} (matchAt : string → option (nat * A)) s :
  ∀ index skip,
  (∀ n, (skip ≤ n)%nat → matchAt (drop n s) = None) →
  execAll matchAt s index skip = [].
Proof.
  induction s as [|c r IH]; intros index skip Hnone.
  - destruct skip; [|done]. cbn [execAll].
    by rewrite (Hnone 0%nat (le_n _) : matchAt "" = None).
  - destruct skip as [|k]; cbn [execAll].
    + rewrite (Hnone 0%nat (le_n _) : matchAt (String c r) = None).
      apply IH. intros n Hn. apply (Hnone (S n)). lia.
    + apply IH. intros n Hn. apply (Hnone (S n)). lia.
Qed.

Lemma importPattern_statement body :
  allChars (λ c, negb (Ascii.eqb c "}"%char)) body = true →
  let st := "import {" +:+ body +:+ "} from 'smiles-js';" +:+ Editor.nl in
  importPattern st
  = if String.eqb body "" then None
    else Some ((String.length st - 2)%nat, body).
Proof.
  intros Hbody st. subst st. unfold importPattern.
  cbn [String.append stripPrefix Ascii.eqb Bool.eqb span isSpace snd].
  rewrite (span_stop _ body _ Hbody) by done.
  destruct (String.eqb body ""); [done|].
  cbn [stripPrefix Ascii.eqb Bool.eqb span isSpace snd isQuote orb andb
         Editor.nl].
  reflexivity.
Qed.

Lemma elem_of_foldl_add (l : list string) : ∀ (X : gset string) c,
  c ∈ foldl (λ existing imp, existing ∪ {[imp]}) X l ↔ c ∈ X ∨ c ∈ l.
Proof.
  induction l as [|x l IH]; intros X c; cbn [foldl].
  - rewrite elem_of_nil. tauto.
  - rewrite IH, elem_of_union, elem_of_singleton, elem_of_cons. tauto.
Qed.

Lemma statement_read_back names :
  names ≠ [] →
  Forall (λ c, wordName c = true) names →
  ∀ c,
    c ∈ getExistingImports
          ("import { " +:+ join ", " names +:+ " } from 'smiles-js';"
           +:+ Editor.nl)
    ↔ c ∈ names.
Proof.
  intros Hne Hnames c.
  set (body := " " +:+ join ", " names +:+ " ").
  assert (allChars (λ c, negb (Ascii.eqb c "}"%char)) body = true) as Hbody.
  { subst body. change (allChars ?p (" " +:+ ?x)) with (allChars p x).
    rewrite allChars_append, andb_true_r.
    apply allChars_join; [done|].
    eapply Forall_impl; [exact Hnames|]. intros x [Hx _]%andb_prop.
    by apply (allChars_impl isWord); [apply isWord_not_brace|]. }
  replace ("import { " +:+ join ", " names +:+ " } from 'smiles-js';"
           +:+ Editor.nl)
    with ("import {" +:+ body +:+ "} from 'smiles-js';" +:+ Editor.nl)
    by (subst body; cbn [String.append]; by rewrite !append_assoc).
  pose proof (importPattern_statement body Hbody) as Hst. cbv zeta in Hst.
  change (String.eqb body "") with false in Hst.
  set (st := "import {" +:+ body +:+ "} from 'smiles-js';" +:+ Editor.nl) in *.
  unfold getExistingImports.
  assert (execAll importPattern st 0 0 = [(0%nat, body)]) as ->.
  { change st with (String "i"%char (drop 1 st)) at 1. cbn [execAll].
    change (String "i"%char (drop 1 st)) with st. rewrite Hst. f_equal.
    apply execAll_none. intros n Hn.
    destruct (importPattern (drop n (drop 1 st))) as [x|] eqn:Hx; [|done].
    apply importPattern_long in Hx. rewrite !length_drop in Hx. lia. }
  cbn [foldl]. subst body. rewrite (read_names _ Hne Hnames).
  rewrite elem_of_foldl_add, elem_of_empty. tauto.
Qed.

(** X17. The import statement generated for word names is read back by
    [getExistingImports] as exactly the names that were missing; so with
    the statement added to the known imports, nothing is missing any
    more. *)
Theorem generated_import_read_back needed existing st :
  Forall (λ c, wordName c = true) needed →
  generateImportStatement needed existing = Some st →
  (∀ c, c ∈ getExistingImports st ↔ c ∈ needed ∧ c ∉ existing)
  ∧ generateImportStatement needed (existing ∪ getExistingImports st) = None.
Proof.
  intros Hneeded Hst.
  assert (∀ c, c ∈ getExistingImports st ↔ c ∈ needed ∧ c ∉ existing) as H.
  { unfold generateImportStatement in Hst. cbv zeta in Hst.
    set (missing := List.filter _ needed) in *.
    assert (∀ x, x ∈ missing ↔ x ∈ needed ∧ x ∉ existing) as Hmissing.
    { intros x. subst missing.
      rewrite list_elem_of_In, filter_In, <- list_elem_of_In.
      by rewrite negb_true_iff, bool_decide_eq_false. }
    destruct (length missing =? 0)%nat eqn:Hlen; [done|].
    assert (st = "import { " +:+ join ", " missing +:+ " } from 'smiles-js';"
                 +:+ Editor.nl) as -> by congruence.
    intros c. rewrite statement_read_back; [apply Hmissing| |].
    - intros ->. done.
    - apply Forall_forall. intros x [Hx _]%Hmissing.
      by apply (proj1 (Forall_forall _ _) Hneeded). }
  split; [done|]. apply generateImportStatement_None. intros c Hc.
  destruct (decide (c ∈ existing)) as [Hin|Hout].
  - by apply elem_of_union_l.
  - by apply elem_of_union_r, H.
Qed.

Lemma generated_import_read_back_witness :
  getExistingImports ("import { Ring, Linear } from 'smiles-js';" +:+ Editor.nl)
  = {[ "Ring"; "Linear" ]}.
Proof.
  apply set_eq. intros c.
  destruct (generated_import_read_back ["Ring"; "Molecule"; "Linear"]
              {[ "Molecule" ]}
              ("import { Ring, Linear } from 'smiles-js';" +:+ Editor.nl))
    as [H _]; [by repeat constructor|reflexivity|].
  rewrite H, elem_of_union, !elem_of_singleton, !elem_of_cons, elem_of_nil.
  split.
  - intros [[->|[->|[->|[]]]] Hc]; auto. by destruct Hc.
  - intros [-> | ->]; (split; [auto|discriminate]).
Defined.



Lemma findExportAtLine_tracker text lineNumber :
  findExportAtLine text lineNumber
  = option_map
      (λ info, mkExportInfo (LineTracker.c_name info)
                 (LineTracker.needsExport info)
                 (LineTracker.constPosition info))
      (LineTracker._findConstAtLine text lineNumber).
Proof.
  unfold findExportAtLine, LineTracker._findConstAtLine. cbv zeta.
  destruct (splitLines text !! lineNumber) as [line|]; [|done].
  destruct (String.eqb line ""); [done|].
  destruct (execFirst exportConstPattern line); [done|].
  by destruct (constPattern line) as [[ws w]|].
Qed.

(** X19. The export marker that the refactor command inserts is
    recognised: in the text after the insert, [findExportAtLine] finds
    the same name on the same line as an exported declaration. *)
Theorem refactor_marker_recognised text lineNumber exportInfo :
  findExportAtLine text lineNumber = Some exportInfo →
  needsExport exportInfo = true →
  findExportAtLine
    (Editor.insert text (markerPosition lineNumber exportInfo) "export ")
    lineNumber
  = Some (mkExportInfo (e_name exportInfo) false None).
Proof.
  rewrite !findExportAtLine_tracker.
  destruct (LineTracker._findConstAtLine text lineNumber) as [info|] eqn:Hfind;
    [|done].
  intros [= <-] Hneeds. cbn [needsExport] in Hneeds.
  unfold markerPosition. cbn [constPosition e_name].
  by rewrite (TrackerMore.marker_recognised _ _ _ Hfind Hneeds).
Qed.

Lemma refactor_marker_recognised_witness :
  findExportAtLine
    (Editor.insert sampleText (Editor.mkPosition 1 0) "export ") 1
  = Some (mkExportInfo "water" false None).
Proof.
  apply (refactor_marker_recognised sampleText 1
           (mkExportInfo "water" true (Some 0%nat))); reflexivity.
Defined.

End Command.

End RefactorMore.
(** ** Facts on the backtracking patterns *)
Module BacktrackFacts.
Import StringSpec StringFacts Regex Backtrack.

Section Combinators.
Local Arguments String.append !_ _ / : simpl nomatch.
Context {A : Type}.
Implicit Types (k : string → option A) (p : ascii → bool).

Lemma lit_Some l k s a :
  lit l k s = Some a → ∃ r, s = l +:+ r ∧ k r = Some a.
Proof.
  unfold lit. destruct (stripPrefix l s) as [r|] eqn:H; [|done].
  intros Hk. exists r. split; [by apply stripPrefix_append|done].
Qed.

Lemma chr_Some p k s a :
  chr p k s = Some a → ∃ c r, s = String c r ∧ p c = true ∧ k r = Some a.
Proof.
  destruct s as [|c r]; [done|]. simpl. destruct (p c) eqn:Hc; [|done].
  intros Hk. by exists c, r.
Qed.

Lemma starG_Some p k s a :
  starG p k s = Some a →
  ∃ t r, s = t +:+ r ∧ allChars p t = true ∧ k r = Some a.
Proof.
  induction s as [|c s IH]; cbn [starG].
  - intros Hk. by exists "", "".
  - destruct (p c) eqn:Hc; [|intros Hk; by exists "", (String c s)].
    destruct (starG p k s) as [a'|] eqn:Hs.
    + intros [= ->]. destruct (IH eq_refl) as (t & r & -> & Ht & Hk).
      exists (String c t), r. cbn [allChars]. by rewrite Hc, Ht.
    + intros Hk. by exists "", (String c s).
Qed.

Lemma plusG_Some p k s a :
  plusG p k s = Some a →
  ∃ t r, s = t +:+ r ∧ allChars p t = true ∧ t ≠ "" ∧ k r = Some a.
Proof.
  destruct s as [|c s]; [done|]. cbn [plusG].
  destruct (p c) eqn:Hc; [|done].
  intros (t & r & -> & Ht & Hk)%starG_Some.
  exists (String c t), r. cbn [allChars]. by rewrite Hc, Ht.
Qed.

Lemma starG_continue p k s : is_Some (k s) → is_Some (starG p k s).
Proof.
  intros Hk. destruct s as [|c s]; cbn [starG]; [done|].
  destruct (p c); [|done]. by destruct (starG p k s).
Qed.

Lemma starG_take p k t : ∀ r,
  allChars p t = true → is_Some (k r) → is_Some (starG p k (t +:+ r)).
Proof.
  induction t as [|c t IH]; intros r Ht Hk; cbn [String.append].
  - by apply starG_continue.
  - cbn [allChars] in Ht. apply andb_prop in Ht as [Hc Ht].
    cbn [starG]. rewrite Hc.
    destruct (IH r Ht Hk) as [a ->]. by eexists.
Qed.

Lemma plusG_take p k t r :
  allChars p t = true → t ≠ "" → is_Some (k r) →
  is_Some (plusG p k (t +:+ r)).
Proof.
  destruct t as [|c t]; [done|]. intros Ht _ Hk.
  cbn [allChars] in Ht. apply andb_prop in Ht as [Hc Ht].
  cbn [String.append plusG]. rewrite Hc. by apply starG_take.
Qed.

Lemma lit_take l k r : is_Some (k r) → is_Some (lit l k (l +:+ r)).
Proof. intros Hk. unfold lit. by rewrite stripPrefix_here. Qed.

Lemma starC_Some p (k : string → string → option A) s a :
  starC p k s = Some a →
  ∃ t r, s = t +:+ r ∧ allChars p t = true ∧ k t r = Some a.
Proof.
  revert k. induction s as [|c s IH]; intros k; cbn [starC].
  - intros Hk. by exists "", "".
  - destruct (p c) eqn:Hc; [|intros Hk; by exists "", (String c s)].
    destruct (starC p (λ taken, k (String c taken)) s) as [a'|] eqn:Hs.
    + intros [= ->]. destruct (IH _ Hs) as (t & r & -> & Ht & Hk).
      exists (String c t), r. cbn [allChars]. by rewrite Hc, Ht.
    + intros Hk. by exists "", (String c s).
Qed.

Lemma plusC_Some p (k : string → string → option A) s a :
  plusC p k s = Some a →
  ∃ t r, s = t +:+ r ∧ allChars p t = true ∧ t ≠ "" ∧ k t r = Some a.
Proof.
  destruct s as [|c s]; [done|]. cbn [plusC].
  destruct (p c) eqn:Hc; [|done].
  intros (t & r & -> & Ht & Hk)%starC_Some.
  exists (String c t), r. cbn [allChars]. by rewrite Hc, Ht.
Qed.

Lemma starC_take p t : ∀ (k : string → string → option A) r,
  allChars p t = true → is_Some (k t r) → is_Some (starC p k (t +:+ r)).
Proof.
  induction t as [|c t IH]; intros k r Ht Hk; cbn [String.append].
  - destruct r as [|d r]; cbn [starC]; [done|].
    destruct (p d); [|done]. by destruct (starC p _ r).
  - cbn [allChars] in Ht. apply andb_prop in Ht as [Hc Ht].
    cbn [starC]. rewrite Hc.
    destruct (IH (λ taken, k (String c taken)) r Ht Hk) as [a ->].
    by eexists.
Qed.

Lemma plusC_take p (k : string → string → option A) t r :
  allChars p t = true → t ≠ "" → is_Some (k t r) →
  is_Some (plusC p k (t +:+ r)).
Proof.
  destruct t as [|c t]; [done|]. intros Ht _ Hk.
  cbn [allChars] in Ht. apply andb_prop in Ht as [Hc Ht].
  cbn [String.append plusC]. rewrite Hc.
  by apply (starC_take p t (λ taken, k (String c taken))).
Qed.

Lemma matchIndex_Some (matchAt : string → option A) s : ∀ index n,
  matchIndex matchAt s index = Some n →
  ∃ j, n = (index + j)%nat ∧ (j ≤ String.length s)%nat
       ∧ is_Some (matchAt (drop j s)).
Proof.
  induction s as [|c s IH]; intros index n; cbn [matchIndex].
  - destruct (matchAt "") eqn:H; [|done]. intros [= <-].
    exists 0%nat. rewrite Nat.add_0_r. cbn [drop]. by rewrite H.
  - destruct (matchAt (String c s)) eqn:H.
    + intros [= <-]. exists 0%nat. rewrite Nat.add_0_r.
      split; [done|]. split; [lia|]. cbn [drop]. by rewrite H.
    + intros (j & -> & Hj & Hm)%IH. exists (S j).
      split; [lia|]. split; [simpl; lia|done].
Qed.

End Combinators.

End BacktrackFacts.
(** ** The lint pass *)
Module LintProps.
Import StringSpec StringFacts Regex Backtrack BacktrackFacts Diagnostics Lint.
Import LintSpec.

Section Checks.
Local Arguments String.append !_ _ / : simpl nomatch.

Lemma prefix_here p r : String.prefix p (p +:+ r) = true.
Proof.
  induction p as [|c p IH]; cbn [String.append String.prefix];
    [by destruct r|].
  by destruct (Ascii.ascii_dec c c).
Qed.

Lemma includes_prefix s p : String.prefix p s = true → includes s p = true.
Proof. destruct s; cbn [includes]; by intros ->. Qed.

Lemma includes_at n : ∀ s p r, drop n s = p +:+ r → includes s p = true.
Proof.
  induction n as [|n IH]; intros s p r.
  - assert (drop 0 s = s) as -> by by destruct s.
    intros ->. apply includes_prefix, prefix_here.
  - destruct s as [|c s]; cbn [drop].
    + intros H. apply includes_prefix. rewrite H. apply prefix_here.
    + intros H. cbn [includes]. rewrite (IH _ _ _ H). apply orb_true_r.
Qed.

Lemma matchIndex_literal l s col :
  matchIndex (stripPrefix l) s 0 = Some col →
  (col + String.length l ≤ String.length s)%nat.
Proof.
  intros (j & -> & Hj & [r Hr])%matchIndex_Some.
  apply stripPrefix_append in Hr.
  pose proof (RefactorMore.length_drop j s) as Hlen.
  rewrite Hr, RoundTripProps.length_append in Hlen. lia.
Qed.

Lemma importFromPattern_text s path :
  importFromPattern s = Some path →
  ∃ ws1 any ws2 ws3 q1 q2 rest,
    s = "import" +:+ ws1 +:+ any +:+ ws2 +:+ "from" +:+ ws3
        +:+ String q1 (path +:+ String q2 rest)
    ∧ allChars isSpace ws1 = true ∧ ws1 ≠ ""
    ∧ allChars isDot any = true
    ∧ allChars isSpace ws2 = true ∧ ws2 ≠ ""
    ∧ allChars isSpace ws3 = true ∧ ws3 ≠ ""
    ∧ isQuote q1 = true ∧ isQuote q2 = true
    ∧ allChars isDot path = true ∧ path ≠ "".
Proof.
  unfold importFromPattern.
  intros (r1 & -> & H)%lit_Some.
  apply plusG_Some in H as (ws1 & r2 & -> & Hws1 & Hne1 & H).
  apply starG_Some in H as (any & r3 & -> & Hany & H).
  apply plusG_Some in H as (ws2 & r4 & -> & Hws2 & Hne2 & H).
  apply lit_Some in H as (r5 & -> & H).
  apply plusG_Some in H as (ws3 & r6 & -> & Hws3 & Hne3 & H).
  apply chr_Some in H as (q1 & r7 & -> & Hq1 & H).
  apply plusC_Some in H as (p & r8 & -> & Hp & Hnep & H).
  apply chr_Some in H as (q2 & r9 & -> & Hq2 & [= <-]).
  by exists ws1, any, ws2, ws3, q1, q2, r9.
Qed.

Lemma line_diagnostics i l d :
  d ∈ importChecks i l ++ ringCheck i l →
  severity (diagnostic d) = Error
  ∧ source (diagnostic d) = "smiles-js"
  ∧ line (start (range (diagnostic d))) = Z.of_nat i
  ∧ line (end_ (range (diagnostic d))) = Z.of_nat i
  ∧ 0 ≤ character (start (range (diagnostic d)))
      ≤ character (end_ (range (diagnostic d)))
  ∧ character (end_ (range (diagnostic d))) ≤ Z.of_nat (String.length l)
  ∧ (code (diagnostic d) = VString "deprecated-api"
     ∨ includes l "import" = true ∧ includes l "from" = true).
Proof.
  intros [Hd|Hd]%elem_of_app.
  - unfold importChecks in Hd.
    destruct (execFirst importFromPattern l) as [path|] eqn:Hm;
      [|by apply elem_of_nil in Hd].
    assert (includes l "import" = true ∧ includes l "from" = true) as Himp.
    { apply TrackerMore.execFirst_Some in Hm as [n Hn].
      apply importFromPattern_text in Hn
        as (ws1 & any & ws2 & ws3 & q1 & q2 & rest & Hs & _).
      split; [by apply (includes_at n _ _ _ Hs)|].
      eapply RefactorMore.includes_suffix with (a := "import" +:+ ws1 +:+ any +:+ ws2).
      rewrite !append_assoc. cbn [String.append].
      eapply (includes_at n). rewrite Hs. cbn [String.append].
      rewrite !append_assoc. reflexivity. }
    apply elem_of_app in Hd as [Hd|Hd].
    + destruct (includes path "/fragment"); [|by apply elem_of_nil in Hd].
      apply list_elem_of_singleton in Hd as ->. cbn.
      repeat split; try done; try lia. by right.
    + destruct (includes l ".attachAt("); [|by apply elem_of_nil in Hd].
      destruct (matchIndex _ l 0) as [col|] eqn:Hcol;
        [|by apply elem_of_nil in Hd].
      apply list_elem_of_singleton in Hd as ->. cbn.
      apply matchIndex_literal in Hcol. cbn in Hcol.
      repeat split; try done; try lia. by right.
  - unfold ringCheck in Hd.
    destruct (execFirst oldRingPattern l); [|by apply elem_of_nil in Hd].
    destruct (matchIndex _ l 0) as [col|] eqn:Hcol;
      [|by apply elem_of_nil in Hd].
    apply list_elem_of_singleton in Hd as ->. cbn.
    apply matchIndex_literal in Hcol. cbn in Hcol.
    repeat split; try done; try lia. by left.
Qed.

Lemma lintLines_elem lines : ∀ i d,
  d ∈ lintLines lines i →
  ∃ j l, lines !! j = Some l ∧ d ∈ importChecks (i + j) l ++ ringCheck (i + j) l.
Proof.
  induction lines as [|l lines IH]; intros i d; cbn [lintLines].
  - by intros ?%elem_of_nil.
  - rewrite app_assoc. intros [Hd|Hd]%elem_of_app.
    + exists 0%nat, l. by rewrite Nat.add_0_r.
    + apply IH in Hd as (j & l' & Hl & Hd). exists (S j), l'.
      split; [done|]. by rewrite Nat.add_succ_r.
Qed.

(** X20. For a build-format document [updateDiagnostics] publishes
    exactly the diagnostics of the lint pass on the text of the
    document, whatever the DSL engine would say. Each of them is an
    Error of source [smiles-js] whose range lies within one piece of the
    text as split at the line feeds: both ends on the index of the
    piece, from a column to a column not before it and not beyond the
    length of the piece (which counts a carriage return that ends
    it). *)
Theorem build_format_publishes_lint loadWithImports document :
  endsWith (Editor.fileName document) ".smiles.js" = true →
  let diagnostics :=
    map diagnostic (validateJavaScriptImports (Editor.getText document)) in
  published loadWithImports document = Some diagnostics
  ∧ ∀ d, d ∈ diagnostics →
      severity d = Error ∧ source d = "smiles-js"
      ∧ withinPiece (Editor.getText document) d.
Proof.
  intros Hk diagnostics. subst diagnostics.
  unfold published, updateDiagnostics, Editor.isSupportedFile.
  rewrite Hk, orb_true_r. cbn [negb]. split; [done|].
  intros d (x & -> & Hx)%list_elem_of_fmap.
  apply lintLines_elem in Hx as (j & l & Hl & Hd).
  apply line_diagnostics in Hd as (Hsev & Hsrc & Hl1 & Hl2 & Hc1 & Hc2 & _).
  split; [done|]. split; [done|]. by exists j, l.
Qed.

Lemma build_format_publishes_lint_witness :
  published (λ _ _, Throw (mkError "unused" None))
    (Editor.mkTextDocument "file:///m.smiles.js" "/m.smiles.js"
       "/m.smiles.js" "javascript" "const r = Ring('c', 6)")
  = Some [mkDiagnostic (mkRange (mkPosition 0 10) (mkPosition 0 22))
            ("Old Ring API: Use Ring({ atoms: 'c', size: 6 }) "
             +:+ "instead of Ring('c', 6)")
            Error "smiles-js" (VString "deprecated-api")].
Proof.
  apply (build_format_publishes_lint (λ _ _, Throw (mkError "unused" None))
           (Editor.mkTextDocument "file:///m.smiles.js" "/m.smiles.js"
              "/m.smiles.js" "javascript" "const r = Ring('c', 6)")
           eq_refl).
Defined.

(** X21. The checks for the deprecated import path and for [.attachAt(]
    are made on import lines only: a diagnostic other than the one for
    the old Ring constructor is reported on a line that contains
    [import] and [from]. *)
Theorem method_report_needs_import text d :
  d ∈ validateJavaScriptImports text →
  code (diagnostic d) ≠ VString "deprecated-api" →
  ∃ (i : nat) l,
    splitLines text !! i = Some l
    ∧ line (start (range (diagnostic d))) = Z.of_nat i
    ∧ includes l "import" = true ∧ includes l "from" = true.
Proof.
  intros (j & l & Hl & Hd)%lintLines_elem Hcode.
  apply line_diagnostics in Hd as (_ & _ & Hl1 & _ & _ & _ & [Hapi|Himp]);
    [done|].
  by exists j, l.
Qed.

Lemma method_report_needs_import_witness :
  ∃ (i : nat) l,
    splitLines "import x from 'y'; a.attachAt(b)" !! i = Some l
    ∧ includes l "import" = true.
Proof.
  destruct (method_report_needs_import "import x from 'y'; a.attachAt(b)"
              (mkLintDiagnostic
                 (mkDiagnostic
                    (mkRange (mkPosition 0 20) (mkPosition 0 29))
                    ("Method .attachAt() has been replaced with "
                     +:+ ".attach() in the new API")
                    Error "smiles-js" (VString "deprecated-method"))
                 None))
    as (i & l & Hl & _ & Himp & _).
  - apply list_elem_of_singleton. reflexivity.
  - discriminate.
  - by exists i, l.
Defined.

Lemma quotes_append a b : quotes (a +:+ b) = (quotes a + quotes b)%nat.
Proof.
  induction a as [|c a IH]; cbn [String.append quotes]; [done|].
  rewrite IH. lia.
Qed.

Lemma quotes_none s : noQuote s = true ↔ quotes s = 0%nat.
Proof.
  unfold noQuote. induction s as [|c s IH]; cbn [allChars quotes]; [done|].
  destruct (isQuote c); cbn [negb andb]; [split; [done|lia]|].
  by rewrite IH.
Qed.

Lemma first_quote u : ∀ v q1 q2 r1 r2,
  u +:+ String q1 r1 = v +:+ String q2 r2 →
  quotes u = 0%nat → quotes v = 0%nat →
  isQuote q1 = true → isQuote q2 = true →
  u = v ∧ r1 = r2.
Proof.
  induction u as [|c u IH]; intros [|d v] q1 q2 r1 r2;
    cbn [String.append quotes]; intros [= ] Hu Hv Hq1 Hq2; subst.
  - done.
  - rewrite Hq1 in Hv. lia.
  - rewrite Hq2 in Hu. lia.
  - destruct (IH v q1 q2 r1 r2) as [-> ->]; try done; lia.
Qed.

(** X22. On an import line with one quoted path, [import names from
    'path'] followed by text without quotes, the lint pass reads the
    path between the quotes, and reports a deprecated import exactly
    when that path contains [/fragment]. *)
Theorem import_path_reported names path tail i :
  allChars isDot names = true → noQuote names = true →
  allChars isDot path = true → noQuote path = true → path ≠ "" →
  noQuote tail = true →
  let l := "import " +:+ names +:+ " from '" +:+ path +:+ "'" +:+ tail in
  execFirst importFromPattern l = Some path
  ∧ ((∃ d, d ∈ importChecks i l
           ∧ code (diagnostic d) = VString "deprecated-import")
     ↔ includes path "/fragment" = true).
Proof.
  intros Hnames Hqnames Hpath Hqpath Hne Htail l.
  assert (is_Some (importFromPattern l)) as [x Hx].
  { subst l. unfold importFromPattern.
    change ("import " +:+ names +:+ " from '" +:+ path +:+ "'" +:+ tail)
      with ("import" +:+ " " +:+ names +:+ " " +:+ "from" +:+ " "
            +:+ String "'"%char (path +:+ String "'"%char tail)).
    apply lit_take. apply (plusG_take isSpace _ " "); [done..|].
    apply starG_take; [done|].
    apply (plusG_take isSpace _ " "); [done..|].
    apply lit_take. apply (plusG_take isSpace _ " "); [done..|].
    cbn [chr isQuote Ascii.eqb Bool.eqb orb].
    apply plusC_take; [done..|]. by cbn. }
  assert (x = path) as ->.
  { apply importFromPattern_text in Hx
      as (ws1 & any & ws2 & ws3 & q1 & q2 & rest & Hs & _ & _ & _ & _ & _
          & _ & _ & Hq1 & Hq2 & _).
    subst l.
    assert (("import" +:+ ws1 +:+ any +:+ ws2 +:+ "from" +:+ ws3)
            +:+ String q1 (x +:+ String q2 rest)
            = ("import " +:+ names +:+ " from ")
              +:+ String "'"%char (path +:+ String "'"%char tail)) as Heq.
    { repeat first [rewrite append_assoc|progress cbn [String.append]].
      repeat first [rewrite append_assoc in Hs
                   |progress cbn [String.append] in Hs].
      by rewrite <- Hs. }
    assert (quotes (("import " +:+ names +:+ " from ")
                    +:+ String "'"%char (path +:+ String "'"%char tail))
            = 2%nat) as Hcount.
    { rewrite !quotes_append. cbn [quotes String.append isQuote Ascii.eqb
        Bool.eqb orb]. rewrite !quotes_append.
      apply quotes_none in Hqnames, Hqpath, Htail.
      cbn [quotes isQuote Ascii.eqb Bool.eqb orb].
      rewrite Hqnames, Hqpath, Htail. reflexivity. }
    set (U := "import" +:+ ws1 +:+ any +:+ ws2 +:+ "from" +:+ ws3) in *.
    rewrite <- Heq, quotes_append in Hcount. cbn [quotes] in Hcount.
    rewrite quotes_append in Hcount. cbn [quotes] in Hcount.
    rewrite Hq1, Hq2 in Hcount.
    apply first_quote in Heq as [_ Heq]; [|lia| |done..].
    2:{ rewrite !quotes_append. apply quotes_none in Hqnames.
        rewrite Hqnames. reflexivity. }
    apply first_quote in Heq as [Heq _]; [done|lia| |done..].
    by apply quotes_none. }
  assert (execFirst importFromPattern l = Some path) as Hm.
  { destruct l; cbn [execFirst]; by rewrite Hx. }
  split; [done|]. unfold importChecks. rewrite Hm. split.
  - intros (d & [Hd|Hd]%elem_of_app & Hcode).
    + by destruct (includes path "/fragment"); [|apply elem_of_nil in Hd].
    + destruct (includes l ".attachAt("); [|by apply elem_of_nil in Hd].
      destruct (matchIndex _ l 0); [|by apply elem_of_nil in Hd].
      apply list_elem_of_singleton in Hd as ->. discriminate Hcode.
  - intros ->. eexists. split; [apply elem_of_app; left; by left|done].
Qed.

Lemma import_path_reported_witness :
  execFirst importFromPattern "import { Fragment } from './fragment.js';"
  = Some "./fragment.js".
Proof.
  apply (import_path_reported "{ Fragment }" "./fragment.js" ";" 0);
    reflexivity || discriminate.
Defined.

End Checks.

End LintProps.
(** ** The round-trip diagnostics *)
Module RoundTripMore.
Import StringSpec StringFacts Regex Backtrack BacktrackFacts.
Import Diagnostics RoundTripDiagnostics RoundTrip RoundTripSpec.
Import RoundTripMoreSpec.

Section Extraction.
Local Arguments String.append !_ _ / : simpl nomatch.

Lemma execAll_at {A} (matchAt : string → option (nat * A)) s :
  ∀ index skip x,
  x ∈ execAll matchAt s index skip →
  ∃ j len, x.1 = (index + j)%nat ∧ matchAt (drop j s) = Some (len, x.2).
Proof.
  induction s as [|c r IH]; intros index skip x.
  - destruct skip; cbn [execAll]; [|by intros ?%elem_of_nil].
    destruct (matchAt "") as [[len a]|] eqn:Hm; [|by intros ?%elem_of_nil].
    intros ->%list_elem_of_singleton. exists 0%nat, len.
    by rewrite Nat.add_0_r.
  - destruct skip as [|k]; cbn [execAll].
    + destruct (matchAt (String c r)) as [[len a]|] eqn:Hm.
      * intros [->|Hx]%elem_of_cons.
        -- exists 0%nat, len. by rewrite Nat.add_0_r.
        -- apply IH in Hx as (j & len' & -> & Hj). exists (S j), len'.
           split; [lia|done].
      * intros Hx. apply IH in Hx as (j & len' & -> & Hj).
        exists (S j), len'. split; [lia|done].
    + intros Hx. apply IH in Hx as (j & len' & -> & Hj).
      exists (S j), len'. split; [lia|done].
Qed.

Lemma lazyBody_text q r body :
  lazyBody q r = Some body → ∃ rest, r = body +:+ String q rest.
Proof.
  revert body. induction r as [|c r IH]; intros body; cbn [lazyBody];
    [done|].
  destruct (Ascii.eqb_spec c q) as [->|Hc].
  - intros [= <-]. by exists r.
  - destruct (isLineTerminator c); [done|].
    destruct (lazyBody q r) as [b|]; [|done]. intros [= <-].
    destruct (IH b eq_refl) as [rest ->]. by exists rest.
Qed.

Lemma length_take n : ∀ s,
  (n ≤ String.length s)%nat → String.length (Editor.take n s) = n.
Proof.
  induction n as [|n IH]; intros [|c s]; simpl; try lia.
  intros H. rewrite IH; lia.
Qed.

Lemma drop_text j s t :
  drop j s = t → t ≠ "" →
  s = Editor.take j s +:+ t ∧ String.length (Editor.take j s) = j.
Proof.
  intros Hd Ht. split; [by rewrite <- Hd, take_drop|].
  apply length_take.
  pose proof (RefactorMore.length_drop j s) as Hlen. rewrite Hd in Hlen.
  destruct t; [done|]. simpl in Hlen. lia.
Qed.

Lemma indexOf_first u q r :
  allChars (λ c, negb (Ascii.eqb c q)) u = true →
  indexOf (u +:+ String q r) q = Z.of_nat (String.length u).
Proof.
  induction u as [|c u IH]; cbn [String.append indexOf allChars].
  - by rewrite Ascii.eqb_refl.
  - intros [Hc Hu]%andb_prop. apply negb_true_iff in Hc.
    rewrite Hc, (IH Hu).
    destruct (Z.ltb_spec (Z.of_nat (String.length u)) 0); [lia|].
    cbn [String.length]. lia.
Qed.

Lemma isSpace_not_quote q c :
  isQuote q = true → isSpace c = true → negb (Ascii.eqb c q) = true.
Proof.
  intros Hq Hc. destruct (Ascii.eqb_spec c q) as [->|]; [|done].
  exfalso. revert Hq Hc. by destruct q as [[] [] [] [] [] [] [] []].
Qed.

Lemma stringLiteralEntries_marks l n e :
  e ∈ stringLiteralEntries l n → line e = n ∧ marks l e.
Proof.
  unfold stringLiteralEntries. intros ([index body] & Hx & He)%list_elem_of_omap.
  destruct (looksLikeSMILES body); [|done]. injection He as <-.
  apply execAll_at in Hx as (j & len & Hi & Hm). cbn [fst snd] in *.
  subst index. split; [done|].
  unfold stringLiteralPattern in Hm.
  destruct (drop j l) as [|q r] eqn:Hd; [done|].
  destruct (isQuote q) eqn:Hq; [|done].
  destruct (lazyBody q r) as [b|] eqn:Hb; [|done]. injection Hm as <- <-.
  apply lazyBody_text in Hb as [rest ->].
  apply drop_text in Hd as [Hl Hlen]; [|done].
  exists (Editor.take j l), q, rest. cbn [smiles start end_].
  split; [done|]. split; [done|]. lia.
Qed.

Lemma smilesFieldEntries_marks l n e :
  e ∈ smilesFieldEntries l n → line e = n ∧ marks l e.
Proof.
  unfold smilesFieldEntries.
  intros ([index [[m0 q] body]] & -> & Hx)%list_elem_of_fmap.
  apply execAll_at in Hx as (j & len & Hi & Hm). cbn [fst snd] in *.
  subst index. split; [done|].
  unfold smilesFieldPattern in Hm.
  destruct (stripPrefix "smiles" (drop j l)) as [r1|] eqn:H1; [|done].
  destruct (span isSpace r1) as [ws1 r2] eqn:Hs1.
  destruct (stripPrefix ":" r2) as [r3|] eqn:H2; [|done].
  destruct (span isSpace r3) as [ws2 r4] eqn:Hs2.
  destruct r4 as [|q' r5]; [done|].
  destruct (isQuote q') eqn:Hq; [|done].
  destruct (lazyBody q' r5) as [b|] eqn:Hb; [|done].
  injection Hm as <- <- <- <-.
  apply lazyBody_text in Hb as [rest ->].
  apply stripPrefix_append in H1, H2.
  pose proof (span_all _ _ _ _ Hs1) as Hws1.
  pose proof (span_all _ _ _ _ Hs2) as Hws2.
  apply span_append in Hs1, Hs2. subst r1 r2 r3.
  apply drop_text in H1 as [Hl Hlen]; [|done].
  set (u := "smiles" +:+ ws1 +:+ ":" +:+ ws2).
  assert (indexOf ("smiles" +:+ ws1 +:+ ":" +:+ ws2 +:+ String q' b
                   +:+ String q' "") q'
          = Z.of_nat (String.length u)) as Hidx.
  { replace ("smiles" +:+ ws1 +:+ ":" +:+ ws2 +:+ String q' b
             +:+ String q' "")
      with (u +:+ String q' (b +:+ String q' ""))
      by (subst u; repeat first [rewrite append_assoc
                                |progress cbn [String.append]]; done).
    apply indexOf_first. subst u.
    assert (allChars (λ c, negb (Ascii.eqb c q')) "smiles" = true) as H6
      by (revert Hq; by destruct q' as [[] [] [] [] [] [] [] []]).
    assert (allChars (λ c, negb (Ascii.eqb c q')) ":" = true) as H7
      by (revert Hq; by destruct q' as [[] [] [] [] [] [] [] []]).
    rewrite !RefactorMore.allChars_append, H6, H7.
    rewrite !(RefactorMore.allChars_impl isSpace _ _
                (λ c, isSpace_not_quote q' c Hq)) by done.
    done. }
  exists (Editor.take j l +:+ u), q', rest. cbn [smiles start end_].
  split; [|split; [done|]].
  - rewrite Hl at 1. subst u.
    repeat first [rewrite append_assoc|progress cbn [String.append]]. done.
  - cbn [String.append] in Hidx. rewrite Hidx, RoundTripProps.length_append, Hlen. lia.
Qed.

Lemma extractSMILESFromLine_marks l n e :
  e ∈ extractSMILESFromLine l n → line e = n ∧ marks l e.
Proof.
  intros [He|He]%elem_of_app.
  - by apply stringLiteralEntries_marks.
  - by apply smilesFieldEntries_marks.
Qed.

(** X23. Every entry that [extractSMILESFromLine] returns for a line
    carries the line number it was given, and its columns are those of
    its text: the text stands in the line between two equal quote
    characters, [start] is the column after the opening quote and [end]
    the column of the closing quote. *)
Theorem extracted_text_between_quotes l n e :
  e ∈ extractSMILESFromLine l n → line e = n ∧ marks l e.
Proof. apply extractSMILESFromLine_marks. Qed.

Section Diagnose.
Variable validateRoundTrip : string → Res RoundTripResult.

Lemma checkLines_elem uri lines : ∀ i d,
  d ∈ checkLines validateRoundTrip uri lines i →
  ∃ j l e,
    lines !! j = Some l
    ∧ e ∈ extractSMILESFromLine l (i + j)
    ∧ d ∈ checkEntry validateRoundTrip uri e.
Proof.
  induction lines as [|l lines IH]; intros i d; cbn [checkLines].
  - by intros ?%elem_of_nil.
  - intros [Hd|Hd]%elem_of_app.
    + apply list_elem_of_In, in_concat in Hd as (ds & Hds & Hd).
      apply list_elem_of_In in Hd.
      apply in_map_iff in Hds as (e & <- & He%list_elem_of_In).
      exists 0%nat, l, e. by rewrite Nat.add_0_r.
    + apply IH in Hd as (j & l' & e & Hl & He & Hd). exists (S j), l', e.
      split; [done|]. by rewrite Nat.add_succ_r.
Qed.

(** X24. Every round-trip diagnostic of a document marks a quoted
    literal of one of its lines, from the column after the opening quote
    to the closing quote, whose validation returned a result that is not
    perfect; it is a Warning with code [smiles-stabilizes] when the
    result stabilizes and an Error with code [smiles-unstable]
    otherwise. Literals that validate as perfect, or whose validation
    throws, get no diagnostic. *)
Theorem round_trip_diagnostic_marks_literal document d :
  d ∈ createRoundTripDiagnostics validateRoundTrip document →
  ∃ (i : nat) l e result,
    splitLines (Editor.getText document) !! i = Some l
    ∧ marks l e
    ∧ validateRoundTrip (smiles e) = Ok result
    ∧ perfect result = false
    ∧ range (diagnostic d)
      = mkRange (mkPosition (Z.of_nat i) (start e))
                (mkPosition (Z.of_nat i) (end_ e))
    ∧ source (diagnostic d) = "smiles-js"
    ∧ severity (diagnostic d)
      = (if stabilizes result then Warning else Error)
    ∧ code (diagnostic d)
      = VString (if stabilizes result then "smiles-stabilizes"
                 else "smiles-unstable").
Proof.
  unfold createRoundTripDiagnostics.
  destruct (_ && _); [by intros ?%elem_of_nil|]. cbv zeta.
  intros (j & l & e & Hl & He & Hd)%checkLines_elem.
  apply extractSMILESFromLine_marks in He as [Hline Hmarks].
  unfold checkEntry in Hd. cbv zeta in Hd.
  destruct (validateRoundTrip (smiles e)) as [result|err] eqn:Hv;
    [|by apply elem_of_nil in Hd].
  destruct (perfect result) eqn:Hp; [by apply elem_of_nil in Hd|].
  cbn [negb] in Hd. exists j, l, e, result. rewrite Hline in Hd.
  cbn [Nat.add] in Hd.
  destruct (stabilizes result);
    apply list_elem_of_singleton in Hd as ->; by cbn.
Qed.

End Diagnose.

Lemma starC_exact {A} p t : ∀ (k : string → string → option A) r a,
  allChars p t = true →
  match r with String c _ => p c = false | EmptyString => True end →
  k t r = Some a → starC p k (t +:+ r) = Some a.
Proof.
  induction t as [|c t IH]; intros k r a Ht Hr Hk; cbn [String.append].
  - destruct r as [|d r]; cbn [starC]; [done|]. by rewrite Hr.
  - cbn [allChars] in Ht. apply andb_prop in Ht as [Hc Ht].
    cbn [starC]. rewrite Hc.
    by rewrite (IH (λ taken, k (String c taken)) r a Ht Hr Hk).
Qed.

Lemma stabilizesPattern_here normalized rest :
  noDquote normalized = true → normalized ≠ "" →
  stabilizesPattern
    ("Stabilizes to " +:+ inQuotes normalized +:+ rest)
  = Some normalized.
Proof.
  intros Hq Hne. unfold stabilizesPattern, inQuotes.
  replace ("Stabilizes to "
           +:+ (String dquote normalized +:+ String dquote "") +:+ rest)
    with (("Stabilizes to " +:+ String dquote "")
          +:+ normalized +:+ String dquote rest)
    by (repeat first [rewrite append_assoc|progress cbn [String.append]];
        done).
  unfold lit. rewrite stripPrefix_here.
  destruct normalized as [|c t]; [done|].
  unfold noDquote in Hq. cbn [allChars] in Hq.
  apply andb_prop in Hq as [Hc Ht].
  cbn [String.append plusC]. rewrite Hc.
  apply (starC_exact _ t (λ taken, _)); [done| |].
  - by rewrite Ascii.eqb_refl.
  - cbn [chr]. by rewrite Ascii.eqb_refl.
Qed.

Lemma execFirst_next {A} (matchAt : string → option A) c s :
  matchAt (String c s) = None →
  execFirst matchAt (String c s) = execFirst matchAt s.
Proof. intros H. cbn [execFirst]. by rewrite H. Qed.

(** X25. The quick fix reads the normalised form back from the message
    of the diagnostic: for a literal whose validation is not perfect and
    whose normalised form is non-empty and free of double quotes, the
    code actions for its diagnostic are, when the result stabilizes, one
    fix that replaces the range of the diagnostic by the normalised
    form, and none when it does not stabilize. *)
Theorem quick_fix_restores_normal_form validateRoundTrip document uri e
    result :
  validateRoundTrip (smiles e) = Ok result →
  perfect result = false →
  noDquote (firstRoundTrip result) = true →
  firstRoundTrip result ≠ "" →
  ∃ d,
    checkEntry validateRoundTrip uri e = [d]
    ∧ provideCodeActions document [diagnostic d]
      = if stabilizes result then
          [mkCodeAction
             ("Replace with normalized SMILES: " +:+ firstRoundTrip result)
             (Editor.uri document)
             (mkRange (mkPosition (Z.of_nat (line e)) (start e))
                      (mkPosition (Z.of_nat (line e)) (end_ e)))
             (firstRoundTrip result) [diagnostic d]]
        else [].
Proof.
  intros Hv Hp Hq Hne. unfold checkEntry. cbv zeta. rewrite Hv, Hp.
  cbn [negb]. destruct (stabilizes result); eexists; (split; [done|]).
  - unfold provideCodeActions, quickFix.
    cbn [map concat diagnostic source code message range String.eqb
           Ascii.eqb Bool.eqb andb app].
    cbn [String.append].
    repeat (rewrite execFirst_next by reflexivity).
    erewrite TrackerMore.execFirst_here; [done|].
    apply (stabilizesPattern_here _ _ Hq Hne).
  - reflexivity.
Qed.

Lemma extracted_text_between_quotes_witness :
  marks "a('C=C')" (mkExtracted "C=C" 3 6 3).
Proof.
  apply (extracted_text_between_quotes "a('C=C')" 3
           (mkExtracted "C=C" 3 6 3)).
  apply list_elem_of_singleton. reflexivity.
Defined.

Lemma round_trip_diagnostic_marks_literal_witness :
  ∃ (i : nat) l e result,
    splitLines (Editor.getText sampleRoundTripDocument) !! i = Some l
    ∧ marks l e
    ∧ sampleValidate (smiles e) = Ok result
    ∧ perfect result = false.
Proof.
  destruct (round_trip_diagnostic_marks_literal sampleValidate
              sampleRoundTripDocument sampleDiagnostic)
    as (i & l & e & result & Hl & Hm & Hv & Hp & _).
  - apply list_elem_of_singleton. reflexivity.
  - by exists i, l, e, result.
Defined.

Lemma quick_fix_restores_normal_form_witness :
  provideCodeActions sampleRoundTripDocument [diagnostic sampleDiagnostic]
  = [mkCodeAction "Replace with normalized SMILES: c1ccccc1"
       "file:///m.smiles.js"
       (mkRange (mkPosition 1 11) (mkPosition 1 22)) "c1ccccc1"
       [diagnostic sampleDiagnostic]].
Proof.
  destruct (quick_fix_restores_normal_form sampleValidate
              sampleRoundTripDocument "file:///m.smiles.js"
              (mkExtracted "C1=CC=CC=C1" 11 22 1)
              (mkRoundTripResult false true "c1ccccc1")
              eq_refl eq_refl eq_refl ltac:(discriminate))
    as (d & Hd & Hfix).
  injection Hd as <-. exact Hfix.
Defined.

End Extraction.

End RoundTripMore.
(** ** The renderer *)
Module RendererProps.
Import Renderer RendererSpec.

Section Init.
Variable initRDKitModule : Res RDKit.

(** X26. With the RDKit module initialised, [generateSVG] and
    [isValidSMILES] ask for the molecule once and delete it exactly once
    whenever [get_mol] returned one, whether they return or throw; when
    [get_mol] throws or returns null nothing is deleted. The module
    variable is left as it is. *)
Theorem molecule_deleted_once s rdkit smiles options :
  RDKitModule s = Some rdkit →
  let s1 := (generateSVG initRDKitModule smiles options s).2 in
  let s2 := (isValidSMILES initRDKitModule smiles s).2 in
  effects s1 = effects s ++ lifeCycle rdkit smiles
  ∧ effects s2 = effects s ++ lifeCycle rdkit smiles
  ∧ RDKitModule s1 = Some rdkit ∧ RDKitModule s2 = Some rdkit.
Proof.
  intros Hm s1 s2. subst s1 s2.
  unfold generateSVG, isValidSMILES, initRDKit, lifeCycle. run.
  rewrite !Hm.
  destruct (get_mol rdkit smiles) as [[mol|]|err]; cbn;
    [|by rewrite <- ?app_assoc..].
  destruct (is_valid mol) as [[]|err]; cbn;
    [destruct (get_svg_with_highlights mol _); cbn|..];
    by rewrite <- ?app_assoc.
Qed.

(** X27. With the RDKit module initialised, [generateSVG] returns what
    [get_svg_with_highlights] returns for a molecule that says it is
    valid, called with the JSON text of the options with their defaults
    500, 300 and true. Otherwise it throws an error whose message is
    [Failed to generate SVG for Q<smiles>Q: ] followed by the message of
    the exception of [get_mol], [is_valid] or the drawing call, or by
    [Invalid molecule for SMILES: <smiles>] when there is no molecule or
    it is not valid. *)
Theorem generateSVG_outcomes s rdkit smiles options :
  RDKitModule s = Some rdkit →
  let json :=
    stringify (default 500 (o_width options))
      (default 300 (o_height options))
      (default true (o_addStereoAnnotation options)) in
  match (generateSVG initRDKitModule smiles options s).1 with
  | Ok svg =>
      ∃ mol, validMolecule rdkit smiles mol
             ∧ get_svg_with_highlights mol json = Ok svg
  | Throw err =>
      ∃ cause, failure rdkit smiles json = Some cause
               ∧ message err
                 = "Failed to generate SVG for " +:+ key smiles +:+ ": "
                   +:+ cause
  end.
Proof.
  intros Hm json. subst json.
  unfold generateSVG, initRDKit, failure, validMolecule. run. rewrite Hm.
  destruct (get_mol rdkit smiles) as [[mol|]|err]; cbn;
    [|eexists; split; reflexivity..].
  destruct (is_valid mol) as [[]|err] eqn:Hvalid; cbn;
    [|eexists; split; reflexivity..].
  destruct (get_svg_with_highlights mol _) as [svg|err] eqn:Hsvg; cbn.
  - by exists mol.
  - eexists; split; reflexivity.
Qed.

(** X28. With the RDKit module initialised, [isValidSMILES] never
    throws, and its result is truthy exactly when [get_mol] returned a
    molecule that says it is valid. *)
Theorem isValidSMILES_never_throws s rdkit smiles :
  RDKitModule s = Some rdkit →
  ∃ v, (isValidSMILES initRDKitModule smiles s).1 = Ok v
       ∧ (truthy v = true ↔ ∃ mol, validMolecule rdkit smiles mol).
Proof.
  intros Hm. unfold isValidSMILES, initRDKit, validMolecule. run. rewrite Hm.
  destruct (get_mol rdkit smiles) as [[mol|]|err]; cbn.
  - destruct (is_valid mol) as [[]|err] eqn:Hv; cbn; eexists;
      (split; [done|]); cbn; split; try done.
    + intros _. by exists mol.
    + intros (m & [= <-] & H). congruence.
    + intros (m & [= <-] & H). congruence.
  - eexists. split; [done|]. cbn. split; [done|]. by intros (m & H & _).
  - eexists. split; [done|]. cbn. split; [done|]. by intros (m & H & _).
Qed.

(** X29. The RDKit module is initialised on first use and kept: a call
    of [generateSVG] without a module initialises it first, and
    afterwards [initRDKit] returns the same module without effect. When
    the initialisation throws, the exception is passed on as it is, not
    wrapped, no molecule is asked for, and the module variable stays
    empty, so that the next call initialises again. *)
Theorem module_initialised_once s smiles options :
  RDKitModule s = None →
  let out := generateSVG initRDKitModule smiles options s in
  match initRDKitModule with
  | Ok rdkit =>
      RDKitModule out.2 = Some rdkit
      ∧ effects out.2 = effects s ++ InitModule :: lifeCycle rdkit smiles
      ∧ ∀ s', RDKitModule s' = Some rdkit →
              initRDKit initRDKitModule s' = (Ok rdkit, s')
  | Throw err =>
      out = (Throw err, mkState None (effects s ++ [InitModule]))
  end.
Proof.
  intros Hm out. subst out.
  unfold generateSVG, initRDKit, lifeCycle. run. rewrite Hm.
  destruct initRDKitModule as [rdkit|err]; [|done]. cbn.
  split; [|split].
  - by destruct (get_mol rdkit smiles) as [[mol|]|?]; cbn;
      [destruct (is_valid mol) as [[]|?]; cbn;
       [destruct (get_svg_with_highlights mol _); cbn|..]|..].
  - by destruct (get_mol rdkit smiles) as [[mol|]|?]; cbn;
      [destruct (is_valid mol) as [[]|?]; cbn;
       [destruct (get_svg_with_highlights mol _); cbn|..]|..];
      rewrite <- ?app_assoc.
  - by intros s' ->.
Qed.

End Init.

(** *** Instances *)

Lemma molecule_deleted_once_witness :
  effects (generateSVG (Ok sampleRDKit) "[X]" (mkOptions None None None)
             (mkState (Some sampleRDKit) [])).2
  = [GetMol "[X]"; Delete 2].
Proof.
  destruct (molecule_deleted_once (Ok sampleRDKit)
              (mkState (Some sampleRDKit) []) sampleRDKit "[X]"
              (mkOptions None None None) eq_refl) as [H _].
  exact H.
Defined.

Lemma generateSVG_outcomes_witness :
  ∃ mol,
    validMolecule sampleRDKit "C" mol
    ∧ get_svg_with_highlights mol (stringify 500 300 true)
      = Ok ("<svg>" +:+ stringify 500 300 true).
Proof.
  exact (generateSVG_outcomes (Ok sampleRDKit)
           (mkState (Some sampleRDKit) []) sampleRDKit "C"
           (mkOptions None None None) eq_refl).
Defined.

Lemma isValidSMILES_never_throws_witness :
  ∃ v,
    (isValidSMILES (Ok sampleRDKit) "C("
       (mkState (Some sampleRDKit) [])).1 = Ok v
    ∧ (truthy v = true ↔ ∃ mol, validMolecule sampleRDKit "C(" mol).
Proof.
  exact (isValidSMILES_never_throws (Ok sampleRDKit)
           (mkState (Some sampleRDKit) []) sampleRDKit "C(" eq_refl).
Defined.

Lemma module_initialised_once_witness :
  let out :=
    generateSVG (Ok sampleRDKit) "C" (mkOptions None None None)
      (mkState None []) in
  RDKitModule out.2 = Some sampleRDKit
  ∧ effects out.2 = [InitModule; GetMol "C"; Delete 1]
  ∧ ∀ s', RDKitModule s' = Some sampleRDKit →
          initRDKit (Ok sampleRDKit) s' = (Ok sampleRDKit, s').
Proof.
  exact (module_initialised_once (Ok sampleRDKit) (mkState None []) "C"
           (mkOptions None None None) eq_refl).
Defined.

End RendererProps.
